(** * Upload and metadata reconciliation of the photography backend

    A shallow embedding of the three server files of the repository:

    - [Flat]: the flat-file variant ([index.js] and the second server
      file with the e-mail endpoint).  Blobs live in [uploads/] on the
      local disk, metadata in the in-process object [imageData], which
      is rewritten to [imageData.json] after every mutation.
    - [Durable]: the durable-database variant (the server file that
      loads [./models/Image] and [./cloudinary-config]).  Blobs live in
      Cloudinary, metadata in the MongoDB collection of [Image].
    - [Auth]: the login endpoint of the durable variant.

    Handlers are written in a small state-and-exception monad over the
    state of the process and of its stores.  What the outside world
    decides (clock, random suffix, whether a disk or network call
    succeeds) is an explicit [Env] argument. *)

From Stdlib Require Import ZArith String Ascii List Bool Lia Permutation Sorted.
From Stdlib Require Import DecimalString.
From stdpp Require Import base option list gmap strings.

Open Scope string_scope.

(** ** Characters and strings *)

Definition chars (s : string) : list ascii := list_ascii_of_string s.
Definition of_chars (cs : list ascii) : string := string_of_list_ascii cs.

(** [s.startsWith(p)] *)
Definition startsWith (s p : string) : bool := String.prefix p s.

(** The decimal text of an integer, as [+] with a string produces it. *)
Definition number_string (z : Z) : string := NilZero.string_of_int (Z.to_int z).

(** ** Stable insertion sort, used for both orderings of the program:
    [Image.find({}).sort({ uploadedAt: -1 })] and the order in which a
    JavaScript object enumerates its integer-like keys. *)

Fixpoint insert_by {A : Type} (le : A -> A -> bool) (x : A) (l : list A) : list A :=
  match l with
  | [] => [x]
  | y :: l' => if le x y then x :: y :: l' else y :: insert_by le x l'
  end.

Definition sort_by {A : Type} (le : A -> A -> bool) (l : list A) : list A :=
  fold_right (insert_by le) [] l.

(** ** The metadata record

    One shape for both variants: [{url, publicId?, originalName, size,
    mimetype, uploadedAt}].  The flat-file variant never sets
    [publicId].  [uploadedAt] is the instant in milliseconds; the source
    keeps it as [new Date().toISOString()] (flat file) or as a [Date]
    (database), both of which determine and are determined by the
    instant. *)

Module Image.
Record t : Type := {
  url : string;
  publicId : option string;
  originalName : string;
  size : Z;
  mimetype : string;
  uploadedAt : Z
}.
End Image.

(** ** [path]: the POSIX flavour of Node's module *)

Module Path.

Definition is_sep (c : ascii) : bool := Ascii.eqb c "/".
Definition is_dot (c : ascii) : bool := Ascii.eqb c ".".

Fixpoint drop_seps (cs : list ascii) : list ascii :=
  match cs with
  | c :: cs' => if is_sep c then drop_seps cs' else cs
  | [] => []
  end.

Fixpoint take_segment (cs : list ascii) : list ascii :=
  match cs with
  | c :: cs' => if is_sep c then [] else c :: take_segment cs'
  | [] => []
  end.

(** [path.basename(p)]: trailing separators are dropped, then the part
    after the last separator is returned. *)
Definition basename_chars (p : list ascii) : list ascii :=
  rev (take_segment (drop_seps (rev p))).

Definition basename (p : string) : string := of_chars (basename_chars (chars p)).

Fixpoint take_to_dot (cs : list ascii) : option (list ascii * list ascii) :=
  match cs with
  | [] => None
  | c :: cs' =>
      if is_dot c then Some ([], cs')
      else match take_to_dot cs' with
           | Some (ext, stem) => Some (c :: ext, stem)
           | None => None
           end
  end.

(** [path.extname(p)]: from the last dot of the basename to its end;
    empty when there is no dot, when the dot is the first character of
    the basename, and for the basename [..]. *)
Definition extname (p : string) : string :=
  let b := basename_chars (chars p) in
  match take_to_dot (rev b) with
  | None => ""
  | Some (ext_rev, stem_rev) =>
      match stem_rev with
      | [] => ""
      | _ :: _ =>
          if String.eqb (of_chars b) ".." then ""
          else of_chars ("."%char :: rev ext_rev)
      end
  end.

Fixpoint split_aux (cur : list ascii) (cs : list ascii) : list string :=
  match cs with
  | [] => [of_chars (rev cur)]
  | c :: cs' =>
      if is_sep c then of_chars (rev cur) :: split_aux [] cs'
      else split_aux (c :: cur) cs'
  end.

(** The segments of a path string between its separators. *)
Definition segments (s : string) : list string := split_aux [] (chars s).

(** One step of normalisation on an absolute path, kept as the list of
    its segments below the root: empty segments and [.] are skipped,
    [..] drops the last segment (and stays at the root). *)
Definition step (stack : list string) (seg : string) : list string :=
  if String.eqb seg "" || String.eqb seg "." then stack
  else if String.eqb seg ".." then removelast stack
  else stack ++ [seg].

(** [path.join(base, ...args)] for an absolute, normalised [base]. *)
Definition join (base : list string) (args : list string) : list string :=
  fold_left step (flat_map segments args) base.

End Path.

(** No separator among the characters. *)
Definition no_sep (cs : list ascii) : Prop := Forall (fun c => Path.is_sep c = false) cs.

(** ** Plain JavaScript objects used as maps from key to record

    Both variants index a plain object ([{}], or the result of
    [JSON.parse]) with caller-supplied strings.  Three facts of the
    language are visible through that and are part of the model:

    - a read [o[k]] that finds no own property continues along the
      prototype chain, which ends in [Object.prototype];
    - an assignment [o["__proto__"] = r] on an object without such an
      own property runs the inherited setter: it replaces the prototype
      of [o] by [r] and creates no property;
    - own keys are enumerated (by [JSON.stringify], hence by
      [res.json]) with the array-index keys first, in ascending numeric
      order, then the other keys in order of creation. *)

Module Js.

(** What a read can yield. *)
Inductive value : Type :=
  | VUndefined
  | VString (s : string)
  | VNumber (n : Z)
  | VDate (t : Z)
  | VRecord (r : Image.t)
  | VBuiltin (name : string).

(** [own_props]: the own properties in order of creation; [proto]:
    [None] for [Object.prototype], [Some r] once a record has been
    installed as prototype. *)
Record object : Type := {
  own_props : list (string * Image.t);
  proto : option Image.t
}.

(** [{}] *)
Definition empty : object := {| own_props := []; proto := None |}.

(** The names every plain object inherits from [Object.prototype]. *)
Definition object_prototype_names : list string :=
  [ "constructor"; "__defineGetter__"; "__defineSetter__"; "hasOwnProperty";
    "__lookupGetter__"; "__lookupSetter__"; "isPrototypeOf";
    "propertyIsEnumerable"; "toString"; "valueOf"; "__proto__";
    "toLocaleString" ].

Fixpoint lookup_own (k : string) (ps : list (string * Image.t)) : option Image.t :=
  match ps with
  | [] => None
  | (k', v) :: ps' => if String.eqb k k' then Some v else lookup_own k ps'
  end.

Definition own (k : string) (o : object) : option Image.t :=
  lookup_own k (own_props o).

(** The own properties of a record object. *)
Definition field (k : string) (r : Image.t) : option value :=
  if String.eqb k "url" then Some (VString (Image.url r))
  else if String.eqb k "publicId" then VString <$> Image.publicId r
  else if String.eqb k "originalName" then Some (VString (Image.originalName r))
  else if String.eqb k "size" then Some (VNumber (Image.size r))
  else if String.eqb k "mimetype" then Some (VString (Image.mimetype r))
  else if String.eqb k "uploadedAt" then Some (VDate (Image.uploadedAt r))
  else None.

(** What [Object.prototype] answers for an object whose prototype is
    [pr]: the accessor [__proto__] returns that prototype, the other
    names are functions. *)
Definition inherited (k : string) (pr : option Image.t) : value :=
  if String.eqb k "__proto__" then
    match pr with
    | Some r => VRecord r
    | None => VBuiltin "__proto__"
    end
  else if existsb (String.eqb k) object_prototype_names then VBuiltin k
  else VUndefined.

(** [o[k]] *)
Definition get (k : string) (o : object) : value :=
  match own k o with
  | Some r => VRecord r
  | None =>
      match proto o with
      | Some p =>
          match field k p with
          | Some v => v
          | None => inherited k (Some p)
          end
      | None => inherited k None
      end
  end.

(** Truthiness, as tested by [if (v)]. *)
Definition truthy (v : value) : bool :=
  match v with
  | VUndefined => false
  | VString s => negb (String.eqb s "")
  | VNumber n => negb (n =? 0)%Z
  | VDate _ => true
  | VRecord _ => true
  | VBuiltin _ => true
  end.

(** [v.url]: only a record has one. *)
Definition member_url (v : value) : option string :=
  match v with
  | VRecord r => Some (Image.url r)
  | _ => None
  end.

Fixpoint put (k : string) (v : Image.t) (ps : list (string * Image.t)) : list (string * Image.t) :=
  match ps with
  | [] => [(k, v)]
  | (k', v') :: ps' =>
      if String.eqb k k' then (k, v) :: ps' else (k', v') :: put k v ps'
  end.

(** [o[k] = v] *)
Definition assign (k : string) (v : Image.t) (o : object) : object :=
  if String.eqb k "__proto__" && negb (bool_decide (is_Some (own "__proto__" o)))
  then {| own_props := own_props o; proto := Some v |}
  else {| own_props := put k v (own_props o); proto := proto o |}.

Definition remove (k : string) (ps : list (string * Image.t)) : list (string * Image.t) :=
  List.filter (fun p => negb (String.eqb k (fst p))) ps.

(** [delete o[k]] *)
Definition delete (k : string) (o : object) : object :=
  {| own_props := remove k (own_props o); proto := proto o |}.

Definition digit (c : ascii) : option N :=
  let n := N_of_ascii c in
  if (48 <=? n)%N && (n <=? 57)%N then Some (n - 48)%N else None.

Fixpoint decimal (acc : N) (cs : list ascii) : option N :=
  match cs with
  | [] => Some acc
  | c :: cs' =>
      match digit c with
      | Some d => decimal (10 * acc + d)%N cs'
      | None => None
      end
  end.

(** A key is an array index when it is the canonical decimal form of an
    integer below [2^32 - 1]. *)
Definition array_index (k : string) : option N :=
  match chars k with
  | [] => None
  | c :: cs =>
      if Ascii.eqb c "0" && negb (bool_decide (cs = [])) then None
      else match decimal 0 (c :: cs) with
           | Some n => if (n <? 4294967295)%N then Some n else None
           | None => None
           end
  end.

Definition is_index (p : string * Image.t) : bool :=
  bool_decide (is_Some (array_index (fst p))).

Definition index_le (p q : string * Image.t) : bool :=
  match array_index (fst p), array_index (fst q) with
  | Some i, Some j => (i <=? j)%N
  | _, _ => true
  end.

(** The own properties in the order of enumeration. *)
Definition ordered (ps : list (string * Image.t)) : list (string * Image.t) :=
  sort_by index_le (List.filter is_index ps)
  ++ List.filter (fun p => negb (is_index p)) ps.

(** The members of [JSON.stringify(o)], in order. *)
Definition entries (o : object) : list (string * Image.t) := ordered (own_props o).

(** How many own properties carry the key (at most one in an object
    built by the operations above). *)
Definition count_key (k : string) (ps : list (string * Image.t)) : nat :=
  length (List.filter (fun p => String.eqb k (fst p)) ps).

Definition unique_keys (ps : list (string * Image.t)) : Prop :=
  forall k, (count_key k ps <= 1)%nat.

End Js.

(** ** Exceptions, the handler monad and HTTP responses *)

Inductive JsError : Type :=
  | Error (message : string)
  | TypeError (message : string)
  | MulterError (code : string)
  | SystemError (code : string) (path : list string)
  | ServiceError (service : string).

Inductive result (A : Type) : Type :=
  | Ok (a : A)
  | Thrown (e : JsError).

Arguments Ok {A} a.
Arguments Thrown {A} e.

(** A computation over a world [W] that returns or throws. *)
Definition M (W A : Type) : Type := W -> result A * W.

Definition ret {W A : Type} (a : A) : M W A := fun w => (Ok a, w).

Definition throw {W A : Type} (e : JsError) : M W A := fun w => (Thrown e, w).

Definition bind {W A B : Type} (m : M W A) (k : A -> M W B) : M W B :=
  fun w =>
    match m w with
    | (Ok a, w') => k a w'
    | (Thrown e, w') => (Thrown e, w')
    end.

(** [try { m } catch (error) { h error }] *)
Definition try_catch {W A : Type} (m : M W A) (h : JsError -> M W A) : M W A :=
  fun w =>
    match m w with
    | (Ok a, w') => (Ok a, w')
    | (Thrown e, w') => h e w'
    end.

Definition gets {W A : Type} (f : W -> A) : M W A := fun w => (Ok (f w), w).

Definition modify {W : Type} (f : W -> W) : M W unit := fun w => (Ok tt, f w).

Notation "'let*' x ':=' m 'in' k" := (bind m (fun x => k))
  (at level 10, x name, m at level 100, k at level 200).
Notation "m ';;' k" := (bind m (fun _ => k))
  (at level 100, k at level 200, right associativity).

Inductive Body : Type :=
  | BError (error : string)
  | BUploaded (imageUrl imageKey : string) (publicId : option string)
      (data : option (string * Image.t))
  | BImages (images : list (string * Image.t))
  | BJson (v : Js.value)
  | BSuccess (message : string)
  | BDenied (error : string)
  | BErrorPage (e : JsError).

Record Response : Type := { status : Z; body : Body }.

(** [res.status(code).json(b)] *)
Definition json (code : Z) (b : Body) : Response := {| status := code; body := b |}.

(** What the middleware chain of a route ends in: a response written by
    the handler, or an error handed to Express ([next(err)], or an
    exception escaping a synchronous handler). *)
Inductive Outcome : Type :=
  | Responded (r : Response)
  | Failed (e : JsError).

(** No error-handling middleware is registered, so a failed request is
    answered by the default handler of Express: the errors raised here
    carry no status of their own and are answered with 500. *)
Definition http_response (o : Outcome) : Response :=
  match o with
  | Responded r => r
  | Failed e => {| status := 500; body := BErrorPage e |}
  end.

(** The document in the [data] member of an upload response. *)
Definition returned_doc (o : Outcome) : option (string * Image.t) :=
  match o with
  | Responded {| status := _; body := BUploaded _ _ _ (Some doc) |} => Some doc
  | _ => None
  end.

(** The instants of the records of a listing, in the order of the
    response. *)
Definition listed_instants (o : Outcome) : list Z :=
  match o with
  | Responded {| status := _; body := BImages images |} =>
      map (fun img => Image.uploadedAt (snd img)) images
  | _ => []
  end.

(** The parts of a multipart upload request that the route looks at:
    the file sent in the field [image], if any, and the field
    [imageKey] of the body, if any. *)
Record FilePart : Type := {
  originalname : string;
  mimetype : string;
  content : string
}.

Record UploadRequest : Type := {
  req_file : option FilePart;
  req_imageKey : option string
}.

(** The file object that multer hands to the route once the storage
    engine has stored the bytes ([req.file], [req.files.image[0]]). *)
Record StoredFile : Type := {
  filename : string;
  path : string;
  file_originalname : string;
  file_mimetype : string;
  file_size : Z
}.

(** [fileFilter], the same in the three server files. *)
Definition fileFilter (file : FilePart) : result bool :=
  if startsWith (mimetype file) "image/" then Ok true
  else Thrown (Error "Only image files are allowed!").

Definition byte_length (s : string) : Z := Z.of_nat (String.length s).

(** ** The flat-file variant *)

Module Flat.

(** The local disk: absolute paths (as segments below the root) to
    directories and files.  A file holds uploaded bytes or the JSON text
    of a metadata object, or what a write that failed half-way has left
    of either: a strict prefix of the text, possibly empty ([Torn]). *)
Inductive Content : Type :=
  | Bytes (b : string)
  | JsonText (images : list (string * Image.t))
  | Torn (c : Content).

Inductive Node : Type :=
  | Dir
  | File (c : Content).

(** The calls made to [fs], in order (a ghost record, for the
    properties that count calls or name the path of a call). *)
Inductive Call : Type :=
  | FsExists (p : list string)
  | FsMkdir (p : list string)
  | FsWrite (p : list string)
  | FsUnlink (p : list string).

Record World : Type := {
  imageData : Js.object;
  fs : gmap (list string) Node;
  calls : list Call
}.

(** Where a write that the disk refuses fails: when the file is opened
    (nothing is written), between the open, which truncates the file,
    and the last byte, or when the file is closed, all bytes written. *)
Inductive Fault : Type :=
  | AtOpen
  | Midway
  | AtClose.

(** What the environment decides for one request. *)
Record Env : Type := {
  dirname : list string;      (* __dirname *)
  date_now : Z;               (* Date.now() of the file name *)
  random : Z;                 (* Math.round(Math.random() * 1e9) *)
  clock : Z;                  (* new Date() of the handler *)
  store_ok : bool;            (* the disk accepts the upload *)
  save_ok : bool;             (* the disk accepts imageData.json *)
  unlink_ok : bool;           (* the disk permits the unlink *)
  store_fault : Fault;        (* where a refused upload fails *)
  save_fault : Fault          (* where a refused save fails *)
}.

Definition with_fs (f : gmap (list string) Node) (w : World) : World :=
  {| imageData := imageData w; fs := f; calls := calls w |}.

Definition with_imageData (o : Js.object) (w : World) : World :=
  {| imageData := o; fs := fs w; calls := calls w |}.

Definition log (c : Call) : M World unit :=
  modify (fun w => {| imageData := imageData w; fs := fs w; calls := calls w ++ [c] |}).

(** Opening a file for writing: the target must not be a directory and
    its parent must be one. *)
Definition open_result (p : list string) (f : gmap (list string) Node) : result unit :=
  match f !! p with
  | Some Dir => Thrown (SystemError "EISDIR" p)
  | _ =>
      match f !! removelast p with
      | Some Dir => Ok tt
      | Some (File _) => Thrown (SystemError "ENOTDIR" p)
      | None => Thrown (SystemError "ENOENT" p)
      end
  end.

(** Whether a write of the whole file succeeds, and the disk when it
    does. *)
Definition write_result (ok : bool) (p : list string) (c : Content)
    (f : gmap (list string) Node) : result (gmap (list string) Node) :=
  match open_result p f with
  | Thrown err => Thrown err
  | Ok _ => if ok then Ok (<[p := File c]> f) else Thrown (SystemError "EIO" p)
  end.

(** The disk after a write that failed: as it was when the file could
    not be opened; otherwise the file was created or truncated by the
    open (the flag [w]) and holds what was written until the failure. *)
Definition failed_write (fault : Fault) (p : list string) (c : Content)
    (f : gmap (list string) Node) : gmap (list string) Node :=
  match open_result p f, fault with
  | Thrown _, _ => f
  | Ok _, AtOpen => f
  | Ok _, Midway => <[p := File (Torn c)]> f
  | Ok _, AtClose => <[p := File c]> f
  end.

(** [unlink(2)]: only a file can be unlinked. *)
Definition unlink_result (ok : bool) (p : list string)
    (f : gmap (list string) Node) : result (gmap (list string) Node) :=
  match f !! p with
  | None => Thrown (SystemError "ENOENT" p)
  | Some Dir => Thrown (SystemError "EISDIR" p)
  | Some (File _) => if ok then Ok (delete p f) else Thrown (SystemError "EACCES" p)
  end.

Definition on_fs (op : gmap (list string) Node -> result (gmap (list string) Node))
    : M World unit :=
  fun w =>
    match op (fs w) with
    | Ok f' => (Ok tt, with_fs f' w)
    | Thrown e => (Thrown e, w)
    end.

(** A write of the whole file, as [fs.writeFileSync] and the write
    stream of the disk storage do it: not atomic. *)
Definition on_write (ok : bool) (fault : Fault) (p : list string) (c : Content)
    : M World unit :=
  fun w =>
    match write_result ok p c (fs w) with
    | Ok f' => (Ok tt, with_fs f' w)
    | Thrown e => (Thrown e, with_fs (failed_write fault p c (fs w)) w)
    end.

Definition existsSync (p : list string) : M World bool :=
  log (FsExists p);;
  gets (fun w => bool_decide (is_Some (fs w !! p))).

Definition mkdirSync (p : list string) : M World unit :=
  log (FsMkdir p);;
  modify (fun w => match fs w !! p with
                   | None => with_fs (<[p := Dir]> (fs w)) w
                   | Some _ => w
                   end).

Definition writeFileSync (e : Env) (p : list string) (c : Content) : M World unit :=
  log (FsWrite p);;
  on_write (save_ok e) (save_fault e) p c.

Definition unlinkSync (e : Env) (p : list string) : M World unit :=
  log (FsUnlink p);;
  on_fs (unlink_result (unlink_ok e) p).

(** The text of an absolute path. *)
Definition render (p : list string) : string :=
  fold_right (fun seg acc => "/" +:+ seg +:+ acc) "" p.

(** [multer.diskStorage({ destination, filename })] *)
Definition destination (e : Env) : M World (list string) :=
  let uploadDir := Path.join (dirname e) ["uploads"] in
  let* present := existsSync uploadDir in
  (if present then ret tt else mkdirSync uploadDir);;
  ret uploadDir.

Definition storage_filename (e : Env) (file : FilePart) : string :=
  let uniqueSuffix := number_string (date_now e) +:+ "-" +:+ number_string (random e) in
  let ext := Path.extname (originalname file) in
  "image" +:+ "-" +:+ uniqueSuffix +:+ ext.

(** [limits: { fileSize: 5 * 1024 * 1024 }] *)
Definition fileSize : Z := 5 * 1024 * 1024.

(** The storage engine on one file.  A file that reaches the limit is
    removed again by multer before the error is raised; only that net
    effect is kept. *)
Definition handleFile (e : Env) (file : FilePart) : M World StoredFile :=
  let* dir := destination e in
  let name := storage_filename e file in
  let finalPath := Path.join dir [name] in
  if (fileSize <=? byte_length (content file))%Z then throw (MulterError "LIMIT_FILE_SIZE")
  else
    log (FsWrite finalPath);;
    on_write (store_ok e) (store_fault e) finalPath (Bytes (content file));;
    ret {| filename := name;
           path := render finalPath;
           file_originalname := originalname file;
           file_mimetype := mimetype file;
           file_size := byte_length (content file) |}.

(** [upload.single("image")]: the filter runs before the storage
    engine; a request without a file passes through. *)
Definition multer (e : Env) (req : UploadRequest) : M World (option StoredFile) :=
  match req_file req with
  | None => ret None
  | Some file =>
      match fileFilter file with
      | Thrown err => throw err
      | Ok _ => let* f := handleFile e file in ret (Some f)
      end
  end.

(** [saveImageData] *)
Definition saveImageData (e : Env) : M World unit :=
  let* o := gets imageData in
  writeFileSync e (Path.join (dirname e) ["imageData.json"]) (JsonText (Js.entries o)).

(** The object the process starts with: [JSON.parse] of the file when
    it is there, [{}] otherwise. *)
Definition loaded (e : Env) (f : gmap (list string) Node) : Js.object :=
  match f !! Path.join (dirname e) ["imageData.json"] with
  | Some (File (JsonText images)) => {| Js.own_props := images; Js.proto := None |}
  | _ => Js.empty
  end.

(** The record written by an upload. *)
Definition record_of (e : Env) (f : StoredFile) : Image.t :=
  {| Image.url := "/uploads/" +:+ filename f;
     Image.publicId := None;
     Image.originalName := file_originalname f;
     Image.size := file_size f;
     Image.mimetype := file_mimetype f;
     Image.uploadedAt := clock e |}.

(** The handler of [POST /api/upload]. *)
Definition upload_handler (e : Env) (file : option StoredFile) (imageKey : option string)
    : M World Response :=
  try_catch
    (match file with
     | None => ret (json 400 (BError "No file uploaded"))
     | Some f =>
         match imageKey with
         | None => ret (json 400 (BError "Image key is required"))
         | Some key =>
             if String.eqb key "" then ret (json 400 (BError "Image key is required"))
             else
               modify (fun w => with_imageData (Js.assign key (record_of e f) (imageData w)) w);;
               saveImageData e;;
               ret (json 200 (BUploaded ("/uploads/" +:+ filename f) key None None))
         end
     end)
    (fun _ => ret (json 500 (BError "File upload failed"))).

(** The handler of [GET /api/images/:key]. *)
Definition get_handler (key : string) : M World Response :=
  let* o := gets imageData in
  if Js.truthy (Js.get key o) then ret (json 200 (BJson (Js.get key o)))
  else ret (json 404 (BError "Image not found")).

(** The message of the [TypeError] of [path.basename(undefined)]; the
    name of the argument is between double quotes. *)
Definition path_argument_error : string :=
  "The " +:+ String "034"%char "path" +:+ String "034"%char " argument must be of type string."
  +:+ " Received undefined".

(** [path.basename] refuses an argument that is not a string. *)
Definition basename_arg (v : option string) : M World string :=
  match v with
  | Some s => ret (Path.basename s)
  | None => throw (TypeError path_argument_error)
  end.

(** The handler of [DELETE /api/images/:key]. *)
Definition delete_handler (e : Env) (key : string) : M World Response :=
  let* o := gets imageData in
  if Js.truthy (Js.get key o) then
    let* name := basename_arg (Js.member_url (Js.get key o)) in
    let filePath := Path.join (dirname e) ["uploads"; name] in
    let* present := existsSync filePath in
    (if present then unlinkSync e filePath else ret tt);;
    modify (fun w => with_imageData (Js.delete key (imageData w)) w);;
    saveImageData e;;
    ret (json 200 (BSuccess "Image deleted successfully"))
  else ret (json 404 (BError "Image not found")).

(** A route: what its chain of middleware and handler ends in. *)
Definition route (m : M World Response) (w : World) : Outcome * World :=
  match m w with
  | (Ok r, w') => (Responded r, w')
  | (Thrown err, w') => (Failed err, w')
  end.

(** [app.post("/api/upload", upload.single("image"), handler)] *)
Definition post_upload (e : Env) (req : UploadRequest) : World -> Outcome * World :=
  route (let* file := multer e req in upload_handler e file (req_imageKey req)).

(** [app.get("/api/images", ...)]: [res.json(imageData)] *)
Definition get_images : World -> Outcome * World :=
  route (let* o := gets imageData in ret (json 200 (BImages (Js.entries o)))).

(** [app.get("/api/images/:key", ...)] *)
Definition get_image (key : string) : World -> Outcome * World :=
  route (get_handler key).

(** [app.delete("/api/images/:key", ...)] *)
Definition delete_image (e : Env) (key : string) : World -> Outcome * World :=
  route (delete_handler e key).

(** A sequence of upload requests, each with what the environment
    decides for it; the outcomes in order and the final world. *)
Fixpoint uploads (rs : list (Env * UploadRequest)) (w : World) : list Outcome * World :=
  match rs with
  | [] => ([], w)
  | (e, req) :: rs' =>
      let (o, w1) := post_upload e req w in
      let (os, w2) := uploads rs' w1 in
      (o :: os, w2)
  end.

(** The key and URL that a listed record shows to the caller of an
    upload. *)
Definition shown (doc : string * Image.t) : string * string :=
  (fst doc, Image.url (snd doc)).

(** What a successful upload returns: [imageKey] and [imageUrl]. *)
Definition returned (o : Outcome) : option (string * string) :=
  match o with
  | Responded {| status := _; body := BUploaded imageUrl imageKey _ _ |} =>
      Some (imageKey, imageUrl)
  | _ => None
  end.

(** A restart of the process: the object in memory is replaced by what
    the start-up code reads from the disk. *)
Definition restart (e : Env) (w : World) : World :=
  with_imageData (loaded e (fs w)) w.

End Flat.

(** ** The durable-database variant *)

Module Durable.

(** The calls made to Cloudinary and to the collection, in order (a
    ghost record, as in [Flat]). *)
Inductive Call : Type :=
  | CloudUpload
  | CloudDestroy (publicId : string)
  | DbFindOneAndUpdate (imageKey : string)
  | DbFind
  | DbFindOne (imageKey : string)
  | DbDeleteOne (imageKey : string).

(** [db]: the documents of the collection, in order of insertion, each
    as its [imageKey] and the six fields the routes read.  [cloud]: the
    assets held by Cloudinary, by public id. *)
Record World : Type := {
  db : list (string * Image.t);
  cloud : gmap string string;
  calls : list Call
}.

(** What the environment decides for one request: the clock, how
    Cloudinary answers an upload ([secure_url] and [public_id], or a
    rejection), and whether the other remote calls succeed. *)
Record Env : Type := {
  clock : Z;
  uploaded : option (string * string);
  destroy_ok : bool;
  db_read_ok : bool;
  db_write_ok : bool
}.

Definition with_db (d : list (string * Image.t)) (w : World) : World :=
  {| db := d; cloud := cloud w; calls := calls w |}.

Definition with_cloud (c : gmap string string) (w : World) : World :=
  {| db := db w; cloud := c; calls := calls w |}.

Definition log (c : Call) : M World unit :=
  modify (fun w => {| db := db w; cloud := cloud w; calls := calls w ++ [c] |}).

(** [limits: { fileSize: 10 * 1024 * 1024 }] *)
Definition fileSize : Z := 10 * 1024 * 1024.

(** [CloudinaryStorage]: the bytes go to Cloudinary, whose answer gives
    the file its [path] (the URL) and [filename] (the public id).  A
    file that reaches the limit is destroyed again by the storage
    engine before the error is raised; only that net effect is kept. *)
Definition handleFile (e : Env) (file : FilePart) : M World StoredFile :=
  if (fileSize <=? byte_length (content file))%Z then throw (MulterError "LIMIT_FILE_SIZE")
  else
    log CloudUpload;;
    match uploaded e with
    | None => throw (ServiceError "cloudinary")
    | Some (secure_url, public_id) =>
        modify (fun w => with_cloud (<[public_id := content file]> (cloud w)) w);;
        ret {| filename := public_id;
               path := secure_url;
               file_originalname := originalname file;
               file_mimetype := mimetype file;
               file_size := byte_length (content file) |}
    end.

(** [upload.fields([{ name: "image", maxCount: 1 }])] *)
Definition multer (e : Env) (req : UploadRequest) : M World (option StoredFile) :=
  match req_file req with
  | None => ret None
  | Some file =>
      match fileFilter file with
      | Thrown err => throw err
      | Ok _ => let* f := handleFile e file in ret (Some f)
      end
  end.

(** The update of an upload: every field of the document is set. *)
Definition record_of (e : Env) (f : StoredFile) : Image.t :=
  {| Image.url := path f;
     Image.publicId := Some (filename f);
     Image.originalName := file_originalname f;
     Image.size := file_size f;
     Image.mimetype := file_mimetype f;
     Image.uploadedAt := clock e |}.

Definition key_is (k : string) (d : string * Image.t) : bool := String.eqb k (fst d).

(** The first document with the key. *)
Definition find_key (k : string) (d : list (string * Image.t)) : option Image.t :=
  snd <$> List.find (key_is k) d.

(** Update the first document with the key, insert one if there is none. *)
Fixpoint upsert (k : string) (r : Image.t) (d : list (string * Image.t))
    : list (string * Image.t) :=
  match d with
  | [] => [(k, r)]
  | x :: d' => if key_is k x then (k, r) :: d' else x :: upsert k r d'
  end.

(** Remove the first document with the key. *)
Fixpoint remove_first (k : string) (d : list (string * Image.t)) : list (string * Image.t) :=
  match d with
  | [] => []
  | x :: d' => if key_is k x then d' else x :: remove_first k d'
  end.

(** [Image.findOneAndUpdate({ imageKey }, {...}, { upsert: true, new: true })] *)
Definition findOneAndUpdate (e : Env) (k : string) (r : Image.t) : M World (string * Image.t) :=
  log (DbFindOneAndUpdate k);;
  if db_write_ok e then
    modify (fun w => with_db (upsert k r (db w)) w);;
    ret (k, r)
  else throw (ServiceError "mongodb").

(** [Image.findOne({ imageKey: key })] *)
Definition findOne (e : Env) (k : string) : M World (option Image.t) :=
  log (DbFindOne k);;
  if db_read_ok e then gets (fun w => find_key k (db w))
  else throw (ServiceError "mongodb").

(** [Image.deleteOne({ imageKey: key })] *)
Definition deleteOne (e : Env) (k : string) : M World unit :=
  log (DbDeleteOne k);;
  if db_write_ok e then modify (fun w => with_db (remove_first k (db w)) w)
  else throw (ServiceError "mongodb").

Definition newer_first (a b : string * Image.t) : bool :=
  (Image.uploadedAt (snd b) <=? Image.uploadedAt (snd a))%Z.

(** [Image.find({}).sort({ uploadedAt: -1 })] *)
Definition find_sorted (e : Env) : M World (list (string * Image.t)) :=
  log DbFind;;
  if db_read_ok e then gets (fun w => sort_by newer_first (db w))
  else throw (ServiceError "mongodb").

(** [cloudinary.uploader.destroy(publicId)]: an asset that is not there
    is not an error. *)
Definition destroy (e : Env) (publicId : string) : M World unit :=
  log (CloudDestroy publicId);;
  if destroy_ok e then modify (fun w => with_cloud (delete publicId (cloud w)) w)
  else throw (ServiceError "cloudinary").

(** The handler of [POST /api/upload]. *)
Definition upload_handler (e : Env) (file : option StoredFile) (imageKey : option string)
    : M World Response :=
  try_catch
    (match file with
     | None => ret (json 400 (BError "No file uploaded"))
     | Some uploadedFile =>
         match imageKey with
         | None => ret (json 400 (BError "Image key is required"))
         | Some key =>
             if String.eqb key "" then ret (json 400 (BError "Image key is required"))
             else
               let* imageDoc := findOneAndUpdate e key (record_of e uploadedFile) in
               ret (json 200 (BUploaded (path uploadedFile) key
                                (Some (filename uploadedFile)) (Some imageDoc)))
         end
     end)
    (fun _ => ret (json 500 (BError "File upload failed"))).

(** The object rebuilt by [GET /api/images]:
    [images.forEach((img) => { imageData[img.imageKey] = {...} })]. *)
Definition rebuild (images : list (string * Image.t)) : Js.object :=
  fold_left (fun o img => Js.assign (fst img) (snd img) o) images Js.empty.

(** The handler of [GET /api/images]. *)
Definition list_handler (e : Env) : M World Response :=
  try_catch
    (let* images := find_sorted e in
     ret (json 200 (BImages (Js.entries (rebuild images)))))
    (fun _ => ret (json 500 (BError "Failed to fetch images"))).

(** The handler of [GET /api/images/:key]. *)
Definition get_handler (e : Env) (key : string) : M World Response :=
  try_catch
    (let* image := findOne e key in
     match image with
     | Some r => ret (json 200 (BJson (Js.VRecord r)))
     | None => ret (json 404 (BError "Image not found"))
     end)
    (fun _ => ret (json 500 (BError "Failed to fetch image"))).

Definition has_publicId (r : Image.t) : option string :=
  match Image.publicId r with
  | Some p => if String.eqb p "" then None else Some p
  | None => None
  end.

(** The handler of [DELETE /api/images/:key]. *)
Definition delete_handler (e : Env) (key : string) : M World Response :=
  try_catch
    (let* image := findOne e key in
     match image with
     | Some r =>
         match has_publicId r with
         | Some p => destroy e p
         | None => ret tt
         end;;
         deleteOne e key;;
         ret (json 200 (BSuccess "Image deleted successfully"))
     | None => ret (json 404 (BError "Image not found"))
     end)
    (fun _ => ret (json 500 (BError "Failed to delete image"))).

Definition route (m : M World Response) (w : World) : Outcome * World :=
  match m w with
  | (Ok r, w') => (Responded r, w')
  | (Thrown err, w') => (Failed err, w')
  end.

Definition post_upload (e : Env) (req : UploadRequest) : World -> Outcome * World :=
  route (let* file := multer e req in upload_handler e file (req_imageKey req)).

Definition get_images (e : Env) : World -> Outcome * World := route (list_handler e).

Definition get_image (e : Env) (key : string) : World -> Outcome * World :=
  route (get_handler e key).

Definition delete_image (e : Env) (key : string) : World -> Outcome * World :=
  route (delete_handler e key).

(** A sequence of upload requests, each with what the environment
    decides for it; the outcomes in order and the final world. *)
Fixpoint uploads (rs : list (Env * UploadRequest)) (w : World) : list Outcome * World :=
  match rs with
  | [] => ([], w)
  | (e, req) :: rs' =>
      let (o, w1) := post_upload e req w in
      let (os, w2) := uploads rs' w1 in
      (o :: os, w2)
  end.

End Durable.

(** ** The login endpoint of the durable variant *)

Module Auth.

(** A member of the parsed JSON body.  [JCompound] stands for an array
    or an object, which is strictly equal to no string. *)
Inductive Json : Type :=
  | JNull
  | JBool (b : bool)
  | JNumber (n : Z)
  | JString (s : string)
  | JCompound.

(** [const { username, password } = req.body]: a member that is absent
    reads as [undefined], here [None]. *)
Record LoginBody : Type := {
  username : option Json;
  password : option Json
}.

(** [process.env]: a variable is a string or is not set. *)
Record ProcessEnv : Type := {
  ADMIN_USERNAME : option string;
  ADMIN_PASSWORD : option string
}.

(** [v === c] for a body member [v] and an environment variable [c]. *)
Definition strict_equal (v : option Json) (c : option string) : bool :=
  match v, c with
  | None, None => true
  | Some (JString s), Some t => String.eqb s t
  | _, _ => false
  end.

(** The handler of [POST /api/auth/login]. *)
Definition login_handler (env : ProcessEnv) (b : LoginBody) : M Durable.World Response :=
  try_catch
    (if strict_equal (username b) (ADMIN_USERNAME env)
        && strict_equal (password b) (ADMIN_PASSWORD env)
     then ret (json 200 (BSuccess "Authentication successful"))
     else ret (json 401 (BDenied "Invalid credentials")))
    (fun _ => ret (json 500 (BDenied "Authentication failed"))).

Definition post_login (env : ProcessEnv) (b : LoginBody) : Durable.World -> Outcome * Durable.World :=
  Durable.route (login_handler env b).

(** The JavaScript value of an environment variable, among the values a
    body member can take. *)
Definition env_value (c : option string) : option Json := JString <$> c.

End Auth.

(** ** The contact endpoint, the same in the two server files that
    have it *)

Module Contact.

(** A member of the parsed JSON body.  An array or an object is kept
    by what its conversion to a string gives: the text, or [None] when
    the conversion throws (an object whose [toString] and [valueOf] are
    not functions, an array that holds one). *)
Inductive Json : Type :=
  | JNull
  | JBool (b : bool)
  | JNumber (n : Z)
  | JString (s : string)
  | JCompound (text : option string).

(** [const { name, email, phone, sessionType, message } = req.body]:
    a member that is absent reads as [undefined], here [None]. *)
Record Inquiry : Type := {
  name : option Json;
  email : option Json;
  phone : option Json;
  sessionType : option Json;
  message : option Json
}.

(** [process.env]: a variable is a string or is not set. *)
Record ProcessEnv : Type := {
  FROM_NAME : option string;
  FROM_EMAIL : option string;
  TO_EMAIL : option string
}.

(** The truth value of a body member: [undefined], [null], [false],
    [0] and the empty string are false, every array and object is
    true. *)
Definition truthy (v : option Json) : bool :=
  match v with
  | None => false
  | Some JNull => false
  | Some (JBool b) => b
  | Some (JNumber n) => negb (n =? 0)%Z
  | Some (JString s) => negb (String.eqb s "")
  | Some (JCompound _) => true
  end.

(** Whether the conversion of a body member to a string returns. *)
Definition converts (v : option Json) : bool :=
  match v with
  | Some (JCompound None) => false
  | _ => true
  end.

(** A template literal with body members in it: the text and the
    converted members, in order. *)
Inductive Piece : Type :=
  | Text (s : string)
  | Value (v : option Json).

(** An environment variable inside a template literal. *)
Definition env_text (c : option string) : string :=
  match c with
  | Some s => s
  | None => "undefined"
  end.

(** The JavaScript value of an environment variable. *)
Definition env_value (c : option string) : option Json := JString <$> c.

(** The options given to [sendMail].  [html] keeps the interpolated
    expressions of the markup, in order; the markup between them is
    constant and is left out.  [replyTo] is [None] where the options
    have no such member. *)
Record MailOptions : Type := {
  from : string;
  to : option Json;
  subject : list Piece;
  html : list Piece;
  replyTo : option Json
}.

(** [delivered]: the mails the SMTP server has accepted.  [calls]: the
    options of every call of [sendMail], in order. *)
Record World : Type := {
  delivered : list MailOptions;
  calls : list MailOptions
}.

Definition sender (env : ProcessEnv) : string :=
  env_text (FROM_NAME env) +:+ " <" +:+ env_text (FROM_EMAIL env) +:+ ">".

(** A body member inside a template literal: it is converted to a
    string, which throws for a member that has no conversion. *)
Definition interpolate (v : option Json) : M World Piece :=
  if converts v then ret (Value v)
  else throw (TypeError "Cannot convert object to primitive value").

(** [const adminMailOptions = { from, to, subject, html, replyTo }],
    its members evaluated in this order. *)
Definition adminMailOptions (env : ProcessEnv) (b : Inquiry) : M World MailOptions :=
  let* subject_name := interpolate (name b) in
  let* html_name := interpolate (name b) in
  let* html_email := interpolate (email b) in
  let* html_phone := (if truthy (phone b) then interpolate (phone b) else ret (Text "")) in
  let* html_session :=
    (if truthy (sessionType b) then interpolate (sessionType b) else ret (Text "")) in
  let* html_message := interpolate (message b) in
  let* html_reply := interpolate (name b) in
  ret {| from := sender env;
         to := env_value (TO_EMAIL env);
         subject := [Text "New Photography Session Inquiry from "; subject_name];
         html := [html_name; html_email; html_phone; html_session; html_message; html_reply];
         replyTo := email b |}.

(** [const clientMailOptions = { from, to, subject, html }] *)
Definition clientMailOptions (env : ProcessEnv) (b : Inquiry) : M World MailOptions :=
  let* html_name := interpolate (name b) in
  let* html_session :=
    (if truthy (sessionType b) then interpolate (sessionType b)
     else ret (Text "Not specified")) in
  let* html_email := interpolate (email b) in
  let* html_phone := (if truthy (phone b) then interpolate (phone b) else ret (Text "")) in
  ret {| from := sender env;
         to := email b;
         subject := [Text "Thank you for your photography inquiry!"];
         html := [html_name; html_session; html_email; html_phone];
         replyTo := None |}.

(** Every member that the two templates interpolate has a conversion
    to a string. *)
Definition renders (b : Inquiry) : bool :=
  converts (name b) && converts (email b) && converts (message b)
  && (negb (truthy (phone b)) || converts (phone b))
  && (negb (truthy (sessionType b)) || converts (sessionType b)).

(** What the environment decides for one request: the message of the
    error with which the SMTP server rejects each mail, if it does,
    and which of the two sends settles first. *)
Record Env : Type := {
  admin_rejection : option string;
  client_rejection : option string;
  client_settles_first : bool
}.

(** [transporter.sendMail(options)] *)
Definition sendMail (rejection : option string) (m : MailOptions) : M World unit :=
  modify (fun w => {| delivered := delivered w; calls := calls w ++ [m] |});;
  match rejection with
  | None => modify (fun w => {| delivered := delivered w ++ [m]; calls := calls w |})
  | Some msg => throw (Error msg)
  end.

(** [await Promise.all([a, b])]: both are started; the result is
    rejected with the reason of the first one that rejects. *)
Definition promise_all (b_settles_first : bool) (a b : M World unit) : M World unit :=
  fun w =>
    match a w with
    | (ra, w1) =>
        match b w1 with
        | (rb, w2) =>
            (match ra, rb with
             | Ok _, Ok _ => Ok tt
             | Thrown ea, Ok _ => Thrown ea
             | Ok _, Thrown eb => Thrown eb
             | Thrown ea, Thrown eb => Thrown (if b_settles_first then eb else ea)
             end, w2)
        end
    end.

(** [error.message] *)
Definition error_message (e : JsError) : string :=
  match e with
  | Error m => m
  | TypeError m => m
  | MulterError c => c
  | SystemError c _ => c
  | ServiceError s => s
  end.

Inductive ReplyBody : Type :=
  | RError (error : string) (details : option string)
  | RSuccess (message : string).

Record Reply : Type := { reply_status : Z; reply_body : ReplyBody }.

(** [res.status(code).json(b)] *)
Definition reply (code : Z) (b : ReplyBody) : Reply :=
  {| reply_status := code; reply_body := b |}.

(** The handler of [POST /api/send-email]. *)
Definition send_email_handler (env : ProcessEnv) (e : Env) (b : Inquiry) : M World Reply :=
  try_catch
    (if negb (truthy (name b)) || negb (truthy (email b)) || negb (truthy (message b))
     then ret (reply 400 (RError "Name, email, and message are required fields" None))
     else
       let* admin := adminMailOptions env b in
       let* client := clientMailOptions env b in
       promise_all (client_settles_first e)
         (sendMail (admin_rejection e) admin)
         (sendMail (client_rejection e) client);;
       ret (reply 200 (RSuccess "Emails sent successfully!")))
    (fun error =>
       ret (reply 500 (RError "Failed to send email" (Some (error_message error))))).

(** [app.post("/api/send-email", ...)] *)
Definition post_send_email (env : ProcessEnv) (e : Env) (b : Inquiry)
    : World -> result Reply * World :=
  send_email_handler env e b.

End Contact.

(** ** The configuration of Cloudinary and its debug log *)

Module CloudinaryConfig.

Record ProcessEnv : Type := {
  CLOUDINARY_CLOUD_NAME : option string;
  CLOUDINARY_API_KEY : option string;
  CLOUDINARY_API_SECRET : option string
}.

(** [cloudinary.config({...})] *)
Record Config : Type := {
  cloud_name : option string;
  api_key : option string;
  api_secret : option string
}.

Definition config (env : ProcessEnv) : Config :=
  {| cloud_name := CLOUDINARY_CLOUD_NAME env;
     api_key := CLOUDINARY_API_KEY env;
     api_secret := CLOUDINARY_API_SECRET env |}.

(** The truth value of an environment variable: false when it is not
    set or empty. *)
Definition is_set (c : option string) : bool :=
  match c with
  | Some s => negb (String.eqb s "")
  | None => false
  end.

(** [c ? "Set" : "Not Set"] *)
Definition set_or_not (c : option string) : string :=
  if is_set c then "Set" else "Not Set".

(** The object printed by [console.log("Cloudinary Config Debug:", ...)]. *)
Record DebugLog : Type := {
  log_cloud_name : option string;
  log_api_key : string;
  log_api_secret : string
}.

Definition debug_log (env : ProcessEnv) : DebugLog :=
  {| log_cloud_name := CLOUDINARY_CLOUD_NAME env;
     log_api_key := set_or_not (CLOUDINARY_API_KEY env);
     log_api_secret := set_or_not (CLOUDINARY_API_SECRET env) |}.

End CloudinaryConfig.

(** ** Sample requests and worlds, for the concrete instances below *)

Module Sample.

Definition app_dir : list string := ["srv"; "app"].

Definition flat_env : Flat.Env :=
  {| Flat.dirname := app_dir;
     Flat.date_now := 1700000000000;
     Flat.random := 42;
     Flat.clock := 1700000000005;
     Flat.store_ok := true;
     Flat.save_ok := true;
     Flat.unlink_ok := true;
     Flat.store_fault := Flat.Midway;
     Flat.save_fault := Flat.Midway |}.

Definition flat_env_later : Flat.Env :=
  {| Flat.dirname := app_dir;
     Flat.date_now := 1700000060000;
     Flat.random := 7;
     Flat.clock := 1700000060009;
     Flat.store_ok := true;
     Flat.save_ok := true;
     Flat.unlink_ok := true;
     Flat.store_fault := Flat.Midway;
     Flat.save_fault := Flat.Midway |}.

Definition flat_env_locked : Flat.Env :=
  {| Flat.dirname := app_dir;
     Flat.date_now := 1700000000000;
     Flat.random := 42;
     Flat.clock := 1700000000005;
     Flat.store_ok := true;
     Flat.save_ok := true;
     Flat.unlink_ok := false;
     Flat.store_fault := Flat.Midway;
     Flat.save_fault := Flat.Midway |}.

(** A disk that holds the application directory and nothing else. *)
Definition disk : gmap (list string) Flat.Node := <[app_dir := Flat.Dir]> ∅.

(** The flat-file server right after its first start. *)
Definition flat_empty : Flat.World :=
  {| Flat.imageData := Js.empty; Flat.fs := disk; Flat.calls := [] |}.

Definition png : FilePart :=
  {| originalname := "hero.png"; mimetype := "image/png"; content := "PNG-BYTES" |}.

Definition jpeg : FilePart :=
  {| originalname := "hero.jpg"; mimetype := "image/jpeg"; content := "JPEG-BYTES" |}.

Definition pdf : FilePart :=
  {| originalname := "cv.pdf"; mimetype := "application/pdf"; content := "%PDF" |}.

Definition upload (file : FilePart) (key : option string) : UploadRequest :=
  {| req_file := Some file; req_imageKey := key |}.

(** The flat-file server after one upload of [png] under [hero-1]. *)
Definition flat_hero : Flat.World :=
  snd (Flat.post_upload flat_env (upload png (Some "hero-1")) flat_empty).

Definition hero_record : Image.t :=
  {| Image.url := "/uploads/image-1700000000000-42.png";
     Image.publicId := None;
     Image.originalName := "hero.png";
     Image.size := 9;
     Image.mimetype := "image/png";
     Image.uploadedAt := 1700000000005 |}.

Definition hero_path : list string :=
  ["srv"; "app"; "uploads"; "image-1700000000000-42.png"].

(** What the disk storage hands to the handler for [png]. *)
Definition stored_png : StoredFile :=
  {| filename := "image-1700000000000-42.png";
     path := "/srv/app/uploads/image-1700000000000-42.png";
     file_originalname := "hero.png";
     file_mimetype := "image/png";
     file_size := 9 |}.

(** What the Cloudinary storage hands to the handler for [png]. *)
Definition stored_png_cloud : StoredFile :=
  {| filename := "adriana-photography/abc123";
     path := "https://res.cloudinary.com/demo/image/upload/adriana-photography/abc123.png";
     file_originalname := "hero.png";
     file_mimetype := "image/png";
     file_size := 9 |}.

(** A flat-file server whose [imageData.json] was edited by hand: the
    record of [evil] points outside the upload directory. *)
Definition traversal_record : Image.t :=
  {| Image.url := "/uploads/../../etc/passwd";
     Image.publicId := None;
     Image.originalName := "passwd";
     Image.size := 4;
     Image.mimetype := "image/png";
     Image.uploadedAt := 1700000000005 |}.

Definition flat_tampered : Flat.World :=
  {| Flat.imageData := {| Js.own_props := [("evil", traversal_record)]; Js.proto := None |};
     Flat.fs := <[["etc"; "passwd"] := Flat.File (Flat.Bytes "root")]>
                  (<[["srv"; "app"; "uploads"] := Flat.Dir]> disk);
     Flat.calls := [] |}.






Definition durable_env : Durable.Env :=
  {| Durable.clock := 1700000000005;
     Durable.uploaded :=
       Some ("https://res.cloudinary.com/demo/image/upload/adriana-photography/abc123.png",
             "adriana-photography/abc123");
     Durable.destroy_ok := true;
     Durable.db_read_ok := true;
     Durable.db_write_ok := true |}.

Definition durable_env_later : Durable.Env :=
  {| Durable.clock := 1700000060009;
     Durable.uploaded :=
       Some ("https://res.cloudinary.com/demo/image/upload/adriana-photography/def456.jpg",
             "adriana-photography/def456");
     Durable.destroy_ok := true;
     Durable.db_read_ok := true;
     Durable.db_write_ok := true |}.

Definition durable_env_refusing : Durable.Env :=
  {| Durable.clock := 1700000000005;
     Durable.uploaded := None;
     Durable.destroy_ok := false;
     Durable.db_read_ok := true;
     Durable.db_write_ok := true |}.

(** Two uploads under distinct keys. *)
Definition flat_requests : list (Flat.Env * UploadRequest) :=
  [(flat_env, upload png (Some "hero-1")); (flat_env_later, upload jpeg (Some "about-2"))].

Definition durable_requests : list (Durable.Env * UploadRequest) :=
  [(durable_env, upload png (Some "hero-1")); (durable_env_later, upload jpeg (Some "about-2"))].

Definition about_record_cloud : Image.t :=
  {| Image.url := "https://res.cloudinary.com/demo/image/upload/adriana-photography/def456.jpg";
     Image.publicId := Some "adriana-photography/def456";
     Image.originalName := "hero.jpg";
     Image.size := 10;
     Image.mimetype := "image/jpeg";
     Image.uploadedAt := 1700000060009 |}.

(** The database server with an empty collection and no asset. *)
Definition durable_empty : Durable.World :=
  {| Durable.db := []; Durable.cloud := ∅; Durable.calls := [] |}.

(** The database server after one upload of [png] under [hero-1]. *)
Definition durable_hero : Durable.World :=
  snd (Durable.post_upload durable_env (upload png (Some "hero-1")) durable_empty).

Definition cloud_record : Image.t :=
  {| Image.url := "https://res.cloudinary.com/demo/image/upload/adriana-photography/abc123.png";
     Image.publicId := Some "adriana-photography/abc123";
     Image.originalName := "hero.png";
     Image.size := 9;
     Image.mimetype := "image/png";
     Image.uploadedAt := 1700000000005 |}.

(** A file of 10 MiB and one byte, over the limit of both variants. *)
Definition padding (n : N) : string := N.iter n (String "x"%char) "".

Definition oversized : FilePart :=
  {| originalname := "huge.png"; mimetype := "image/png"; content := padding 10485761 |}.

(** A database that refuses writes, while Cloudinary accepts. *)
Definition durable_env_readonly : Durable.Env :=
  {| Durable.clock := 1700000060009;
     Durable.uploaded :=
       Some ("https://res.cloudinary.com/demo/image/upload/adriana-photography/def456.jpg",
             "adriana-photography/def456");
     Durable.destroy_ok := true;
     Durable.db_read_ok := true;
     Durable.db_write_ok := false |}.

(** A database that answers no query. *)
Definition durable_env_down : Durable.Env :=
  {| Durable.clock := 1700000060009;
     Durable.uploaded := None;
     Durable.destroy_ok := true;
     Durable.db_read_ok := false;
     Durable.db_write_ok := false |}.

(** A disk that refuses to write [imageData.json]. *)
Definition flat_env_unsaved : Flat.Env :=
  {| Flat.dirname := app_dir;
     Flat.date_now := 1700000060000;
     Flat.random := 7;
     Flat.clock := 1700000060009;
     Flat.store_ok := true;
     Flat.save_ok := false;
     Flat.unlink_ok := true;
     Flat.store_fault := Flat.Midway;
     Flat.save_fault := Flat.Midway |}.

(** What the storage engines hand to the handler for [jpeg] at the
    later instant. *)
Definition stored_jpeg : StoredFile :=
  {| filename := "image-1700000060000-7.jpg";
     path := "/srv/app/uploads/image-1700000060000-7.jpg";
     file_originalname := "hero.jpg";
     file_mimetype := "image/jpeg";
     file_size := 10 |}.

Definition stored_jpeg_cloud : StoredFile :=
  {| filename := "adriana-photography/def456";
     path := "https://res.cloudinary.com/demo/image/upload/adriana-photography/def456.jpg";
     file_originalname := "hero.jpg";
     file_mimetype := "image/jpeg";
     file_size := 10 |}.

(** An inquiry through the contact form, and the mail settings. *)
Definition inquiry : Contact.Inquiry :=
  {| Contact.name := Some (Contact.JString "Ana");
     Contact.email := Some (Contact.JString "ana@example.com");
     Contact.phone := None;
     Contact.sessionType := Some (Contact.JString "Wedding");
     Contact.message := Some (Contact.JString "Is June free?") |}.

Definition inquiry_without_message : Contact.Inquiry :=
  {| Contact.name := Some (Contact.JString "Ana");
     Contact.email := Some (Contact.JString "ana@example.com");
     Contact.phone := None;
     Contact.sessionType := None;
     Contact.message := Some (Contact.JString "") |}.

(** The same inquiry with the object [{ toString: 1 }] as name. *)
Definition inquiry_unprintable : Contact.Inquiry :=
  {| Contact.name := Some (Contact.JCompound None);
     Contact.email := Some (Contact.JString "ana@example.com");
     Contact.phone := None;
     Contact.sessionType := Some (Contact.JString "Wedding");
     Contact.message := Some (Contact.JString "Is June free?") |}.

(** The two mails of [inquiry]. *)
Definition inquiry_mail : Contact.MailOptions :=
  {| Contact.from := "Adriana Loredo Photography <noreply@example.com>";
     Contact.to := Some (Contact.JString "adriana@example.com");
     Contact.subject := [Contact.Text "New Photography Session Inquiry from ";
                         Contact.Value (Some (Contact.JString "Ana"))];
     Contact.html := [Contact.Value (Some (Contact.JString "Ana"));
                      Contact.Value (Some (Contact.JString "ana@example.com"));
                      Contact.Text "";
                      Contact.Value (Some (Contact.JString "Wedding"));
                      Contact.Value (Some (Contact.JString "Is June free?"));
                      Contact.Value (Some (Contact.JString "Ana"))];
     Contact.replyTo := Some (Contact.JString "ana@example.com") |}.

Definition confirmation_mail : Contact.MailOptions :=
  {| Contact.from := "Adriana Loredo Photography <noreply@example.com>";
     Contact.to := Some (Contact.JString "ana@example.com");
     Contact.subject := [Contact.Text "Thank you for your photography inquiry!"];
     Contact.html := [Contact.Value (Some (Contact.JString "Ana"));
                      Contact.Value (Some (Contact.JString "Wedding"));
                      Contact.Value (Some (Contact.JString "ana@example.com"));
                      Contact.Text ""];
     Contact.replyTo := None |}.

Definition mail_env : Contact.ProcessEnv :=
  {| Contact.FROM_NAME := Some "Adriana Loredo Photography";
     Contact.FROM_EMAIL := Some "noreply@example.com";
     Contact.TO_EMAIL := Some "adriana@example.com" |}.

Definition smtp_ok : Contact.Env :=
  {| Contact.admin_rejection := None;
     Contact.client_rejection := None;
     Contact.client_settles_first := false |}.

(** The SMTP server rejects the mail to the photographer only. *)
Definition smtp_rejects_admin : Contact.Env :=
  {| Contact.admin_rejection := Some "550 mailbox unavailable";
     Contact.client_rejection := None;
     Contact.client_settles_first := true |}.

Definition outbox_empty : Contact.World := {| Contact.delivered := []; Contact.calls := [] |}.

Definition cloudinary_env : CloudinaryConfig.ProcessEnv :=
  {| CloudinaryConfig.CLOUDINARY_CLOUD_NAME := Some "demo";
     CloudinaryConfig.CLOUDINARY_API_KEY := Some "1234567890";
     CloudinaryConfig.CLOUDINARY_API_SECRET := Some "s3cr3t" |}.

Definition cloudinary_env_rotated : CloudinaryConfig.ProcessEnv :=
  {| CloudinaryConfig.CLOUDINARY_CLOUD_NAME := Some "demo";
     CloudinaryConfig.CLOUDINARY_API_KEY := Some "0987654321";
     CloudinaryConfig.CLOUDINARY_API_SECRET := Some "an0ther" |}.

(** The flat-file server of [flat_hero] after the uploaded file was
    removed from the disk by hand. *)
Definition flat_hero_unlinked : Flat.World :=
  Flat.with_fs (delete hero_path (Flat.fs flat_hero)) flat_hero.

End Sample.

(** * Properties *)

Open Scope list_scope.

(** ** Tactics *)

(** Paths and generated names stay folded under [simpl]. *)
Arguments Path.join : simpl never.
Arguments Path.step : simpl never.
Arguments Path.basename : simpl never.
Arguments Flat.storage_filename : simpl never.

(** Unfold the monad of the handlers down to a case analysis. *)
Ltac run :=
  unfold bind, try_catch, ret, throw, gets, modify in *; simpl in *.

(** The same through the handlers and primitives of each variant. *)
Ltac run_flat :=
  unfold Flat.post_upload, Flat.get_images, Flat.get_image, Flat.delete_image,
    Flat.route, Flat.upload_handler, Flat.get_handler, Flat.delete_handler,
    Flat.multer, Flat.handleFile, Flat.destination, Flat.saveImageData,
    Flat.basename_arg, Flat.existsSync, Flat.mkdirSync, Flat.writeFileSync,
    Flat.unlinkSync, Flat.on_fs, Flat.on_write, Flat.log in *;
  run.

Ltac run_durable :=
  unfold Durable.post_upload, Durable.get_images, Durable.get_image,
    Durable.delete_image, Durable.route, Durable.upload_handler,
    Durable.list_handler, Durable.get_handler, Durable.delete_handler,
    Durable.multer, Durable.handleFile, Durable.findOneAndUpdate,
    Durable.findOne, Durable.deleteOne, Durable.find_sorted, Durable.destroy,
    Durable.log in *;
  run.

(** ** Sorting *)

Section sorting.

Context {A : Type} (le : A -> A -> bool).

Lemma insert_by_perm (x : A) (l : list A) : Permutation (insert_by le x l) (x :: l).
Proof.
  induction l as [|y l IH]; simpl; [reflexivity|].
  destruct (le x y); [reflexivity|].
  rewrite IH. apply perm_swap.
Qed.

Lemma sort_by_perm (l : list A) : Permutation (sort_by le l) l.
Proof.
  induction l as [|x l IH]; simpl; [reflexivity|].
  rewrite insert_by_perm. now constructor.
Qed.

Hypothesis le_total : forall a b, le a b = true \/ le b a = true.

Lemma insert_by_hd (x a : A) (l : list A) :
  le a x = true -> HdRel (fun u v => le u v = true) a l ->
  HdRel (fun u v => le u v = true) a (insert_by le x l).
Proof.
  intros Hax Hhd. destruct l as [|y l]; simpl; [now constructor|].
  destruct (le x y); constructor; [assumption|].
  now inversion Hhd.
Qed.

Lemma insert_by_sorted (x : A) (l : list A) :
  Sorted (fun u v => le u v = true) l ->
  Sorted (fun u v => le u v = true) (insert_by le x l).
Proof.
  induction 1 as [|y l Hsorted IH Hhd]; simpl.
  - repeat constructor.
  - destruct (le x y) eqn:Hxy.
    + constructor; [now constructor | now constructor].
    + constructor; [exact IH|].
      apply insert_by_hd; [|exact Hhd].
      destruct (le_total x y) as [H|H]; [congruence | exact H].
Qed.

(** Each element of the sorted list is [le] its successor. *)
Lemma sort_by_sorted (l : list A) : Sorted (fun u v => le u v = true) (sort_by le l).
Proof.
  induction l as [|x l IH]; simpl; [constructor | now apply insert_by_sorted].
Qed.

End sorting.

Lemma newer_first_total (a b : string * Image.t) :
  Durable.newer_first a b = true \/ Durable.newer_first b a = true.
Proof. unfold Durable.newer_first. rewrite !Z.leb_le. lia. Qed.

(** ** Plain objects as maps *)

Section object_facts.

Implicit Types (k : string) (v r : Image.t) (ps : list (string * Image.t)) (o : Js.object).

(** A stored record is what a read of its key yields. *)
Lemma get_own (key : string) (o : Js.object) (r : Image.t) :
  Js.own key o = Some r -> Js.get key o = Js.VRecord r.
Proof. intros H. unfold Js.get. now rewrite H. Qed.

Lemma lookup_own_put_eq k v ps : Js.lookup_own k (Js.put k v ps) = Some v.
Proof.
  induction ps as [|[k' v'] ps IH]; simpl.
  - now rewrite String.eqb_refl.
  - destruct (String.eqb k k') eqn:Hk; simpl.
    + now rewrite String.eqb_refl.
    + now rewrite Hk.
Qed.

Lemma lookup_own_put_ne k k' v ps :
  k <> k' -> Js.lookup_own k' (Js.put k v ps) = Js.lookup_own k' ps.
Proof.
  intros Hne. induction ps as [|[k0 v0] ps IH]; simpl.
  - destruct (String.eqb_spec k' k); [congruence | reflexivity].
  - destruct (String.eqb_spec k k0) as [->|Hk]; simpl.
    + destruct (String.eqb_spec k' k0); [congruence | reflexivity].
    + now rewrite IH.
Qed.

Lemma lookup_own_remove_eq k ps : Js.lookup_own k (Js.remove k ps) = None.
Proof.
  induction ps as [|[k' v'] ps IH]; simpl; [reflexivity|].
  destruct (String.eqb k k') eqn:Hk; simpl; [exact IH | now rewrite Hk].
Qed.

Lemma lookup_own_remove_ne k k' ps :
  k <> k' -> Js.lookup_own k' (Js.remove k ps) = Js.lookup_own k' ps.
Proof.
  intros Hne. induction ps as [|[k0 v0] ps IH]; simpl; [reflexivity|].
  destruct (String.eqb_spec k k0) as [->|Hk]; simpl.
  - destruct (String.eqb_spec k' k0); [congruence | exact IH].
  - now rewrite IH.
Qed.

Lemma count_key_put_eq k v ps :
  Js.count_key k (Js.put k v ps) = Nat.max 1 (Js.count_key k ps).
Proof.
  unfold Js.count_key. induction ps as [|[k' v'] ps IH]; simpl.
  - now rewrite String.eqb_refl.
  - destruct (String.eqb k k') eqn:Hk; simpl.
    + rewrite String.eqb_refl. simpl. now destruct (length _).
    + rewrite Hk. exact IH.
Qed.

Lemma count_key_put_ne k k' v ps :
  k <> k' -> Js.count_key k' (Js.put k v ps) = Js.count_key k' ps.
Proof.
  intros Hne. unfold Js.count_key. induction ps as [|[k0 v0] ps IH]; simpl.
  - destruct (String.eqb_spec k' k); [congruence | reflexivity].
  - destruct (String.eqb_spec k k0) as [->|Hk]; simpl.
    + destruct (String.eqb_spec k' k0); [congruence | reflexivity].
    + destruct (String.eqb k' k0); simpl; now rewrite IH.
Qed.

Lemma unique_keys_put k v ps : Js.unique_keys ps -> Js.unique_keys (Js.put k v ps).
Proof.
  intros Hu k'. destruct (String.eqb_spec k k') as [<-|Hne].
  - rewrite count_key_put_eq. specialize (Hu k). lia.
  - rewrite count_key_put_ne by assumption. apply Hu.
Qed.

Lemma count_key_perm k ps ps' :
  Permutation ps ps' -> Js.count_key k ps = Js.count_key k ps'.
Proof.
  unfold Js.count_key. induction 1 as [|[k0 v0] l l' _ IH|[k0 v0] [k1 v1] l|l l' l'' _ IH1 _ IH2];
    simpl; try reflexivity.
  - destruct (String.eqb k k0); simpl; now rewrite IH.
  - destruct (String.eqb k k1), (String.eqb k k0); reflexivity.
  - congruence.
Qed.

Lemma filter_partition_perm (f : string * Image.t -> bool) ps :
  Permutation (List.filter f ps ++ List.filter (fun p => negb (f p)) ps) ps.
Proof.
  induction ps as [|p ps IH]; simpl; [reflexivity|].
  destruct (f p); simpl.
  - now constructor.
  - rewrite <- Permutation_middle. now constructor.
Qed.

(** The enumeration reorders the own properties and loses none. *)
Lemma ordered_perm ps : Permutation (Js.ordered ps) ps.
Proof.
  unfold Js.ordered. rewrite sort_by_perm. apply filter_partition_perm.
Qed.

Lemma filter_all (f : string * Image.t -> bool) ps :
  Forall (fun p => f p = true) ps -> List.filter f ps = ps.
Proof. induction 1 as [|p ps Hp _ IH]; simpl; [reflexivity | now rewrite Hp, IH]. Qed.

Lemma filter_none (f : string * Image.t -> bool) ps :
  Forall (fun p => f p = false) ps -> List.filter f ps = [].
Proof. induction 1 as [|p ps Hp _ IH]; simpl; [reflexivity | now rewrite Hp]. Qed.

(** Without array-index keys the enumeration is the order of creation. *)
Lemma ordered_without_index ps :
  Forall (fun p => Js.is_index p = false) ps -> Js.ordered ps = ps.
Proof.
  intros H. unfold Js.ordered. rewrite filter_none by assumption. simpl.
  apply filter_all. eapply Forall_impl; [exact H|]. intros p Hp. simpl in *. now rewrite Hp.
Qed.

Lemma put_fresh k v ps :
  Js.lookup_own k ps = None -> Js.put k v ps = ps ++ [(k, v)].
Proof.
  induction ps as [|[k' v'] ps IH]; simpl; [reflexivity|].
  destruct (String.eqb k k'); [discriminate|]. intros H. now rewrite IH.
Qed.

Lemma lookup_own_app k ps ps' :
  Js.lookup_own k (ps ++ ps')
  = match Js.lookup_own k ps with Some v => Some v | None => Js.lookup_own k ps' end.
Proof.
  induction ps as [|[k' v'] ps IH]; simpl; [reflexivity|].
  destruct (String.eqb k k'); [reflexivity | exact IH].
Qed.

Lemma lookup_own_count k ps :
  Js.lookup_own k ps = None <-> Js.count_key k ps = 0%nat.
Proof.
  unfold Js.count_key. induction ps as [|[k' v'] ps IH]; simpl; [tauto|].
  destruct (String.eqb k k'); simpl; [split; discriminate | exact IH].
Qed.

(** Under unique keys, membership and lookup agree. *)
Lemma lookup_own_in k v ps :
  Js.unique_keys ps -> In (k, v) ps -> Js.lookup_own k ps = Some v.
Proof.
  intros Hu Hin. induction ps as [|[k' v'] ps IH]; simpl; [destruct Hin|].
  destruct (String.eqb_spec k k') as [<-|Hne].
  - destruct Hin as [Heq|Hin]; [congruence|].
    exfalso. specialize (Hu k). unfold Js.count_key in Hu. simpl in Hu.
    rewrite String.eqb_refl in Hu. simpl in Hu.
    assert (Hpos : (0 < length (List.filter (fun p => String.eqb k (fst p)) ps))%nat).
    { clear -Hin. induction ps as [|[k0 v0] ps IH]; simpl; [destruct Hin|].
      destruct Hin as [Heq|Hin].
      - inversion Heq; subst. rewrite String.eqb_refl. simpl. lia.
      - destruct (String.eqb k k0); simpl; [lia | now apply IH]. }
    lia.
  - destruct Hin as [Heq|Hin]; [congruence|].
    apply IH; [|exact Hin].
    intros k0. specialize (Hu k0). unfold Js.count_key in *. simpl in Hu.
    destruct (String.eqb k0 k'); simpl in Hu; lia.
Qed.

Lemma lookup_own_Some_in k v ps : Js.lookup_own k ps = Some v -> In (k, v) ps.
Proof.
  induction ps as [|[k' v'] ps IH]; simpl; [discriminate|].
  destruct (String.eqb_spec k k') as [<-|Hne].
  - intros H. inversion H. now left.
  - intros H. right. now apply IH.
Qed.

Lemma unique_keys_perm ps ps' :
  Permutation ps ps' -> Js.unique_keys ps -> Js.unique_keys ps'.
Proof. intros Hp Hu k. rewrite <- (count_key_perm k _ _ Hp). apply Hu. Qed.

(** In the enumeration of an object with unique keys, a key is listed
    with the record the object holds for it. *)
Lemma lookup_ordered k ps :
  Js.unique_keys ps -> Js.lookup_own k (Js.ordered ps) = Js.lookup_own k ps.
Proof.
  intros Hu.
  destruct (Js.lookup_own k ps) as [v|] eqn:Hps.
  - apply lookup_own_in.
    + eapply unique_keys_perm; [symmetry; apply ordered_perm | exact Hu].
    + eapply Permutation_in; [symmetry; apply ordered_perm|]. now apply lookup_own_Some_in.
  - apply lookup_own_count. rewrite (count_key_perm k _ _ (ordered_perm ps)).
    now apply lookup_own_count.
Qed.

End object_facts.

Section object_assignment.

Implicit Types (k : string) (v r : Image.t) (ps : list (string * Image.t)) (o : Js.object).

(** Away from [__proto__] an assignment is an update of the own
    properties. *)
Lemma assign_plain k v o :
  k <> "__proto__" ->
  Js.assign k v o = {| Js.own_props := Js.put k v (Js.own_props o); Js.proto := Js.proto o |}.
Proof.
  intros Hk. unfold Js.assign.
  destruct (String.eqb_spec k "__proto__"); [congruence | reflexivity].
Qed.

Lemma assign_own k v o : k <> "__proto__" -> Js.own k (Js.assign k v o) = Some v.
Proof. intros Hk. rewrite assign_plain by assumption. apply lookup_own_put_eq. Qed.

Lemma assign_own_ne k k' v o :
  k <> "__proto__" -> k <> k' -> Js.own k' (Js.assign k v o) = Js.own k' o.
Proof.
  intros Hk Hne. rewrite assign_plain by assumption. now apply lookup_own_put_ne.
Qed.

Lemma assign_unique k v o :
  Js.unique_keys (Js.own_props o) -> Js.unique_keys (Js.own_props (Js.assign k v o)).
Proof.
  intros Hu. unfold Js.assign.
  destruct (String.eqb k "__proto__" && _); simpl; [exact Hu | now apply unique_keys_put].
Qed.

(** After an assignment under an ordinary key, the enumeration lists
    the key once, with the assigned record. *)
Lemma assign_listed k v o :
  k <> "__proto__" -> Js.unique_keys (Js.own_props o) ->
  Js.count_key k (Js.entries (Js.assign k v o)) = 1%nat
  /\ Js.lookup_own k (Js.entries (Js.assign k v o)) = Some v.
Proof.
  intros Hk Hu. unfold Js.entries. split.
  - rewrite (count_key_perm k _ _ (ordered_perm _)).
    rewrite assign_plain by assumption. simpl. rewrite count_key_put_eq.
    specialize (Hu k). lia.
  - rewrite lookup_ordered by now apply assign_unique.
    now apply assign_own.
Qed.

Lemma count_key_app k ps ps' :
  Js.count_key k (ps ++ ps') = (Js.count_key k ps + Js.count_key k ps')%nat.
Proof. unfold Js.count_key. now rewrite List.filter_app, length_app. Qed.

Lemma unique_keys_head k v ps ps' :
  Js.unique_keys (ps ++ (k, v) :: ps') -> Js.lookup_own k ps = None.
Proof.
  intros Hu. apply lookup_own_count. specialize (Hu k).
  rewrite count_key_app in Hu. unfold Js.count_key in Hu at 2. simpl in Hu.
  rewrite String.eqb_refl in Hu. simpl in Hu. lia.
Qed.

(** The object rebuilt from documents with distinct keys, none of them
    [__proto__], has the documents as own properties, in their order. *)
Lemma rebuild_from o (images : list (string * Image.t)) :
  Js.unique_keys (Js.own_props o ++ images) ->
  Js.lookup_own "__proto__" images = None ->
  Js.own_props (fold_left (fun o img => Js.assign (fst img) (snd img) o) images o)
  = Js.own_props o ++ images.
Proof.
  revert o. induction images as [|[k v] images IH]; intros o Hu Hproto; simpl.
  - now rewrite app_nil_r.
  - change (Js.lookup_own "__proto__" ((k, v) :: images))
      with (if String.eqb "__proto__" k then Some v else Js.lookup_own "__proto__" images)
      in Hproto.
    destruct (String.eqb_spec "__proto__" k) as [|Hk]; [discriminate|].
    assert (Hk' : k <> "__proto__") by congruence.
    rewrite IH.
    + rewrite assign_plain by assumption. simpl.
      rewrite put_fresh by (eapply unique_keys_head; exact Hu).
      now rewrite <- app_assoc.
    + rewrite assign_plain by assumption. simpl.
      rewrite put_fresh by (eapply unique_keys_head; exact Hu).
      now rewrite <- app_assoc.
    + exact Hproto.
Qed.

Lemma rebuild_own_props (images : list (string * Image.t)) :
  Js.unique_keys images ->
  Js.lookup_own "__proto__" images = None ->
  Js.own_props (Durable.rebuild images) = images.
Proof. intros Hu Hproto. unfold Durable.rebuild. now rewrite rebuild_from. Qed.

End object_assignment.

(** ** Paths *)

Section path_facts.

Lemma chars_of_chars (cs : list ascii) : chars (of_chars cs) = cs.
Proof. apply list_ascii_of_string_of_list_ascii. Qed.

Lemma of_chars_chars (s : string) : of_chars (chars s) = s.
Proof. apply string_of_list_ascii_of_string. Qed.

Lemma chars_append (a b : string) : chars (a +:+ b) = chars a ++ chars b.
Proof. induction a as [|c a IH]; simpl; [reflexivity | now rewrite IH]. Qed.

Lemma no_sep_app (a b : list ascii) : no_sep a -> no_sep b -> no_sep (a ++ b).
Proof. unfold no_sep. intros. apply Forall_app. auto. Qed.

Lemma take_segment_no_sep (cs : list ascii) : no_sep (Path.take_segment cs).
Proof.
  induction cs as [|c cs IH]; simpl; [constructor|].
  destruct (Path.is_sep c) eqn:Hc; constructor; assumption.
Qed.

Lemma basename_chars_no_sep (p : list ascii) : no_sep (Path.basename_chars p).
Proof.
  unfold Path.basename_chars, no_sep. apply Forall_rev. apply take_segment_no_sep.
Qed.

(** Only the last segment of its argument is in [path.basename]. *)
Lemma basename_no_sep (p : string) : no_sep (chars (Path.basename p)).
Proof. unfold Path.basename. rewrite chars_of_chars. apply basename_chars_no_sep. Qed.

Lemma take_to_dot_no_sep (cs ext stem : list ascii) :
  no_sep cs -> Path.take_to_dot cs = Some (ext, stem) -> no_sep ext.
Proof.
  revert ext stem. induction cs as [|c cs IH]; simpl; intros ext stem Hcs H; [discriminate|].
  inversion Hcs as [|? ? Hc Hcs']; subst.
  destruct (Path.is_dot c).
  - inversion H; subst. constructor.
  - destruct (Path.take_to_dot cs) as [[ext' stem']|] eqn:Hrec; [|discriminate].
    inversion H; subst. constructor; [assumption|]. eapply IH; eauto.
Qed.

Lemma extname_no_sep (p : string) : no_sep (chars (Path.extname p)).
Proof.
  unfold Path.extname.
  destruct (Path.take_to_dot (rev (Path.basename_chars (chars p))))
    as [[ext_rev stem_rev]|] eqn:Hdot; [|constructor].
  destruct stem_rev as [|c stem]; [constructor|].
  destruct (String.eqb _ ".."); [constructor|].
  rewrite chars_of_chars. constructor; [reflexivity|].
  apply Forall_rev. eapply take_to_dot_no_sep; [|exact Hdot].
  apply Forall_rev. apply basename_chars_no_sep.
Qed.

Lemma uint_string_no_sep (d : Decimal.uint) : no_sep (chars (NilEmpty.string_of_uint d)).
Proof. induction d; simpl; constructor; auto. Qed.

Lemma number_string_no_sep (z : Z) : no_sep (chars (number_string z)).
Proof.
  unfold number_string.
  assert (Hu : forall d, no_sep (chars (NilZero.string_of_uint d))).
  { intros d. destruct d; try apply uint_string_no_sep. repeat constructor. }
  destruct (Z.to_int z); simpl; [apply Hu | constructor; [reflexivity | apply Hu]].
Qed.

Lemma split_aux_no_sep (cur cs : list ascii) :
  no_sep cs -> Path.split_aux cur cs = [of_chars (rev cur ++ cs)].
Proof.
  revert cur. induction cs as [|c cs IH]; intros cur Hcs; simpl.
  - now rewrite app_nil_r.
  - inversion Hcs as [|? ? Hc Hcs']; subst. rewrite Hc.
    rewrite IH by assumption. simpl. now rewrite <- app_assoc.
Qed.

(** A string without separator is one segment. *)
Lemma segments_no_sep (s : string) : no_sep (chars s) -> Path.segments s = [s].
Proof.
  intros H. unfold Path.segments. rewrite split_aux_no_sep by assumption.
  simpl. now rewrite of_chars_chars.
Qed.

Lemma join_one (base : list string) (name : string) :
  no_sep (chars name) -> Path.join base [name] = Path.step base name.
Proof.
  intros H. unfold Path.join. simpl. rewrite segments_no_sep by assumption.
  reflexivity.
Qed.

Lemma join_uploads (base : list string) (name : string) :
  no_sep (chars name) ->
  Path.join base ["uploads"; name] = Path.step (base ++ ["uploads"]) name.
Proof.
  intros H. unfold Path.join. simpl. rewrite segments_no_sep by assumption.
  reflexivity.
Qed.

(** Where [path.join(base, "uploads", name)] can point for a name
    without separator: a child of [uploads], [uploads] itself, or
    [base]. *)
Lemma step_uploads (base : list string) (name : string) :
  Path.step (base ++ ["uploads"]) name
  = if String.eqb name "" || String.eqb name "." then base ++ ["uploads"]
    else if String.eqb name ".." then base
    else base ++ ["uploads"; name].
Proof.
  unfold Path.step.
  destruct (String.eqb name "" || String.eqb name "."); [reflexivity|].
  destruct (String.eqb name "..").
  - apply removelast_last.
  - now rewrite <- app_assoc.
Qed.

End path_facts.

Section basename_shape.




End basename_shape.

(** ** The file filter and the upload middleware *)

Section filter.

Lemma fileFilter_rejects (file : FilePart) :
  startsWith (mimetype file) "image/" = false ->
  fileFilter file = Thrown (Error "Only image files are allowed!").
Proof. intros H. unfold fileFilter. now rewrite H. Qed.

Lemma fileFilter_accepts (file : FilePart) :
  startsWith (mimetype file) "image/" = true -> fileFilter file = Ok true.
Proof. intros H. unfold fileFilter. now rewrite H. Qed.

(** C4, as the code has it.  An upload whose file has a mime type that
    does not start with [image/] is refused by the filter before the
    storage engine and the handler run, in both variants: the world is
    returned as it was, nothing stored, no metadata touched, and not
    one call added to the record of calls to the disk, to Cloudinary or
    to the collection.  But the refusal is the plain error "Only image
    files are allowed!" handed to Express, which has no error-handling
    middleware: the request is answered 500 with the error page, not
    with the 400 and [{ error }] of the checks on the file and on the
    key. *)
Theorem non_image_upload_is_answered_500
    (file : FilePart) (imageKey : option string) :
  startsWith (mimetype file) "image/" = false ->
  (forall (e : Flat.Env) (w : Flat.World),
     Flat.post_upload e {| req_file := Some file; req_imageKey := imageKey |} w
     = (Failed (Error "Only image files are allowed!"), w)
     /\ http_response
          (fst (Flat.post_upload e {| req_file := Some file; req_imageKey := imageKey |} w))
        = {| status := 500; body := BErrorPage (Error "Only image files are allowed!") |})
  /\ (forall (e : Durable.Env) (w : Durable.World),
        Durable.post_upload e {| req_file := Some file; req_imageKey := imageKey |} w
        = (Failed (Error "Only image files are allowed!"), w)
        /\ http_response
             (fst (Durable.post_upload e
                     {| req_file := Some file; req_imageKey := imageKey |} w))
           = {| status := 500; body := BErrorPage (Error "Only image files are allowed!") |}).
Proof.
  intros Hmime.
  assert (Hflat : forall (e : Flat.Env) (w : Flat.World),
             Flat.post_upload e {| req_file := Some file; req_imageKey := imageKey |} w
             = (Failed (Error "Only image files are allowed!"), w)).
  { intros e w. run_flat. now rewrite (fileFilter_rejects _ Hmime). }
  assert (Hdurable : forall (e : Durable.Env) (w : Durable.World),
             Durable.post_upload e {| req_file := Some file; req_imageKey := imageKey |} w
             = (Failed (Error "Only image files are allowed!"), w)).
  { intros e w. run_durable. now rewrite (fileFilter_rejects _ Hmime). }
  split; intros e w.
  - rewrite Hflat. split; reflexivity.
  - rewrite Hdurable. split; reflexivity.
Qed.

(** A PDF sent with a key: refused with no call recorded, and answered
    500, in either variant. *)
Lemma non_image_upload_is_answered_500_witness :
  (Flat.post_upload Sample.flat_env (Sample.upload Sample.pdf (Some "hero-1")) Sample.flat_empty
   = (Failed (Error "Only image files are allowed!"), Sample.flat_empty)
   /\ status (http_response
                (fst (Flat.post_upload Sample.flat_env
                        (Sample.upload Sample.pdf (Some "hero-1")) Sample.flat_empty)))
      = 500%Z)
  /\ (Durable.post_upload Sample.durable_env (Sample.upload Sample.pdf (Some "hero-1"))
        Sample.durable_empty
      = (Failed (Error "Only image files are allowed!"), Sample.durable_empty)
      /\ status (http_response
                   (fst (Durable.post_upload Sample.durable_env
                           (Sample.upload Sample.pdf (Some "hero-1")) Sample.durable_empty)))
         = 500%Z).
Proof.
  destruct (non_image_upload_is_answered_500 Sample.pdf (Some "hero-1") eq_refl)
    as [Hflat Hdurable].
  split.
  - destruct (Hflat Sample.flat_env Sample.flat_empty) as [Hout Hres].
    split; [exact Hout | exact (f_equal status Hres)].
  - destruct (Hdurable Sample.durable_env Sample.durable_empty) as [Hout Hres].
    split; [exact Hout | exact (f_equal status Hres)].
Defined.

End filter.

Section middleware.

Lemma storage_filename_no_sep (e : Flat.Env) (file : FilePart) :
  no_sep (chars (Flat.storage_filename e file)).
Proof.
  unfold Flat.storage_filename. rewrite !chars_append.
  repeat apply no_sep_app;
    try apply number_string_no_sep; try apply extname_no_sep; repeat constructor.
Qed.

(** The stored file lands directly in the upload directory. *)
Lemma storage_filename_child (e : Flat.Env) (file : FilePart) (dir : list string) :
  Path.join dir [Flat.storage_filename e file] = dir ++ [Flat.storage_filename e file].
Proof.
  rewrite join_one by apply storage_filename_no_sep.
  unfold Path.step, Flat.storage_filename. reflexivity.
Qed.

Lemma upload_dir (e : Flat.Env) :
  Path.join (Flat.dirname e) ["uploads"] = Flat.dirname e ++ ["uploads"].
Proof. reflexivity. Qed.

Lemma json_path (e : Flat.Env) :
  Path.join (Flat.dirname e) ["imageData.json"] = Flat.dirname e ++ ["imageData.json"].
Proof. reflexivity. Qed.

Lemma write_result_ok (ok : bool) (p : list string) (c : Flat.Content)
    (f f' : gmap (list string) Flat.Node) :
  Flat.write_result ok p c f = Ok f' -> f' = <[p := Flat.File c]> f.
Proof.
  unfold Flat.write_result. intros H.
  destruct (Flat.open_result p f); [|discriminate].
  destruct ok; [now inversion H | discriminate].
Qed.

(** A failed write touches no other path than its own. *)
Lemma failed_write_ne (fault : Flat.Fault) (p q : list string) (c : Flat.Content)
    (f : gmap (list string) Flat.Node) :
  p <> q -> Flat.failed_write fault p c f !! q = f !! q.
Proof.
  intros Hne. unfold Flat.failed_write.
  destruct (Flat.open_result p f), fault; try reflexivity; now apply lookup_insert_ne.
Qed.



(** The flat-file middleware never touches the metadata: neither the
    object in memory nor [imageData.json].  When it hands a file to the
    handler, the bytes are on the disk under the upload directory. *)
Lemma flat_multer_effect (e : Flat.Env) (req : UploadRequest) (w w1 : Flat.World)
    (r : result (option StoredFile)) :
  Flat.multer e req w = (r, w1) ->
  Flat.imageData w1 = Flat.imageData w
  /\ Flat.fs w1 !! (Flat.dirname e ++ ["imageData.json"])
     = Flat.fs w !! (Flat.dirname e ++ ["imageData.json"])
  /\ (forall file f, req_file req = Some file -> r = Ok (Some f) ->
        filename f = Flat.storage_filename e file
        /\ Flat.fs w1 !! (Flat.dirname e ++ ["uploads"; filename f])
           = Some (Flat.File (Flat.Bytes (content file)))).
Proof.
  assert (Hdir : Flat.dirname e ++ ["uploads"] <> Flat.dirname e ++ ["imageData.json"]).
  { intros H. apply app_inv_head in H. discriminate. }
  assert (Hfile : forall name,
             (Flat.dirname e ++ ["uploads"]) ++ [name]
             <> Flat.dirname e ++ ["imageData.json"]).
  { intros name H. rewrite <- app_assoc in H. apply app_inv_head in H. discriminate. }
  unfold Flat.multer. intros H.
  destruct (req_file req) as [file|] eqn:Hreq.
  2:{ run. inversion H; subst. repeat split; intros; auto; discriminate. }
  destruct (fileFilter file).
  2:{ run. inversion H; subst. repeat split; intros; auto; discriminate. }
  run_flat. rewrite !upload_dir in H.
  assert (Hstored : forall (g : gmap (list string) Flat.Node) file0 f,
             Some file = Some file0 ->
             Ok (Some {| filename := Flat.storage_filename e file;
                         path := Flat.render ((Flat.dirname e ++ ["uploads"])
                                              ++ [Flat.storage_filename e file]);
                         file_originalname := originalname file;
                         file_mimetype := mimetype file;
                         file_size := byte_length (content file) |}) = Ok (Some f) ->
             filename f = Flat.storage_filename e file0
             /\ <[(Flat.dirname e ++ ["uploads"]) ++ [Flat.storage_filename e file]
                  := Flat.File (Flat.Bytes (content file))]> g
                !! (Flat.dirname e ++ ["uploads"; filename f])
                = Some (Flat.File (Flat.Bytes (content file0)))).
  { intros g file0 f Hf0 Hf. inversion Hf0; subst file0. inversion Hf; subst f. simpl.
    split; [reflexivity|]. rewrite <- app_assoc. simpl. apply lookup_insert_eq. }
  destruct (bool_decide (is_Some (Flat.fs w !! (Flat.dirname e ++ ["uploads"])))) eqn:Hpresent;
    simpl in H; rewrite storage_filename_child in H.
  - destruct (Flat.fileSize <=? byte_length (content file))%Z; simpl in H.
    { inversion H; subst. simpl. repeat split; intros; auto; discriminate. }
    destruct (Flat.write_result _ _ _ _) as [f'|err] eqn:Hwrite; simpl in H;
      inversion H; subst; simpl.
    2:{ split; [reflexivity|]. split; [|intros; discriminate].
        now rewrite failed_write_ne by apply Hfile. }
    apply write_result_ok in Hwrite. subst f'.
    split; [reflexivity|]. split.
    + now rewrite lookup_insert_ne by apply Hfile.
    + apply Hstored.
  - destruct (Flat.fs w !! (Flat.dirname e ++ ["uploads"])) as [n|] eqn:Hup.
    { apply bool_decide_eq_false in Hpresent. exfalso. apply Hpresent. eauto. }
    simpl in H.
    destruct (Flat.fileSize <=? byte_length (content file))%Z; simpl in H.
    { inversion H; subst. simpl. split; [reflexivity|]. split.
      - now rewrite lookup_insert_ne by apply Hdir.
      - intros; discriminate. }
    destruct (Flat.write_result _ _ _ _) as [f'|err] eqn:Hwrite; simpl in H;
      inversion H; subst; simpl.
    2:{ split; [reflexivity|]. split.
        - rewrite failed_write_ne by apply Hfile.
          now rewrite lookup_insert_ne by apply Hdir.
        - intros; discriminate. }
    apply write_result_ok in Hwrite. subst f'.
    split; [reflexivity|]. split.
    + rewrite lookup_insert_ne by apply Hfile. now rewrite lookup_insert_ne by apply Hdir.
    + apply Hstored.
Qed.

End middleware.

(** ** Uploads that miss a precondition *)

Section upload_preconditions.

(** The database middleware never touches the collection.  When it
    hands a file to the handler, the bytes are held by Cloudinary. *)
Lemma durable_multer_effect (e : Durable.Env) (req : UploadRequest) (w w1 : Durable.World)
    (r : result (option StoredFile)) :
  Durable.multer e req w = (r, w1) ->
  Durable.db w1 = Durable.db w
  /\ (forall file f, req_file req = Some file -> r = Ok (Some f) ->
        Durable.cloud w1 !! filename f = Some (content file)).
Proof.
  intros H. run_durable.
  destruct (req_file req) as [file|]; simpl in H.
  2:{ inversion H; subst. split; intros; auto; discriminate. }
  destruct (fileFilter file); simpl in H.
  2:{ inversion H; subst. split; intros; auto; discriminate. }
  destruct (Durable.fileSize <=? byte_length (content file))%Z; simpl in H.
  { inversion H; subst. split; intros; auto; discriminate. }
  destruct (Durable.uploaded e) as [[secure_url public_id]|]; simpl in H;
    inversion H; subst; simpl.
  2:{ split; intros; auto; discriminate. }
  split; [reflexivity|]. intros file0 f Hfile Hf.
  inversion Hfile; subst file0. inversion Hf; subst f. simpl.
  apply lookup_insert_eq.
Qed.

Lemma flat_upload_no_file (e : Flat.Env) (imageKey : option string) (w : Flat.World) :
  Flat.post_upload e {| req_file := None; req_imageKey := imageKey |} w
  = (Responded (json 400 (BError "No file uploaded")), w).
Proof. reflexivity. Qed.

Lemma durable_upload_no_file (e : Durable.Env) (imageKey : option string) (w : Durable.World) :
  Durable.post_upload e {| req_file := None; req_imageKey := imageKey |} w
  = (Responded (json 400 (BError "No file uploaded")), w).
Proof. reflexivity. Qed.

Lemma flat_upload_no_key (e : Flat.Env) (req : UploadRequest) (w w1 : Flat.World)
    (f : StoredFile) :
  req_imageKey req = None \/ req_imageKey req = Some "" ->
  Flat.multer e req w = (Ok (Some f), w1) ->
  Flat.post_upload e req w = (Responded (json 400 (BError "Image key is required")), w1).
Proof.
  intros Hkey Hmw. unfold Flat.post_upload, Flat.route, bind. rewrite Hmw.
  destruct Hkey as [-> | ->]; reflexivity.
Qed.

Lemma durable_upload_no_key (e : Durable.Env) (req : UploadRequest) (w w1 : Durable.World)
    (f : StoredFile) :
  req_imageKey req = None \/ req_imageKey req = Some "" ->
  Durable.multer e req w = (Ok (Some f), w1) ->
  Durable.post_upload e req w = (Responded (json 400 (BError "Image key is required")), w1).
Proof.
  intros Hkey Hmw. unfold Durable.post_upload, Durable.route, bind. rewrite Hmw.
  destruct Hkey as [-> | ->]; reflexivity.
Qed.

(** C1, as the code has it.  A request without a file is answered 400
    and the world is returned as it was: no blob, no metadata, no call.
    A request whose file the middleware has accepted and stored, but
    whose [imageKey] is missing or empty, is answered 400 by a handler
    that writes nothing: the world is the one the middleware left, in
    which the metadata (the object in memory and [imageData.json], or
    the collection) is what it was before the request, and in which the
    blob written by the middleware is present. *)
Theorem upload_precondition_failure_writes_no_metadata :
  (forall (e : Flat.Env) (imageKey : option string) (w : Flat.World),
     Flat.post_upload e {| req_file := None; req_imageKey := imageKey |} w
     = (Responded (json 400 (BError "No file uploaded")), w))
  /\ (forall (e : Durable.Env) (imageKey : option string) (w : Durable.World),
        Durable.post_upload e {| req_file := None; req_imageKey := imageKey |} w
        = (Responded (json 400 (BError "No file uploaded")), w))
  /\ (forall (e : Flat.Env) (file : FilePart) (imageKey : option string)
             (w w1 : Flat.World) (f : StoredFile),
        imageKey = None \/ imageKey = Some "" ->
        Flat.multer e {| req_file := Some file; req_imageKey := imageKey |} w
        = (Ok (Some f), w1) ->
        Flat.post_upload e {| req_file := Some file; req_imageKey := imageKey |} w
        = (Responded (json 400 (BError "Image key is required")), w1)
        /\ Flat.imageData w1 = Flat.imageData w
        /\ Flat.fs w1 !! Path.join (Flat.dirname e) ["imageData.json"]
           = Flat.fs w !! Path.join (Flat.dirname e) ["imageData.json"]
        /\ Flat.fs w1 !! (Flat.dirname e ++ ["uploads"; filename f])
           = Some (Flat.File (Flat.Bytes (content file))))
  /\ (forall (e : Durable.Env) (file : FilePart) (imageKey : option string)
             (w w1 : Durable.World) (f : StoredFile),
        imageKey = None \/ imageKey = Some "" ->
        Durable.multer e {| req_file := Some file; req_imageKey := imageKey |} w
        = (Ok (Some f), w1) ->
        Durable.post_upload e {| req_file := Some file; req_imageKey := imageKey |} w
        = (Responded (json 400 (BError "Image key is required")), w1)
        /\ Durable.db w1 = Durable.db w
        /\ Durable.cloud w1 !! filename f = Some (content file)).
Proof.
  split; [exact flat_upload_no_file|]. split; [exact durable_upload_no_file|]. split.
  - intros e file imageKey w w1 f Hkey Hmw.
    destruct (flat_multer_effect _ _ _ _ _ Hmw) as (Hdata & Hjson & Hblob).
    split; [now apply flat_upload_no_key with (f := f)|].
    split; [exact Hdata|]. split; [rewrite json_path; exact Hjson|].
    now apply (Hblob file f).
  - intros e file imageKey w w1 f Hkey Hmw.
    destruct (durable_multer_effect _ _ _ _ _ Hmw) as (Hdb & Hblob).
    split; [now apply durable_upload_no_key with (f := f)|].
    split; [exact Hdb|]. now apply (Hblob file f).
Qed.

End upload_preconditions.

Section upload_preconditions_instances.

(** C1 as stated fails: an image sent without [imageKey] is answered
    400, yet its bytes are in the blob store afterwards, on the disk of
    the flat-file variant and in Cloudinary for the database variant. *)
Lemma upload_without_key_stores_blob :
  req_imageKey (Sample.upload Sample.png None) = None
  /\ status (http_response
               (fst (Flat.post_upload Sample.flat_env (Sample.upload Sample.png None)
                       Sample.flat_empty))) = 400%Z
  /\ Flat.fs Sample.flat_empty !! Sample.hero_path = None
  /\ Flat.fs (snd (Flat.post_upload Sample.flat_env (Sample.upload Sample.png None)
                     Sample.flat_empty)) !! Sample.hero_path
     = Some (Flat.File (Flat.Bytes "PNG-BYTES"))
  /\ status (http_response
               (fst (Durable.post_upload Sample.durable_env (Sample.upload Sample.png None)
                       Sample.durable_empty))) = 400%Z
  /\ Durable.cloud Sample.durable_empty !! "adriana-photography/abc123" = None
  /\ Durable.cloud (snd (Durable.post_upload Sample.durable_env
                           (Sample.upload Sample.png None) Sample.durable_empty))
       !! "adriana-photography/abc123"
     = Some "PNG-BYTES".
Proof. repeat split; vm_compute; reflexivity. Qed.

(** The same request, through the theorem: 400, metadata as before,
    blob stored. *)
Lemma upload_precondition_failure_writes_no_metadata_witness :
  (Flat.post_upload Sample.flat_env (Sample.upload Sample.png None) Sample.flat_empty
   = (Responded (json 400 (BError "Image key is required")),
      snd (Flat.multer Sample.flat_env (Sample.upload Sample.png None) Sample.flat_empty))
   /\ Flat.imageData
        (snd (Flat.multer Sample.flat_env (Sample.upload Sample.png None) Sample.flat_empty))
      = Flat.imageData Sample.flat_empty
   /\ Flat.fs (snd (Flat.multer Sample.flat_env (Sample.upload Sample.png None)
                      Sample.flat_empty))
        !! Path.join (Flat.dirname Sample.flat_env) ["imageData.json"]
      = Flat.fs Sample.flat_empty !! Path.join (Flat.dirname Sample.flat_env) ["imageData.json"]
   /\ Flat.fs (snd (Flat.multer Sample.flat_env (Sample.upload Sample.png None)
                      Sample.flat_empty))
        !! (Flat.dirname Sample.flat_env ++ ["uploads"; filename Sample.stored_png])
      = Some (Flat.File (Flat.Bytes (content Sample.png))))
  /\ (Durable.post_upload Sample.durable_env (Sample.upload Sample.png (Some ""))
        Sample.durable_empty
      = (Responded (json 400 (BError "Image key is required")),
         snd (Durable.multer Sample.durable_env (Sample.upload Sample.png (Some ""))
                Sample.durable_empty))
      /\ Durable.db (snd (Durable.multer Sample.durable_env
                            (Sample.upload Sample.png (Some "")) Sample.durable_empty))
         = Durable.db Sample.durable_empty
      /\ Durable.cloud (snd (Durable.multer Sample.durable_env
                               (Sample.upload Sample.png (Some "")) Sample.durable_empty))
           !! filename Sample.stored_png_cloud
         = Some (content Sample.png)).
Proof.
  destruct upload_precondition_failure_writes_no_metadata as (_ & _ & Hflat & Hdurable).
  split.
  - apply (Hflat Sample.flat_env Sample.png None Sample.flat_empty).
    + left. reflexivity.
    + vm_compute. reflexivity.
  - apply (Hdurable Sample.durable_env Sample.png (Some "") Sample.durable_empty).
    + right. reflexivity.
    + vm_compute. reflexivity.
Defined.

End upload_preconditions_instances.

(** ** The flat-file variant on ordinary keys *)

Section flat_ordinary.

Lemma flat_get_image_found (key : string) (w : Flat.World) (r : Image.t) :
  Js.own key (Flat.imageData w) = Some r ->
  Flat.get_image key w = (Responded (json 200 (BJson (Js.VRecord r))), w).
Proof. intros H. run_flat. now rewrite (get_own _ _ _ H). Qed.

(** A key that is neither an own property nor a name of
    [Object.prototype] reads as [undefined] on an object whose
    prototype was never replaced. *)
Lemma get_undefined (key : string) (o : Js.object) :
  Js.own key o = None -> Js.proto o = None ->
  existsb (String.eqb key) Js.object_prototype_names = false ->
  Js.get key o = Js.VUndefined.
Proof.
  intros Hown Hproto Hnames. unfold Js.get, Js.inherited. rewrite Hown, Hproto.
  destruct (String.eqb key "__proto__") eqn:Hk.
  - unfold Js.object_prototype_names in Hnames. simpl in Hnames.
    rewrite Hk in Hnames. rewrite !orb_true_r in Hnames. discriminate.
  - now rewrite Hnames.
Qed.

Lemma flat_get_image_missing (key : string) (w : Flat.World) :
  Js.get key (Flat.imageData w) = Js.VUndefined ->
  Flat.get_image key w = (Responded (json 404 (BError "Image not found")), w).
Proof. intros H. run_flat. now rewrite H. Qed.

Lemma flat_delete_image_missing (e : Flat.Env) (key : string) (w : Flat.World) :
  Js.get key (Flat.imageData w) = Js.VUndefined ->
  Flat.delete_image e key w = (Responded (json 404 (BError "Image not found")), w).
Proof. intros H. run_flat. now rewrite H. Qed.

(** Get-by-key and delete of the flat-file variant, for every key that
    is not a name of [Object.prototype]: 200 with the record when one
    is stored, 404 and an unchanged world when none is. *)
Lemma flat_lookup_of_ordinary_key (e : Flat.Env) (key : string) (w : Flat.World) :
  Js.proto (Flat.imageData w) = None ->
  existsb (String.eqb key) Js.object_prototype_names = false ->
  (forall r, Js.own key (Flat.imageData w) = Some r ->
     Flat.get_image key w = (Responded (json 200 (BJson (Js.VRecord r))), w))
  /\ (Js.own key (Flat.imageData w) = None ->
      Flat.get_image key w = (Responded (json 404 (BError "Image not found")), w)
      /\ Flat.delete_image e key w = (Responded (json 404 (BError "Image not found")), w)).
Proof.
  intros Hproto Hnames. split.
  - intros r. apply flat_get_image_found.
  - intros Hown.
    assert (Hget := get_undefined key _ Hown Hproto Hnames).
    split; [now apply flat_get_image_missing | now apply flat_delete_image_missing].
Qed.

(** What an upload with a key does once the middleware has stored the
    file: the record is assigned, then the object is saved. *)
Lemma flat_upload_with_key (e : Flat.Env) (file : FilePart) (key : string)
    (w w1 : Flat.World) (f : StoredFile) :
  key <> "" ->
  Flat.multer e {| req_file := Some file; req_imageKey := Some key |} w = (Ok (Some f), w1) ->
  Flat.post_upload e {| req_file := Some file; req_imageKey := Some key |} w
  = match Flat.write_result (Flat.save_ok e) (Path.join (Flat.dirname e) ["imageData.json"])
            (Flat.JsonText (Js.entries (Js.assign key (Flat.record_of e f) (Flat.imageData w))))
            (Flat.fs w1) with
    | Ok disk =>
        (Responded (json 200 (BUploaded ("/uploads/" +:+ filename f) key None None)),
         {| Flat.imageData := Js.assign key (Flat.record_of e f) (Flat.imageData w);
            Flat.fs := disk;
            Flat.calls := Flat.calls w1
                          ++ [Flat.FsWrite (Path.join (Flat.dirname e) ["imageData.json"])] |})
    | Thrown _ =>
        (Responded (json 500 (BError "File upload failed")),
         {| Flat.imageData := Js.assign key (Flat.record_of e f) (Flat.imageData w);
            Flat.fs := Flat.failed_write (Flat.save_fault e)
                         (Path.join (Flat.dirname e) ["imageData.json"])
                         (Flat.JsonText
                            (Js.entries (Js.assign key (Flat.record_of e f) (Flat.imageData w))))
                         (Flat.fs w1);
            Flat.calls := Flat.calls w1
                          ++ [Flat.FsWrite (Path.join (Flat.dirname e) ["imageData.json"])] |})
    end.
Proof.
  intros Hkey Hmw.
  destruct (flat_multer_effect _ _ _ _ _ Hmw) as (Hdata & _ & _).
  unfold Flat.post_upload, Flat.route, bind. rewrite Hmw.
  unfold Flat.upload_handler.
  destruct (String.eqb key "") eqn:Hk; [apply String.eqb_eq in Hk; congruence|].
  clear Hmw. run_flat. rewrite Hk. simpl. rewrite Hdata.
  destruct (Flat.write_result _ _ _ _); reflexivity.
Qed.

(** What a restart reads back after a successful save: the own
    properties in the order of enumeration, under the default
    prototype. *)
Lemma saved_then_loaded (e : Flat.Env) (o : Js.object)
    (disk disk' : gmap (list string) Flat.Node) :
  Flat.write_result (Flat.save_ok e) (Path.join (Flat.dirname e) ["imageData.json"])
    (Flat.JsonText (Js.entries o)) disk = Ok disk' ->
  Flat.loaded e disk' = {| Js.own_props := Js.entries o; Js.proto := None |}.
Proof.
  intros H. apply write_result_ok in H. subst disk'.
  unfold Flat.loaded. now rewrite lookup_insert_eq.
Qed.

(** Last write wins under an ordinary key: after two uploads that
    reached the handler, the object lists the key once, with the record
    of the second upload. *)
Lemma flat_upload_twice (e1 e2 : Flat.Env) (file1 file2 : FilePart) (key : string)
    (w m1 m2 : Flat.World) (f1 f2 : StoredFile) :
  key <> "" -> key <> "__proto__" ->
  Js.unique_keys (Js.own_props (Flat.imageData w)) ->
  Flat.multer e1 {| req_file := Some file1; req_imageKey := Some key |} w = (Ok (Some f1), m1) ->
  Flat.multer e2 {| req_file := Some file2; req_imageKey := Some key |}
    (snd (Flat.post_upload e1 {| req_file := Some file1; req_imageKey := Some key |} w))
  = (Ok (Some f2), m2) ->
  let w2 := snd (Flat.post_upload e2 {| req_file := Some file2; req_imageKey := Some key |}
                   (snd (Flat.post_upload e1
                           {| req_file := Some file1; req_imageKey := Some key |} w))) in
  Js.own key (Flat.imageData w2) = Some (Flat.record_of e2 f2)
  /\ Js.count_key key (Js.entries (Flat.imageData w2)) = 1%nat
  /\ Js.lookup_own key (Js.entries (Flat.imageData w2)) = Some (Flat.record_of e2 f2).
Proof.
  intros Hkey Hproto Hu Hmw1 Hmw2 w2. subst w2.
  assert (Hdata1 : Flat.imageData
                     (snd (Flat.post_upload e1
                             {| req_file := Some file1; req_imageKey := Some key |} w))
                   = Js.assign key (Flat.record_of e1 f1) (Flat.imageData w)).
  { rewrite (flat_upload_with_key e1 file1 key w m1 f1 Hkey Hmw1).
    destruct (Flat.write_result _ _ _ _); reflexivity. }
  assert (Hdata2 : Flat.imageData
                     (snd (Flat.post_upload e2
                             {| req_file := Some file2; req_imageKey := Some key |}
                             (snd (Flat.post_upload e1
                                     {| req_file := Some file1; req_imageKey := Some key |} w))))
                   = Js.assign key (Flat.record_of e2 f2)
                       (Js.assign key (Flat.record_of e1 f1) (Flat.imageData w))).
  { rewrite (flat_upload_with_key e2 file2 key _ m2 f2 Hkey Hmw2). rewrite Hdata1.
    destruct (Flat.write_result _ _ _ _); reflexivity. }
  rewrite Hdata2. split; [now apply assign_own|].
  apply assign_listed; [assumption|]. now apply assign_unique.
Qed.

End flat_ordinary.

(** ** The database variant while the database answers *)

Section durable_general.

Implicit Types (k key : string) (r : Image.t) (d : list (string * Image.t)).

Lemma find_key_lookup k d : Durable.find_key k d = Js.lookup_own k d.
Proof.
  unfold Durable.find_key. induction d as [|[k' v'] d IH]; simpl; [reflexivity|].
  unfold Durable.key_is at 1. simpl. destruct (String.eqb k k'); [reflexivity | exact IH].
Qed.

Lemma upsert_put k r d : Durable.upsert k r d = Js.put k r d.
Proof.
  induction d as [|[k' v'] d IH]; simpl; [reflexivity|].
  unfold Durable.key_is. simpl. destruct (String.eqb k k'); [reflexivity | now rewrite IH].
Qed.

(** Upsert keeps one document per key. *)
Lemma upsert_unique k r d : Js.unique_keys d -> Js.unique_keys (Durable.upsert k r d).
Proof. rewrite upsert_put. apply unique_keys_put. Qed.

Lemma upsert_find k r d : Durable.find_key k (Durable.upsert k r d) = Some r.
Proof. rewrite find_key_lookup, upsert_put. apply lookup_own_put_eq. Qed.

Lemma upsert_find_ne k k' r d :
  k <> k' -> Durable.find_key k' (Durable.upsert k r d) = Durable.find_key k' d.
Proof. intros H. rewrite !find_key_lookup, upsert_put. now apply lookup_own_put_ne. Qed.

Lemma upsert_count k r d :
  Js.unique_keys d -> Js.count_key k (Durable.upsert k r d) = 1%nat.
Proof. intros Hu. rewrite upsert_put, count_key_put_eq. specialize (Hu k). lia. Qed.

(** Get-by-key of the database variant while the database answers: 200
    with the stored record when there is one, 404 when there is none,
    for every key; the stores are not written. *)
Lemma durable_get_image (e : Durable.Env) (key : string) (w : Durable.World) :
  Durable.db_read_ok e = true ->
  fst (Durable.get_image e key w)
  = match Durable.find_key key (Durable.db w) with
    | Some r => Responded (json 200 (BJson (Js.VRecord r)))
    | None => Responded (json 404 (BError "Image not found"))
    end
  /\ Durable.db (snd (Durable.get_image e key w)) = Durable.db w
  /\ Durable.cloud (snd (Durable.get_image e key w)) = Durable.cloud w.
Proof.
  intros Hread. run_durable. rewrite Hread. simpl.
  destruct (Durable.find_key key (Durable.db w)); simpl; auto.
Qed.

(** Delete of the database variant while the database answers, for a
    key without document: 404, nothing removed, nothing destroyed. *)
Lemma durable_delete_missing (e : Durable.Env) (key : string) (w : Durable.World) :
  Durable.db_read_ok e = true ->
  Durable.find_key key (Durable.db w) = None ->
  fst (Durable.delete_image e key w) = Responded (json 404 (BError "Image not found"))
  /\ Durable.db (snd (Durable.delete_image e key w)) = Durable.db w
  /\ Durable.cloud (snd (Durable.delete_image e key w)) = Durable.cloud w.
Proof.
  intros Hread Hnone. run_durable. rewrite Hread. simpl. rewrite Hnone. simpl. auto.
Qed.

(** What an upload with a key does once the middleware has stored the
    file, while the database answers: one upsert, and the response
    carries the document. *)
Lemma durable_upload_with_key (e : Durable.Env) (file : FilePart) (key : string)
    (w w1 : Durable.World) (f : StoredFile) :
  key <> "" ->
  Durable.db_write_ok e = true ->
  Durable.multer e {| req_file := Some file; req_imageKey := Some key |} w = (Ok (Some f), w1) ->
  Durable.post_upload e {| req_file := Some file; req_imageKey := Some key |} w
  = (Responded (json 200 (BUploaded (path f) key (Some (filename f))
                            (Some (key, Durable.record_of e f)))),
     {| Durable.db := Durable.upsert key (Durable.record_of e f) (Durable.db w);
        Durable.cloud := Durable.cloud w1;
        Durable.calls := Durable.calls w1 ++ [Durable.DbFindOneAndUpdate key] |}).
Proof.
  intros Hkey Hwrite Hmw.
  destruct (durable_multer_effect _ _ _ _ _ Hmw) as (Hdb & _).
  unfold Durable.post_upload, Durable.route, bind. rewrite Hmw.
  unfold Durable.upload_handler.
  destruct (String.eqb key "") eqn:Hk; [apply String.eqb_eq in Hk; congruence|].
  clear Hmw. run_durable. rewrite Hk. simpl. rewrite Hwrite. simpl. now rewrite Hdb.
Qed.

(** Last write wins in the collection, under every key: after two
    uploads that reached the handler while the database answered, the
    collection holds one document for the key, with the fields of the
    second upload. *)
Lemma durable_upload_twice (e1 e2 : Durable.Env) (file1 file2 : FilePart) (key : string)
    (w m1 m2 : Durable.World) (f1 f2 : StoredFile) :
  key <> "" ->
  Durable.db_write_ok e1 = true -> Durable.db_write_ok e2 = true ->
  Js.unique_keys (Durable.db w) ->
  Durable.multer e1 {| req_file := Some file1; req_imageKey := Some key |} w
  = (Ok (Some f1), m1) ->
  Durable.multer e2 {| req_file := Some file2; req_imageKey := Some key |}
    (snd (Durable.post_upload e1 {| req_file := Some file1; req_imageKey := Some key |} w))
  = (Ok (Some f2), m2) ->
  let w2 := snd (Durable.post_upload e2 {| req_file := Some file2; req_imageKey := Some key |}
                   (snd (Durable.post_upload e1
                           {| req_file := Some file1; req_imageKey := Some key |} w))) in
  Durable.find_key key (Durable.db w2) = Some (Durable.record_of e2 f2)
  /\ Js.count_key key (Durable.db w2) = 1%nat
  /\ Js.unique_keys (Durable.db w2).
Proof.
  intros Hkey Hw1 Hw2 Hu Hmw1 Hmw2 w2. subst w2.
  rewrite (durable_upload_with_key e1 file1 key w m1 f1 Hkey Hw1 Hmw1) in *. simpl in *.
  rewrite (durable_upload_with_key e2 file2 key _ m2 f2 Hkey Hw2 Hmw2). simpl.
  split; [apply upsert_find|].
  split; [apply upsert_count | apply upsert_unique]; now apply upsert_unique.
Qed.

(** The listing of the database variant while the database answers,
    for a collection with one document per key and no document under
    [__proto__]: every document is listed, under its key, with its
    record.  If moreover no key is an array index, the listing is in
    the order of the sort, newest first. *)
Lemma durable_listing (e : Durable.Env) (w : Durable.World) :
  Durable.db_read_ok e = true ->
  Js.unique_keys (Durable.db w) ->
  Durable.find_key "__proto__" (Durable.db w) = None ->
  exists images,
    fst (Durable.get_images e w) = Responded (json 200 (BImages images))
    /\ Permutation images (Durable.db w)
    /\ (forall k, Js.lookup_own k images = Durable.find_key k (Durable.db w))
    /\ (Forall (fun doc => Js.is_index doc = false) (Durable.db w) ->
        images = sort_by Durable.newer_first (Durable.db w)
        /\ Sorted (fun a b => Durable.newer_first a b = true) images).
Proof.
  intros Hread Hu Hproto.
  pose proof (sort_by_perm Durable.newer_first (Durable.db w)) as Hperm.
  assert (Hu' : Js.unique_keys (sort_by Durable.newer_first (Durable.db w))).
  { eapply unique_keys_perm; [symmetry; exact Hperm | exact Hu]. }
  assert (Hproto' : Js.lookup_own "__proto__" (sort_by Durable.newer_first (Durable.db w)) = None).
  { apply lookup_own_count. rewrite (count_key_perm _ _ _ Hperm).
    apply lookup_own_count. now rewrite <- find_key_lookup. }
  exists (Js.ordered (sort_by Durable.newer_first (Durable.db w))).
  split; [|split; [|split]].
  - run_durable. rewrite Hread. simpl. unfold Js.entries.
    now rewrite rebuild_own_props.
  - rewrite ordered_perm. exact Hperm.
  - intros k. rewrite lookup_ordered by exact Hu'. rewrite find_key_lookup.
    destruct (Js.lookup_own k (Durable.db w)) as [v|] eqn:Hk.
    + apply lookup_own_in; [exact Hu'|].
      eapply Permutation_in; [symmetry; exact Hperm|]. now apply lookup_own_Some_in.
    + apply lookup_own_count. rewrite (count_key_perm _ _ _ Hperm).
      now apply lookup_own_count.
  - intros Hnoidx.
    assert (Hnoidx' : Forall (fun doc => Js.is_index doc = false)
                        (sort_by Durable.newer_first (Durable.db w))).
    { eapply Permutation_Forall; [symmetry; exact Hperm | exact Hnoidx]. }
    rewrite ordered_without_index by exact Hnoidx'.
    split; [reflexivity|]. apply sort_by_sorted. apply newer_first_total.
Qed.

End durable_general.

(** ** Get by key *)

Section get_by_key.

(** C7, at the input where the flat-file variant departs from it.  On
    a server that holds no record at all, [GET /api/images/constructor]
    is answered 200: the test [imageData[key]] finds the member that
    every object inherits.  The database variant answers 404 for the
    same key. *)
Theorem get_image_of_inherited_name :
  Js.own "constructor" (Flat.imageData Sample.flat_empty) = None
  /\ Flat.get_image "constructor" Sample.flat_empty
     = (Responded (json 200 (BJson (Js.VBuiltin "constructor"))), Sample.flat_empty)
  /\ fst (Durable.get_image Sample.durable_env "constructor" Sample.durable_empty)
     = Responded (json 404 (BError "Image not found")).
Proof. repeat split; vm_compute; reflexivity. Qed.

End get_by_key.

(** ** Deletion of a key without record *)

Section delete_missing.

(** C6, at the input where the flat-file variant departs from it.  On
    a server that holds no record at all, [DELETE
    /api/images/constructor] takes the branch of a found record, reads
    [url] off the inherited member, and [path.basename(undefined)]
    throws: the request ends in the 500 of Express and not in 404.  The
    stores are unchanged.  The database variant answers 404. *)
Theorem delete_image_of_inherited_name :
  Js.own "constructor" (Flat.imageData Sample.flat_empty) = None
  /\ Flat.delete_image Sample.flat_env "constructor" Sample.flat_empty
     = (Failed (TypeError Flat.path_argument_error), Sample.flat_empty)
  /\ status (http_response
               (fst (Flat.delete_image Sample.flat_env "constructor" Sample.flat_empty)))
     = 500%Z
  /\ fst (Durable.delete_image Sample.durable_env "constructor" Sample.durable_empty)
     = Responded (json 404 (BError "Image not found")).
Proof. repeat split; vm_compute; reflexivity. Qed.

End delete_missing.

(** ** Deletion of a stored record *)

Section delete_found.

(** The database variant, every remote call succeeding: the asset is
    destroyed, then the document removed, and the key reads as absent
    afterwards. *)
Lemma durable_delete_found (e : Durable.Env) (w : Durable.World) (key : string)
    (r : Image.t) (p : string) :
  Durable.db_read_ok e = true -> Durable.db_write_ok e = true ->
  Durable.destroy_ok e = true ->
  Durable.find_key key (Durable.db w) = Some r ->
  Durable.has_publicId r = Some p ->
  Durable.delete_image e key w
  = (Responded (json 200 (BSuccess "Image deleted successfully")),
     {| Durable.db := Durable.remove_first key (Durable.db w);
        Durable.cloud := delete p (Durable.cloud w);
        Durable.calls := ((Durable.calls w ++ [Durable.DbFindOne key])
                          ++ [Durable.CloudDestroy p]) ++ [Durable.DbDeleteOne key] |}).
Proof.
  intros Hread Hwrite Hdestroy Hfind Hpid.
  run_durable. rewrite Hread. simpl. rewrite Hfind. simpl. rewrite Hpid. simpl.
  rewrite Hdestroy. simpl. now rewrite Hwrite.
Qed.

Lemma remove_first_find (key : string) (d : list (string * Image.t)) :
  Js.unique_keys d -> Durable.find_key key (Durable.remove_first key d) = None.
Proof.
  intros Hu. rewrite find_key_lookup. apply lookup_own_count.
  induction d as [|[k' v'] d IH]; simpl; [reflexivity|].
  unfold Durable.key_is at 1. simpl.
  destruct (String.eqb key k') eqn:Hk.
  - specialize (Hu key). unfold Js.count_key in *. simpl in Hu. rewrite Hk in Hu.
    simpl in Hu. lia.
  - unfold Js.count_key in *. simpl. rewrite Hk. apply IH.
    intros k0. specialize (Hu k0). unfold Js.count_key in *. simpl in Hu.
    destruct (String.eqb k0 k'); simpl in Hu; lia.
Qed.

(** The flat-file variant, the file being there and the disk
    cooperating: the file is unlinked, then the property deleted and
    the object saved. *)
Lemma flat_delete_found_ok (e : Flat.Env) (w : Flat.World) (key : string) (r : Image.t)
    (c : Flat.Content) (disk : gmap (list string) Flat.Node) :
  let filePath := Path.join (Flat.dirname e) ["uploads"; Path.basename (Image.url r)] in
  let jsonPath := Path.join (Flat.dirname e) ["imageData.json"] in
  Js.get key (Flat.imageData w) = Js.VRecord r ->
  Flat.fs w !! filePath = Some (Flat.File c) ->
  Flat.unlink_ok e = true ->
  Flat.write_result (Flat.save_ok e) jsonPath
    (Flat.JsonText (Js.entries (Js.delete key (Flat.imageData w))))
    (delete filePath (Flat.fs w)) = Ok disk ->
  Flat.delete_image e key w
  = (Responded (json 200 (BSuccess "Image deleted successfully")),
     {| Flat.imageData := Js.delete key (Flat.imageData w);
        Flat.fs := disk;
        Flat.calls := ((Flat.calls w ++ [Flat.FsExists filePath])
                       ++ [Flat.FsUnlink filePath]) ++ [Flat.FsWrite jsonPath] |}).
Proof.
  intros filePath jsonPath Hget Hfile Hok Hsave. subst filePath jsonPath.
  run_flat. rewrite Hget. simpl.
  rewrite bool_decide_eq_true_2 by eauto. simpl.
  unfold Flat.unlink_result. rewrite Hfile, Hok. simpl. now rewrite Hsave.
Qed.

Lemma delete_own (key : string) (o : Js.object) : Js.own key (Js.delete key o) = None.
Proof. apply lookup_own_remove_eq. Qed.

(** The scenario of the two variants on one ordinary key: upload a
    JPEG under [hero-1]; upload a PNG under the same key, after which
    the record shows the PNG; delete the key; the key is not found. *)
Example scenario_flat :
  let w1 := snd (Flat.post_upload Sample.flat_env
                   (Sample.upload Sample.jpeg (Some "hero-1")) Sample.flat_empty) in
  let w2 := snd (Flat.post_upload Sample.flat_env_later
                   (Sample.upload Sample.png (Some "hero-1")) w1) in
  let w3 := snd (Flat.delete_image Sample.flat_env "hero-1" w2) in
  length (Js.entries (Flat.imageData w1)) = 1%nat
  /\ (exists r, fst (Flat.get_image "hero-1" w2) = Responded (json 200 (BJson (Js.VRecord r)))
                /\ Image.mimetype r = "image/png")
  /\ fst (Flat.delete_image Sample.flat_env "hero-1" w2)
     = Responded (json 200 (BSuccess "Image deleted successfully"))
  /\ fst (Flat.get_image "hero-1" w3) = Responded (json 404 (BError "Image not found")).
Proof.
  split; [vm_compute; reflexivity|]. split; [eexists; split; vm_compute; reflexivity|].
  split; vm_compute; reflexivity.
Qed.

Example scenario_durable :
  let w1 := snd (Durable.post_upload Sample.durable_env
                   (Sample.upload Sample.jpeg (Some "hero-1")) Sample.durable_empty) in
  let w2 := snd (Durable.post_upload Sample.durable_env_later
                   (Sample.upload Sample.png (Some "hero-1")) w1) in
  let w3 := snd (Durable.delete_image Sample.durable_env "hero-1" w2) in
  length (Durable.db w1) = 1%nat
  /\ (exists r, fst (Durable.get_image Sample.durable_env "hero-1" w2)
                = Responded (json 200 (BJson (Js.VRecord r)))
                /\ Image.mimetype r = "image/png")
  /\ fst (Durable.delete_image Sample.durable_env "hero-1" w2)
     = Responded (json 200 (BSuccess "Image deleted successfully"))
  /\ fst (Durable.get_image Sample.durable_env "hero-1" w3)
     = Responded (json 404 (BError "Image not found")).
Proof.
  split; [vm_compute; reflexivity|]. split; [eexists; split; vm_compute; reflexivity|].
  split; vm_compute; reflexivity.
Qed.

End delete_found.

(** ** Deletion when the blob store refuses *)

Section delete_refused.

(** The outcome of a flat-file deletion of a stored record whose file
    is there and cannot be unlinked. *)
Lemma flat_delete_refused (e : Flat.Env) (w : Flat.World) (key : string)
    (r : Image.t) (err : JsError) :
  let filePath := Path.join (Flat.dirname e) ["uploads"; Path.basename (Image.url r)] in
  Js.own key (Flat.imageData w) = Some r ->
  is_Some (Flat.fs w !! filePath) ->
  Flat.unlink_result (Flat.unlink_ok e) filePath (Flat.fs w) = Thrown err ->
  Flat.delete_image e key w
  = (Failed err,
     {| Flat.imageData := Flat.imageData w;
        Flat.fs := Flat.fs w;
        Flat.calls := (Flat.calls w ++ [Flat.FsExists filePath]) ++ [Flat.FsUnlink filePath] |}).
Proof.
  intros filePath Hown Hpresent Hunlink. subst filePath.
  run_flat. rewrite (get_own _ _ _ Hown). simpl.
  rewrite bool_decide_eq_true_2 by exact Hpresent. simpl.
  now rewrite Hunlink.
Qed.

(** The outcome of a database deletion of a stored document whose
    asset Cloudinary refuses to destroy. *)
Lemma durable_delete_refused (e : Durable.Env) (w : Durable.World) (key : string)
    (r : Image.t) (p : string) :
  Durable.db_read_ok e = true ->
  Durable.find_key key (Durable.db w) = Some r ->
  Durable.has_publicId r = Some p ->
  Durable.destroy_ok e = false ->
  Durable.delete_image e key w
  = (Responded (json 500 (BError "Failed to delete image")),
     {| Durable.db := Durable.db w;
        Durable.cloud := Durable.cloud w;
        Durable.calls := (Durable.calls w ++ [Durable.DbFindOne key])
                         ++ [Durable.CloudDestroy p] |}).
Proof.
  intros Hread Hfind Hpid Hdestroy.
  run_durable. rewrite Hread. simpl. rewrite Hfind. simpl.
  rewrite Hpid. simpl. now rewrite Hdestroy.
Qed.

(** C2.  When a record exists for the key and the call that deletes its
    blob fails although the blob is there (flat file: the file exists
    and [unlinkSync] throws; database: [uploader.destroy] rejects), the
    request is answered with status 500 and the metadata record of the
    key is the one that was stored before: the in-process object, the
    disk (with [imageData.json]) and the collection are unchanged. *)
Theorem delete_blob_failure_keeps_record :
  (forall (e : Flat.Env) (w : Flat.World) (key : string) (r : Image.t) (err : JsError),
     Js.own key (Flat.imageData w) = Some r ->
     is_Some (Flat.fs w !! Path.join (Flat.dirname e) ["uploads"; Path.basename (Image.url r)]) ->
     Flat.unlink_result (Flat.unlink_ok e)
       (Path.join (Flat.dirname e) ["uploads"; Path.basename (Image.url r)]) (Flat.fs w)
     = Thrown err ->
     status (http_response (fst (Flat.delete_image e key w))) = 500%Z
     /\ Flat.imageData (snd (Flat.delete_image e key w)) = Flat.imageData w
     /\ Flat.fs (snd (Flat.delete_image e key w)) = Flat.fs w
     /\ Js.own key (Flat.imageData (snd (Flat.delete_image e key w))) = Some r)
  /\ (forall (e : Durable.Env) (w : Durable.World) (key : string) (r : Image.t) (p : string),
        Durable.db_read_ok e = true ->
        Durable.find_key key (Durable.db w) = Some r ->
        Durable.has_publicId r = Some p ->
        Durable.destroy_ok e = false ->
        status (http_response (fst (Durable.delete_image e key w))) = 500%Z
        /\ Durable.db (snd (Durable.delete_image e key w)) = Durable.db w
        /\ Durable.cloud (snd (Durable.delete_image e key w)) = Durable.cloud w
        /\ Durable.find_key key (Durable.db (snd (Durable.delete_image e key w))) = Some r).
Proof.
  split.
  - intros e w key r err Hown Hpresent Hunlink.
    rewrite (flat_delete_refused e w key r err Hown Hpresent Hunlink). simpl.
    auto.
  - intros e w key r p Hread Hfind Hpid Hdestroy.
    rewrite (durable_delete_refused e w key r p Hread Hfind Hpid Hdestroy). simpl.
    auto.
Qed.

End delete_refused.

Section delete_refused_instance.

Example sample_flat_hero_record :
  Js.own "hero-1" (Flat.imageData Sample.flat_hero) = Some Sample.hero_record
  /\ Flat.fs Sample.flat_hero !! Sample.hero_path = Some (Flat.File (Flat.Bytes "PNG-BYTES")).
Proof. split; vm_compute; reflexivity. Qed.

Example sample_durable_hero_record :
  Durable.db Sample.durable_hero = [("hero-1", Sample.cloud_record)]
  /\ Durable.cloud Sample.durable_hero !! "adriana-photography/abc123" = Some "PNG-BYTES".
Proof. split; vm_compute; reflexivity. Qed.

(** The disk denies the unlink of the stored file, Cloudinary rejects
    the destroy: 500 in both variants, the record stays. *)
Lemma delete_blob_failure_keeps_record_witness :
  (status (http_response (fst (Flat.delete_image Sample.flat_env_locked "hero-1" Sample.flat_hero)))
   = 500%Z
   /\ Flat.imageData (snd (Flat.delete_image Sample.flat_env_locked "hero-1" Sample.flat_hero))
      = Flat.imageData Sample.flat_hero
   /\ Flat.fs (snd (Flat.delete_image Sample.flat_env_locked "hero-1" Sample.flat_hero))
      = Flat.fs Sample.flat_hero
   /\ Js.own "hero-1"
        (Flat.imageData (snd (Flat.delete_image Sample.flat_env_locked "hero-1" Sample.flat_hero)))
      = Some Sample.hero_record)
  /\ (status (http_response
                (fst (Durable.delete_image Sample.durable_env_refusing "hero-1" Sample.durable_hero)))
      = 500%Z
      /\ Durable.db (snd (Durable.delete_image Sample.durable_env_refusing "hero-1" Sample.durable_hero))
         = Durable.db Sample.durable_hero
      /\ Durable.cloud
           (snd (Durable.delete_image Sample.durable_env_refusing "hero-1" Sample.durable_hero))
         = Durable.cloud Sample.durable_hero
      /\ Durable.find_key "hero-1"
           (Durable.db (snd (Durable.delete_image Sample.durable_env_refusing "hero-1"
                               Sample.durable_hero)))
         = Some Sample.cloud_record).
Proof.
  split.
  - apply (proj1 delete_blob_failure_keeps_record Sample.flat_env_locked Sample.flat_hero
             "hero-1" Sample.hero_record (SystemError "EACCES" Sample.hero_path)).
    + vm_compute. reflexivity.
    + exists (Flat.File (Flat.Bytes "PNG-BYTES")). vm_compute. reflexivity.
    + vm_compute. reflexivity.
  - apply (proj2 delete_blob_failure_keeps_record Sample.durable_env_refusing
             Sample.durable_hero "hero-1" Sample.cloud_record "adriana-photography/abc123");
      vm_compute; reflexivity.
Defined.

End delete_refused_instance.

(** ** Which file a deletion can unlink *)

Section unlink_scope.

Lemma unlink_result_ok (ok : bool) (p : list string)
    (f f' : gmap (list string) Flat.Node) :
  Flat.unlink_result ok p f = Ok f' ->
  f' = delete p f /\ exists c, f !! p = Some (Flat.File c).
Proof.
  unfold Flat.unlink_result. intros H.
  destruct (f !! p) as [[|c]|]; try discriminate.
  destruct ok; try discriminate. inversion H. eauto.
Qed.

(** The path handed to [existsSync] and [unlinkSync] by the deletion of
    a stored record, and the three places it can be. *)
Lemma delete_path (e : Flat.Env) (r : Image.t) :
  Path.join (Flat.dirname e) ["uploads"; Path.basename (Image.url r)]
  = if String.eqb (Path.basename (Image.url r)) ""
       || String.eqb (Path.basename (Image.url r)) "."
    then Flat.dirname e ++ ["uploads"]
    else if String.eqb (Path.basename (Image.url r)) ".." then Flat.dirname e
    else Flat.dirname e ++ ["uploads"; Path.basename (Image.url r)].
Proof. rewrite join_uploads by apply basename_no_sep. apply step_uploads. Qed.


(** When the key does not read as a record, the deletion leaves the
    world as it was: the handler answers 404, or throws before its
    first call. *)
Lemma flat_delete_not_record (e : Flat.Env) (w : Flat.World) (key : string) :
  (forall r, Js.get key (Flat.imageData w) <> Js.VRecord r) ->
  snd (Flat.delete_image e key w) = w.
Proof.
  intros Hget. run_flat.
  destruct (Js.get key (Flat.imageData w)) as [|s|n|t|r|name]; simpl;
    try reflexivity.
  - destruct (negb (String.eqb s "")); reflexivity.
  - destruct (negb (n =? 0)%Z); reflexivity.
  - exfalso. now apply (Hget r).
Qed.

End unlink_scope.

Section unlink_safety.




Example traversal_record_deleted :
  Path.basename (Image.url Sample.traversal_record) = "passwd"
  /\ fst (Flat.delete_image Sample.flat_env "evil" Sample.flat_tampered)
     = Responded (json 200 (BSuccess "Image deleted successfully"))
  /\ Flat.calls (snd (Flat.delete_image Sample.flat_env "evil" Sample.flat_tampered))
     = [Flat.FsExists ["srv"; "app"; "uploads"; "passwd"];
        Flat.FsWrite ["srv"; "app"; "imageData.json"]]
  /\ Flat.fs (snd (Flat.delete_image Sample.flat_env "evil" Sample.flat_tampered))
       !! ["etc"; "passwd"]
     = Some (Flat.File (Flat.Bytes "root")).
Proof. repeat split; vm_compute; reflexivity. Qed.

End unlink_safety.

(** ** Two uploads under one key *)

Section upload_twice.

(** C3, at the input where the code departs from it.  Two uploads
    under the key [__proto__] are both answered 200.  In the flat-file
    variant the assignment [imageData[imageKey] = {...}] replaces the
    prototype of [imageData] each time: no record exists for the key
    and [GET /api/images] lists nothing.  In the database variant the
    collection holds one document with the fields of the second upload,
    but the object rebuilt by [GET /api/images] loses it in the same
    way. *)
Theorem upload_twice_under_proto_key :
  let flat1 := Flat.post_upload Sample.flat_env
                 (Sample.upload Sample.png (Some "__proto__")) Sample.flat_empty in
  let flat2 := Flat.post_upload Sample.flat_env_later
                 (Sample.upload Sample.jpeg (Some "__proto__")) (snd flat1) in
  let durable1 := Durable.post_upload Sample.durable_env
                    (Sample.upload Sample.png (Some "__proto__")) Sample.durable_empty in
  let durable2 := Durable.post_upload Sample.durable_env_later
                    (Sample.upload Sample.jpeg (Some "__proto__")) (snd durable1) in
  status (http_response (fst flat1)) = 200%Z
  /\ status (http_response (fst flat2)) = 200%Z
  /\ Js.own "__proto__" (Flat.imageData (snd flat2)) = None
  /\ fst (Flat.get_images (snd flat2)) = Responded (json 200 (BImages []))
  /\ status (http_response (fst durable1)) = 200%Z
  /\ status (http_response (fst durable2)) = 200%Z
  /\ map fst (Durable.db (snd durable2)) = ["__proto__"]
  /\ fst (Durable.get_images Sample.durable_env (snd durable2))
     = Responded (json 200 (BImages [])).
Proof. repeat split; vm_compute; reflexivity. Qed.

(** The same defect seen from the listing.  From an empty store, two
    uploads under the distinct keys [hero-1] and [__proto__] are both
    answered 200, and [GET /api/images] returns one key, not two, in
    both variants. *)
Lemma list_after_upload_under_proto_key :
  let flat1 := Flat.post_upload Sample.flat_env
                 (Sample.upload Sample.png (Some "hero-1")) Sample.flat_empty in
  let flat2 := Flat.post_upload Sample.flat_env_later
                 (Sample.upload Sample.jpeg (Some "__proto__")) (snd flat1) in
  let durable1 := Durable.post_upload Sample.durable_env
                    (Sample.upload Sample.png (Some "hero-1")) Sample.durable_empty in
  let durable2 := Durable.post_upload Sample.durable_env_later
                    (Sample.upload Sample.jpeg (Some "__proto__")) (snd durable1) in
  status (http_response (fst flat1)) = 200%Z
  /\ status (http_response (fst flat2)) = 200%Z
  /\ fst (Flat.get_images (snd flat2))
     = Responded (json 200 (BImages [("hero-1", Sample.hero_record)]))
  /\ status (http_response (fst durable1)) = 200%Z
  /\ status (http_response (fst durable2)) = 200%Z
  /\ fst (Durable.get_images Sample.durable_env (snd durable2))
     = Responded (json 200 (BImages [("hero-1", Sample.cloud_record)])).
Proof. repeat split; vm_compute; reflexivity. Qed.

End upload_twice.

(** ** Round trip on ordinary keys *)

Section durable_round_trip.

(** An upload that returns a document has upserted it. *)
Lemma durable_upload_returns (e : Durable.Env) (req : UploadRequest) (w : Durable.World)
    (doc : string * Image.t) :
  returned_doc (fst (Durable.post_upload e req w)) = Some doc ->
  Durable.db (snd (Durable.post_upload e req w))
  = Durable.upsert (fst doc) (snd doc) (Durable.db w).
Proof.
  run_durable.
  destruct (req_file req) as [file|]; simpl; [|discriminate].
  destruct (fileFilter file); simpl; [|discriminate].
  destruct (Durable.fileSize <=? byte_length (content file))%Z; simpl; [discriminate|].
  destruct (Durable.uploaded e) as [[secure_url public_id]|]; simpl; [|discriminate].
  destruct (req_imageKey req) as [key|]; simpl; [|discriminate].
  destruct (String.eqb key ""); simpl; [discriminate|].
  destruct (Durable.db_write_ok e); simpl; [|discriminate].
  intros H. inversion H; subst doc. reflexivity.
Qed.

Lemma uploads_cons (e : Durable.Env) (req : UploadRequest)
    (rs : list (Durable.Env * UploadRequest)) (w : Durable.World) :
  Durable.uploads ((e, req) :: rs) w
  = (fst (Durable.post_upload e req w)
       :: fst (Durable.uploads rs (snd (Durable.post_upload e req w))),
     snd (Durable.uploads rs (snd (Durable.post_upload e req w)))).
Proof.
  simpl. destruct (Durable.post_upload e req w) as [o w1]. simpl.
  destruct (Durable.uploads rs w1) as [os w2]. reflexivity.
Qed.

(** Uploads that each return a document, under keys that are new and
    pairwise distinct, append their documents to the collection. *)
Lemma durable_uploads_append (rs : list (Durable.Env * UploadRequest)) :
  forall (w : Durable.World) (docs : list (string * Image.t)),
    map returned_doc (fst (Durable.uploads rs w)) = map Some docs ->
    Js.unique_keys (Durable.db w ++ docs) ->
    Durable.db (snd (Durable.uploads rs w)) = Durable.db w ++ docs.
Proof.
  induction rs as [|[e req] rs IH]; intros w docs Hdocs Hu.
  - destruct docs; [simpl; now rewrite app_nil_r | discriminate].
  - rewrite uploads_cons in *. simpl in *.
    destruct docs as [|[k r] docs]; [discriminate|]. simpl in Hdocs.
    inversion Hdocs as [[Hdoc Hrest]].
    assert (Hdb : Durable.db (snd (Durable.post_upload e req w)) = Durable.db w ++ [(k, r)]).
    { rewrite (durable_upload_returns e req w (k, r) Hdoc). simpl.
      rewrite upsert_put. apply put_fresh. eapply unique_keys_head. exact Hu. }
    rewrite (IH _ docs Hrest); rewrite Hdb, <- app_assoc; [reflexivity | exact Hu].
Qed.

(** Round trip on ordinary keys.  From an empty collection, after N
    uploads that each returned its document, under pairwise distinct
    keys of which none is [__proto__], the listing has N entries: the
    returned documents, each under its key. *)
Lemma durable_round_trip (rs : list (Durable.Env * UploadRequest)) (e : Durable.Env)
    (w : Durable.World) (docs : list (string * Image.t)) :
  Durable.db w = [] ->
  map returned_doc (fst (Durable.uploads rs w)) = map Some docs ->
  Js.unique_keys docs ->
  Js.lookup_own "__proto__" docs = None ->
  Durable.db_read_ok e = true ->
  exists images,
    fst (Durable.get_images e (snd (Durable.uploads rs w)))
    = Responded (json 200 (BImages images))
    /\ length images = length rs
    /\ Permutation images docs
    /\ forall k, Js.lookup_own k images = Js.lookup_own k docs.
Proof.
  intros Hempty Hdocs Hu Hproto Hread.
  assert (Hdb : Durable.db (snd (Durable.uploads rs w)) = docs).
  { rewrite (durable_uploads_append rs w docs Hdocs); rewrite Hempty; [reflexivity | exact Hu]. }
  destruct (durable_listing e (snd (Durable.uploads rs w)) Hread) as (images & Hres & Hperm & Hlook & _).
  - now rewrite Hdb.
  - now rewrite find_key_lookup, Hdb.
  - exists images. rewrite Hdb in *. split; [exact Hres|]. split; [|split; [exact Hperm|]].
    + rewrite (Permutation_length Hperm).
      apply (f_equal (@length _)) in Hdocs. rewrite !length_map in Hdocs.
      rewrite <- Hdocs. clear. revert w.
      induction rs as [|[e req] rs IH]; intros w; [reflexivity|].
      rewrite uploads_cons. simpl. now rewrite IH.
    + intros k. rewrite Hlook. apply find_key_lookup.
Qed.

End durable_round_trip.

Section flat_round_trip.

Lemma not_in_lookup (k : string) (ps : list (string * Image.t)) :
  ~ In k (map fst ps) -> Js.lookup_own k ps = None.
Proof.
  induction ps as [|[k' v'] ps IH]; simpl; [reflexivity|].
  intros Hnot. destruct (String.eqb_spec k k') as [->|Hne]; [tauto|].
  apply IH. tauto.
Qed.

(** Pairwise distinct keys, in the counting form. *)
Lemma NoDup_unique_keys (ps : list (string * Image.t)) :
  List.NoDup (map fst ps) -> Js.unique_keys ps.
Proof.
  induction ps as [|[k' v'] ps IH]; simpl; intros Hnd k.
  - unfold Js.count_key. simpl. lia.
  - apply List.NoDup_cons_iff in Hnd. destruct Hnd as [Hnot Hnd].
    unfold Js.count_key. simpl. destruct (String.eqb_spec k k') as [->|Hne]; simpl.
    + apply not_in_lookup, lookup_own_count in Hnot. unfold Js.count_key in Hnot.
      rewrite Hnot. lia.
    + apply (IH Hnd k).
Qed.

(** An upload that answers with [imageUrl] and [imageKey] has assigned,
    under that key, a record with that URL. *)
Lemma flat_upload_returns (e : Flat.Env) (req : UploadRequest) (w : Flat.World)
    (k u : string) :
  Flat.returned (fst (Flat.post_upload e req w)) = Some (k, u) ->
  exists r, Image.url r = u
            /\ Flat.imageData (snd (Flat.post_upload e req w))
               = Js.assign k r (Flat.imageData w).
Proof.
  unfold Flat.post_upload, Flat.route, bind.
  destruct (Flat.multer e req w) as [[file|err] w1] eqn:Hmw; [|discriminate].
  destruct (flat_multer_effect _ _ _ _ _ Hmw) as (Hdata & _ & _). clear Hmw.
  unfold Flat.upload_handler.
  destruct file as [f|]; [|discriminate].
  destruct (req_imageKey req) as [key|]; [|discriminate].
  destruct (String.eqb key "") eqn:Hk; [discriminate|].
  run_flat. rewrite Hdata.
  destruct (Flat.write_result _ _ _ _); simpl; [|discriminate].
  intros H. inversion H; subst. exists (Flat.record_of e f). split; reflexivity.
Qed.

Lemma flat_uploads_cons (e : Flat.Env) (req : UploadRequest)
    (rs : list (Flat.Env * UploadRequest)) (w : Flat.World) :
  Flat.uploads ((e, req) :: rs) w
  = (fst (Flat.post_upload e req w)
       :: fst (Flat.uploads rs (snd (Flat.post_upload e req w))),
     snd (Flat.uploads rs (snd (Flat.post_upload e req w)))).
Proof.
  simpl. destruct (Flat.post_upload e req w) as [o w1]. simpl.
  destruct (Flat.uploads rs w1) as [os w2]. reflexivity.
Qed.

Lemma flat_uploads_length (rs : list (Flat.Env * UploadRequest)) (w : Flat.World) :
  length (fst (Flat.uploads rs w)) = length rs.
Proof.
  revert w. induction rs as [|[e req] rs IH]; intros w; [reflexivity|].
  rewrite flat_uploads_cons. simpl. now rewrite IH.
Qed.

(** Uploads that each answer with key and URL, under keys that are new,
    pairwise distinct and not [__proto__], append their records to the
    own properties of [imageData]. *)
Lemma flat_uploads_append (rs : list (Flat.Env * UploadRequest)) :
  forall (w : Flat.World) (kus : list (string * string)),
    map Flat.returned (fst (Flat.uploads rs w)) = map Some kus ->
    List.NoDup (map fst (Js.own_props (Flat.imageData w)) ++ map fst kus) ->
    ~ In "__proto__" (map fst kus) ->
    exists docs,
      map Flat.shown docs = kus
      /\ Js.own_props (Flat.imageData (snd (Flat.uploads rs w)))
         = Js.own_props (Flat.imageData w) ++ docs.
Proof.
  induction rs as [|[e req] rs IH]; intros w kus Hkus Hnd Hproto.
  - destruct kus; [|discriminate]. exists []. simpl. now rewrite app_nil_r.
  - rewrite flat_uploads_cons in *. simpl in *.
    destruct kus as [|[k u] kus]; [discriminate|]. simpl in *.
    inversion Hkus as [[Hret Hrest]].
    destruct (flat_upload_returns e req w k u Hret) as (r & Hurl & Hdata).
    assert (Hk : k <> "__proto__") by (intros ->; tauto).
    assert (Hfresh : Js.lookup_own k (Js.own_props (Flat.imageData w)) = None).
    { apply not_in_lookup. apply List.NoDup_remove_2 in Hnd. intros Hin. apply Hnd.
      apply in_or_app. now left. }
    assert (Hown : Js.own_props (Flat.imageData (snd (Flat.post_upload e req w)))
                   = Js.own_props (Flat.imageData w) ++ [(k, r)]).
    { rewrite Hdata, assign_plain by assumption. simpl. now apply put_fresh. }
    destruct (IH (snd (Flat.post_upload e req w)) kus Hrest) as (docs & Hshown & Hdocs).
    + rewrite Hown, map_app, <- app_assoc. exact Hnd.
    + tauto.
    + exists ((k, r) :: docs). split.
      * simpl. unfold Flat.shown at 1. simpl. now rewrite Hurl, Hshown.
      * rewrite Hdocs, Hown, <- app_assoc. reflexivity.
Qed.

End flat_round_trip.

Section round_trip.

(** C5, as the code has it.  From an empty store, after N uploads that
    were each answered with success, under N pairwise distinct keys of
    which none is [__proto__], the listing has exactly N entries, one
    per key.  In the database variant the record listed under a key is
    the document that the upload under that key returned.  In the
    flat-file variant an upload returns [imageKey] and [imageUrl] only,
    and the record listed under the key has that URL. *)
Theorem round_trip_on_ordinary_keys :
  (forall (rs : list (Durable.Env * UploadRequest)) (e : Durable.Env) (w : Durable.World)
          (docs : list (string * Image.t)),
     Durable.db w = [] ->
     map returned_doc (fst (Durable.uploads rs w)) = map Some docs ->
     List.NoDup (map fst docs) ->
     ~ In "__proto__" (map fst docs) ->
     Durable.db_read_ok e = true ->
     exists images,
       fst (Durable.get_images e (snd (Durable.uploads rs w)))
       = Responded (json 200 (BImages images))
       /\ length images = length rs
       /\ Permutation images docs
       /\ forall k, Js.lookup_own k images = Js.lookup_own k docs)
  /\ (forall (rs : list (Flat.Env * UploadRequest)) (w : Flat.World)
             (kus : list (string * string)),
        Js.own_props (Flat.imageData w) = [] ->
        map Flat.returned (fst (Flat.uploads rs w)) = map Some kus ->
        List.NoDup (map fst kus) ->
        ~ In "__proto__" (map fst kus) ->
        exists images,
          fst (Flat.get_images (snd (Flat.uploads rs w)))
          = Responded (json 200 (BImages images))
          /\ length images = length rs
          /\ Permutation (map Flat.shown images) kus
          /\ forall k u, In (k, u) kus ->
               exists r, Js.lookup_own k images = Some r /\ Image.url r = u).
Proof.
  split.
  - intros rs e w docs Hempty Hdocs Hnd Hproto Hread.
    apply (durable_round_trip rs e w docs Hempty Hdocs); [| |exact Hread].
    + now apply NoDup_unique_keys.
    + now apply not_in_lookup.
  - intros rs w kus Hempty Hkus Hnd Hproto.
    destruct (flat_uploads_append rs w kus Hkus) as (docs & Hshown & Hown).
    { now rewrite Hempty. }
    { exact Hproto. }
    rewrite Hempty in Hown. simpl in Hown.
    assert (Hkeys : map fst docs = map fst kus).
    { rewrite <- Hshown, map_map. reflexivity. }
    assert (Hu : Js.unique_keys docs).
    { apply NoDup_unique_keys. now rewrite Hkeys. }
    exists (Js.ordered docs). split; [|split; [|split]].
    + unfold Flat.get_images, Flat.route. run. unfold Js.entries. now rewrite Hown.
    + rewrite (Permutation_length (ordered_perm docs)).
      rewrite <- (flat_uploads_length rs w).
      apply (f_equal (@length _)) in Hkus. rewrite !length_map in Hkus.
      rewrite Hkus, <- Hshown. now rewrite length_map.
    + rewrite <- Hshown. apply Permutation_map. apply ordered_perm.
    + intros k u Hin. rewrite <- Hshown in Hin. apply in_map_iff in Hin.
      destruct Hin as ([k' r] & Heq & Hin). unfold Flat.shown in Heq. simpl in Heq.
      inversion Heq; subst. exists r. split; [|reflexivity].
      rewrite lookup_ordered by exact Hu. now apply lookup_own_in.
Qed.

(** C5 as stated fails by design in the flat-file variant: the upload
    under [hero-1] is answered with success and returns no record,
    while the listing maps [hero-1] to one. *)
Lemma flat_upload_returns_no_record :
  status (http_response
            (fst (Flat.post_upload Sample.flat_env (Sample.upload Sample.png (Some "hero-1"))
                    Sample.flat_empty))) = 200%Z
  /\ returned_doc
       (fst (Flat.post_upload Sample.flat_env (Sample.upload Sample.png (Some "hero-1"))
               Sample.flat_empty)) = None
  /\ fst (Flat.get_images
            (snd (Flat.post_upload Sample.flat_env (Sample.upload Sample.png (Some "hero-1"))
                    Sample.flat_empty)))
     = Responded (json 200 (BImages [("hero-1", Sample.hero_record)])).
Proof. repeat split; vm_compute; reflexivity. Qed.

(** Two uploads under [hero-1] and [about-2] in each variant: two
    entries listed, matching what the uploads returned. *)
Lemma round_trip_on_ordinary_keys_witness :
  (exists images,
     fst (Durable.get_images Sample.durable_env
            (snd (Durable.uploads Sample.durable_requests Sample.durable_empty)))
     = Responded (json 200 (BImages images))
     /\ length images = length Sample.durable_requests
     /\ Permutation images
          [("hero-1", Sample.cloud_record); ("about-2", Sample.about_record_cloud)]
     /\ forall k, Js.lookup_own k images
                  = Js.lookup_own k [("hero-1", Sample.cloud_record);
                                     ("about-2", Sample.about_record_cloud)])
  /\ (exists images,
        fst (Flat.get_images (snd (Flat.uploads Sample.flat_requests Sample.flat_empty)))
        = Responded (json 200 (BImages images))
        /\ length images = length Sample.flat_requests
        /\ Permutation (map Flat.shown images)
             [("hero-1", "/uploads/image-1700000000000-42.png");
              ("about-2", "/uploads/image-1700000060000-7.jpg")]
        /\ forall k u,
             In (k, u) [("hero-1", "/uploads/image-1700000000000-42.png");
                        ("about-2", "/uploads/image-1700000060000-7.jpg")] ->
             exists r, Js.lookup_own k images = Some r /\ Image.url r = u).
Proof.
  split.
  - apply (proj1 round_trip_on_ordinary_keys Sample.durable_requests Sample.durable_env
             Sample.durable_empty
             [("hero-1", Sample.cloud_record); ("about-2", Sample.about_record_cloud)]).
    + reflexivity.
    + vm_compute. reflexivity.
    + repeat constructor; simpl; intuition discriminate.
    + simpl. intuition discriminate.
    + reflexivity.
  - apply (proj2 round_trip_on_ordinary_keys Sample.flat_requests Sample.flat_empty
             [("hero-1", "/uploads/image-1700000000000-42.png");
              ("about-2", "/uploads/image-1700000060000-7.jpg")]).
    + reflexivity.
    + vm_compute. reflexivity.
    + repeat constructor; simpl; intuition discriminate.
    + simpl. intuition discriminate.
Defined.

End round_trip.

(** ** The order of the listing *)

Section listing_order_instance.

(** C8, at the input where the code departs from it.  After an upload
    under the key [1] and a later one under the key [2], the documents
    are sorted by descending [uploadedAt] ([2] before [1]), but the
    object built from them enumerates its integer-like keys in
    ascending order: the response lists [1] before [2], the older
    record first. *)
Theorem listing_of_index_keys_is_ascending :
  let w1 := snd (Durable.post_upload Sample.durable_env
                   (Sample.upload Sample.png (Some "1")) Sample.durable_empty) in
  let w2 := snd (Durable.post_upload Sample.durable_env_later
                   (Sample.upload Sample.jpeg (Some "2")) w1) in
  map fst (sort_by Durable.newer_first (Durable.db w2)) = ["2"; "1"]
  /\ listed_instants (fst (Durable.get_images Sample.durable_env w2))
     = [1700000000005; 1700000060009]%Z
  /\ (1700000000005 < 1700000060009)%Z.
Proof. repeat split; vm_compute; reflexivity. Qed.

End listing_order_instance.

(** ** Login *)

Section login.

Lemma strict_equal_spec (v : option Auth.Json) (c : option string) :
  Auth.strict_equal v c = true <-> v = Auth.env_value c.
Proof.
  unfold Auth.env_value.
  destruct v as [[]|], c as [t|]; simpl; try (split; [discriminate | congruence]).
  - rewrite String.eqb_eq. split; congruence.
  - tauto.
Qed.

Lemma strict_equal_conj (env : Auth.ProcessEnv) (b : Auth.LoginBody) :
  Auth.strict_equal (Auth.username b) (Auth.ADMIN_USERNAME env)
    && Auth.strict_equal (Auth.password b) (Auth.ADMIN_PASSWORD env) = true
  <-> Auth.username b = Auth.env_value (Auth.ADMIN_USERNAME env)
      /\ Auth.password b = Auth.env_value (Auth.ADMIN_PASSWORD env).
Proof. rewrite andb_true_iff, !strict_equal_spec. tauto. Qed.

(** C10.  Login answers 200 exactly when the supplied username and
    password are strictly equal to the configured ones, and 401 with
    "Invalid credentials" otherwise; the stores are left as they were in
    both cases.  When neither variable is set and neither member is
    sent, all four values are [undefined], the comparisons hold and the
    login succeeds. *)
Theorem login_succeeds_iff_credentials_strictly_equal
    (env : Auth.ProcessEnv) (b : Auth.LoginBody) (w : Durable.World) :
  (Auth.username b = Auth.env_value (Auth.ADMIN_USERNAME env)
   /\ Auth.password b = Auth.env_value (Auth.ADMIN_PASSWORD env)
   -> Auth.post_login env b w
      = (Responded (json 200 (BSuccess "Authentication successful")), w))
  /\ (~ (Auth.username b = Auth.env_value (Auth.ADMIN_USERNAME env)
         /\ Auth.password b = Auth.env_value (Auth.ADMIN_PASSWORD env))
      -> Auth.post_login env b w
         = (Responded (json 401 (BDenied "Invalid credentials")), w))
  /\ (status (http_response (fst (Auth.post_login env b w))) = 200%Z
      <-> Auth.username b = Auth.env_value (Auth.ADMIN_USERNAME env)
          /\ Auth.password b = Auth.env_value (Auth.ADMIN_PASSWORD env))
  /\ Auth.post_login {| Auth.ADMIN_USERNAME := None; Auth.ADMIN_PASSWORD := None |}
       {| Auth.username := None; Auth.password := None |} w
     = (Responded (json 200 (BSuccess "Authentication successful")), w).
Proof.
  pose proof (strict_equal_conj env b) as Hspec.
  unfold Auth.post_login, Durable.route, Auth.login_handler. run.
  destruct (Auth.strict_equal (Auth.username b) (Auth.ADMIN_USERNAME env)
            && Auth.strict_equal (Auth.password b) (Auth.ADMIN_PASSWORD env)) eqn:Hcmp;
    simpl.
  - assert (Hyes := proj1 Hspec eq_refl).
    repeat split; auto; intros; tauto.
  - assert (Hno : ~ (Auth.username b = Auth.env_value (Auth.ADMIN_USERNAME env)
                     /\ Auth.password b = Auth.env_value (Auth.ADMIN_PASSWORD env))).
    { intros H. apply Hspec in H. discriminate. }
    repeat split; auto; intros; try tauto; discriminate.
Qed.

(** A body with the configured strings logs in; the stores are untouched. *)
Lemma login_succeeds_iff_credentials_strictly_equal_witness :
  Auth.post_login
    {| Auth.ADMIN_USERNAME := Some "adriana"; Auth.ADMIN_PASSWORD := Some "s3cret" |}
    {| Auth.username := Some (Auth.JString "adriana");
       Auth.password := Some (Auth.JString "s3cret") |}
    {| Durable.db := []; Durable.cloud := ∅; Durable.calls := [] |}
  = (Responded (json 200 (BSuccess "Authentication successful")),
     {| Durable.db := []; Durable.cloud := ∅; Durable.calls := [] |}).
Proof.
  refine (proj1 (login_succeeds_iff_credentials_strictly_equal
                   {| Auth.ADMIN_USERNAME := Some "adriana"; Auth.ADMIN_PASSWORD := Some "s3cret" |}
                   {| Auth.username := Some (Auth.JString "adriana");
                      Auth.password := Some (Auth.JString "s3cret") |} _) _).
  split; reflexivity.
Defined.

End login.

(** * Further properties of the code *)

(** ** The name under which the disk storage keeps a file *)

Section stored_name.

(** No dot among the characters. *)
Lemma take_to_dot_split (cs ext stem : list ascii) :
  Path.take_to_dot cs = Some (ext, stem) ->
  cs = ext ++ "."%char :: stem /\ Forall (fun c => Path.is_dot c = false) ext.
Proof.
  revert ext stem. induction cs as [|c cs IH]; simpl; intros ext stem H; [discriminate|].
  destruct (Path.is_dot c) eqn:Hc.
  - inversion H; subst. split; [|constructor].
    simpl. f_equal. unfold Path.is_dot in Hc. now apply Ascii.eqb_eq in Hc.
  - destruct (Path.take_to_dot cs) as [[ext' stem']|] eqn:Hrec; [|discriminate].
    inversion H; subst. destruct (IH _ _ eq_refl) as [-> Hext].
    split; [reflexivity | now constructor].
Qed.

Lemma take_to_dot_none (cs : list ascii) :
  Forall (fun c => Path.is_dot c = false) cs -> Path.take_to_dot cs = None.
Proof. induction 1 as [|c cs Hc _ IH]; simpl; [reflexivity | now rewrite Hc, IH]. Qed.

Lemma take_to_dot_app (ext stem : list ascii) :
  Forall (fun c => Path.is_dot c = false) ext ->
  Path.take_to_dot (ext ++ "."%char :: stem) = Some (ext, stem).
Proof. induction 1 as [|c cs Hc _ IH]; simpl; [reflexivity | now rewrite Hc, IH]. Qed.

Lemma take_segment_all (cs : list ascii) : no_sep cs -> Path.take_segment cs = cs.
Proof. induction 1 as [|c cs Hc _ IH]; simpl; [reflexivity | now rewrite Hc, IH]. Qed.

Lemma take_segment_app (cs rest : list ascii) :
  no_sep cs -> Path.take_segment (cs ++ "/"%char :: rest) = cs.
Proof. induction 1 as [|c cs Hc _ IH]; simpl; [reflexivity | now rewrite Hc, IH]. Qed.

Lemma drop_seps_no_sep (cs : list ascii) : no_sep cs -> Path.drop_seps cs = cs.
Proof. destruct 1 as [|c cs Hc _]; simpl; [reflexivity | now rewrite Hc]. Qed.

Lemma no_sep_rev (cs : list ascii) : no_sep cs -> no_sep (rev cs).
Proof. apply Forall_rev. Qed.

(** A string without separator is its own basename. *)
Lemma basename_chars_no_sep_id (cs : list ascii) :
  no_sep cs -> Path.basename_chars cs = cs.
Proof.
  intros H. unfold Path.basename_chars.
  rewrite drop_seps_no_sep by now apply no_sep_rev.
  rewrite take_segment_all by now apply no_sep_rev.
  apply rev_involutive.
Qed.

(** What [path.extname] returns: nothing, or a dot followed by
    characters among which there is neither dot nor separator. *)
Lemma extname_shape (p : string) :
  Path.extname p = ""
  \/ exists e, chars (Path.extname p) = "."%char :: e
               /\ Forall (fun c => Path.is_dot c = false) e /\ no_sep e.
Proof.
  pose proof (extname_no_sep p) as Hsep. revert Hsep. unfold Path.extname.
  destruct (Path.take_to_dot (rev (Path.basename_chars (chars p))))
    as [[ext_rev stem_rev]|] eqn:Hdot; [|now left].
  destruct stem_rev as [|c stem]; [now left|].
  destruct (String.eqb _ ".."); [now left|].
  intros Hsep. right. exists (rev ext_rev). rewrite chars_of_chars in *.
  split; [reflexivity|]. split.
  - apply Forall_rev. now destruct (take_to_dot_split _ _ _ Hdot).
  - now inversion Hsep.
Qed.

Lemma extname_without_dot (cs : list ascii) :
  no_sep cs -> Forall (fun c => Path.is_dot c = false) cs ->
  Path.extname (of_chars cs) = "".
Proof.
  intros Hsep Hdot. unfold Path.extname. rewrite chars_of_chars.
  rewrite basename_chars_no_sep_id by assumption.
  rewrite take_to_dot_none; [reflexivity | now apply Forall_rev].
Qed.

Lemma extname_of_suffix (c0 : ascii) (pre e : list ascii) :
  Path.is_dot c0 = false ->
  no_sep (c0 :: pre) -> Forall (fun c => Path.is_dot c = false) e -> no_sep e ->
  Path.extname (of_chars ((c0 :: pre) ++ "."%char :: e)) = of_chars ("."%char :: e).
Proof.
  intros Hc0 Hpre Hdot Hsep. unfold Path.extname. rewrite chars_of_chars.
  rewrite basename_chars_no_sep_id.
  2:{ apply no_sep_app; [assumption | constructor; [reflexivity | assumption]]. }
  rewrite rev_app_distr. simpl rev at 1. rewrite <- app_assoc. simpl app at 2.
  rewrite take_to_dot_app by now apply Forall_rev.
  assert (Hnot : String.eqb (of_chars ((c0 :: pre) ++ "."%char :: e)) ".." = false).
  { simpl. unfold Path.is_dot in Hc0. now rewrite Hc0. }
  rewrite Hnot, rev_involutive.
  destruct (rev pre ++ [c0]) as [|c1 stem] eqn:Hrev; [|reflexivity].
  apply app_eq_nil in Hrev. destruct Hrev as [_ Hrev]. discriminate.
Qed.

Lemma uint_string_no_dot (d : Decimal.uint) :
  Forall (fun c => Path.is_dot c = false) (chars (NilEmpty.string_of_uint d)).
Proof. induction d; simpl; constructor; auto. Qed.

Lemma number_string_no_dot (z : Z) :
  Forall (fun c => Path.is_dot c = false) (chars (number_string z)).
Proof.
  unfold number_string.
  assert (Hu : forall d, Forall (fun c => Path.is_dot c = false)
                           (chars (NilZero.string_of_uint d))).
  { intros d. destruct d; try apply uint_string_no_dot. repeat constructor. }
  destruct (Z.to_int z); simpl; [apply Hu | constructor; [reflexivity | apply Hu]].
Qed.

(** X1.  The name that the disk storage gives to an uploaded file
    starts with [image-], is a single path segment, and has the
    extension of the original name, whatever that name is. *)
Theorem storage_filename_keeps_extension (e : Flat.Env) (file : FilePart) :
  startsWith (Flat.storage_filename e file) "image-" = true
  /\ no_sep (chars (Flat.storage_filename e file))
  /\ Path.extname (Flat.storage_filename e file) = Path.extname (originalname file).
Proof.
  split.
  { unfold startsWith, Flat.storage_filename. simpl.
    now destruct (_ +:+ Path.extname (originalname file)). }
  split; [apply storage_filename_no_sep|].
  unfold Flat.storage_filename.
  set (stem := number_string (Flat.date_now e) +:+ "-" +:+ number_string (Flat.random e)).
  assert (Hstem_sep : no_sep (chars stem)).
  { subst stem. rewrite !chars_append.
    repeat apply no_sep_app; try apply number_string_no_sep; repeat constructor. }
  assert (Hstem_dot : Forall (fun c => Path.is_dot c = false) (chars stem)).
  { subst stem. rewrite !chars_append.
    repeat apply Forall_app_2; try apply number_string_no_dot; repeat constructor. }
  rewrite <- (of_chars_chars ("image" +:+ "-" +:+ stem +:+ Path.extname (originalname file))).
  rewrite !chars_append.
  change (chars "image" ++ chars "-" ++ chars stem ++ chars (Path.extname (originalname file)))
    with (("i"%char :: ("m"%char :: "a"%char :: "g"%char :: "e"%char :: "-"%char :: chars stem))
          ++ chars (Path.extname (originalname file))).
  destruct (extname_shape (originalname file)) as [Hnone | (ext & Hext & Hdot & Hsep)].
  - rewrite Hnone. simpl chars at 2. rewrite app_nil_r.
    apply extname_without_dot; repeat (constructor; [reflexivity|]); assumption.
  - rewrite Hext. rewrite extname_of_suffix; try assumption.
    + now rewrite <- Hext, of_chars_chars.
    + reflexivity.
    + repeat (constructor; [reflexivity|]). assumption.
Qed.

End stored_name.

(** ** What a successful request of the flat-file variant has done *)

Section flat_success.

Lemma basename_of_upload_url (name : string) :
  no_sep (chars name) -> name <> "" -> Path.basename ("/uploads/" +:+ name) = name.
Proof.
  intros Hsep Hne. unfold Path.basename. rewrite chars_append.
  unfold Path.basename_chars. rewrite rev_app_distr.
  change (rev (chars "/uploads/"))
    with ("/"%char :: rev (chars "/uploads")).
  destruct (rev (chars name)) as [|c cs] eqn:Hrev.
  { exfalso. apply Hne. rewrite <- (of_chars_chars name).
    rewrite <- (rev_involutive (chars name)), Hrev. reflexivity. }
  assert (Hrsep : no_sep (c :: cs)) by (rewrite <- Hrev; now apply no_sep_rev).
  assert (Hc : Path.is_sep c = false) by now inversion Hrsep.
  rewrite <- app_comm_cons. cbn [Path.drop_seps]. rewrite Hc.
  rewrite app_comm_cons, take_segment_app by assumption.
  now rewrite <- Hrev, rev_involutive, of_chars_chars.
Qed.

Lemma storage_filename_nonempty (e : Flat.Env) (file : FilePart) :
  Flat.storage_filename e file <> "".
Proof. unfold Flat.storage_filename. discriminate. Qed.

(** The middleware hands a file to the handler or throws, when the
    request carries one. *)
Lemma flat_multer_some (e : Flat.Env) (file : FilePart) (k : option string)
    (w w1 : Flat.World) (o : option StoredFile) :
  Flat.multer e {| req_file := Some file; req_imageKey := k |} w = (Ok o, w1) ->
  exists f, o = Some f.
Proof.
  unfold Flat.multer. simpl. destruct (fileFilter file); [|discriminate].
  unfold bind. destruct (Flat.handleFile e file w) as [[f|err] w']; [|discriminate].
  unfold ret. intros H. inversion H. eauto.
Qed.

(** The file object carries the name, type and size of the upload. *)
Lemma flat_multer_fields (e : Flat.Env) (file : FilePart) (k : option string)
    (w w1 : Flat.World) (f : StoredFile) :
  Flat.multer e {| req_file := Some file; req_imageKey := k |} w = (Ok (Some f), w1) ->
  file_originalname f = originalname file
  /\ file_mimetype f = mimetype file
  /\ file_size f = byte_length (content file).
Proof.
  intros H. run_flat. destruct (fileFilter file); [|discriminate].
  destruct (bool_decide (is_Some (Flat.fs w !! Path.join (Flat.dirname e) ["uploads"])));
    simpl in H.
  - destruct (Flat.fileSize <=? byte_length (content file))%Z; simpl in H; [discriminate|].
    destruct (Flat.write_result _ _ _ _); simpl in H; inversion H; simpl; auto.
  - destruct (Flat.fs w !! Path.join (Flat.dirname e) ["uploads"]); simpl in H;
      (destruct (Flat.fileSize <=? byte_length (content file))%Z; simpl in H; [discriminate|]);
      destruct (Flat.write_result _ _ _ _); simpl in H; inversion H; simpl; auto.
Qed.

(** An upload answered 200 went through the whole route: a file, a
    non-empty key, the file stored, the record assigned, the object
    saved. *)
Lemma flat_upload_200 (e : Flat.Env) (req : UploadRequest) (w : Flat.World) :
  status (http_response (fst (Flat.post_upload e req w))) = 200%Z ->
  exists file key f w1 disk,
    req = {| req_file := Some file; req_imageKey := Some key |}
    /\ key <> ""
    /\ Flat.multer e req w = (Ok (Some f), w1)
    /\ Flat.write_result (Flat.save_ok e) (Path.join (Flat.dirname e) ["imageData.json"])
         (Flat.JsonText (Js.entries (Js.assign key (Flat.record_of e f) (Flat.imageData w))))
         (Flat.fs w1) = Ok disk
    /\ Flat.post_upload e req w
       = (Responded (json 200 (BUploaded ("/uploads/" +:+ filename f) key None None)),
          {| Flat.imageData := Js.assign key (Flat.record_of e f) (Flat.imageData w);
             Flat.fs := disk;
             Flat.calls := Flat.calls w1
                           ++ [Flat.FsWrite (Path.join (Flat.dirname e) ["imageData.json"])] |}).
Proof.
  destruct req as [[file|] k].
  2:{ rewrite flat_upload_no_file. discriminate. }
  destruct (Flat.multer e {| req_file := Some file; req_imageKey := k |} w)
    as [[o|err] w1] eqn:Hmw.
  2:{ unfold Flat.post_upload, Flat.route, bind. rewrite Hmw. discriminate. }
  destruct (flat_multer_some _ _ _ _ _ _ Hmw) as [f ->].
  destruct k as [key|].
  2:{ rewrite (flat_upload_no_key e {| req_file := Some file; req_imageKey := None |}
                 w w1 f (or_introl eq_refl) Hmw). discriminate. }
  destruct (String.eqb_spec key "") as [->|Hkey].
  { rewrite (flat_upload_no_key e {| req_file := Some file; req_imageKey := Some "" |}
               w w1 f (or_intror eq_refl) Hmw). discriminate. }
  rewrite (flat_upload_with_key e file key w w1 f Hkey Hmw).
  destruct (Flat.write_result _ _ _ _) as [disk|err] eqn:Hsave; [|discriminate].
  intros _. exists file, key, f, w1, disk. auto.
Qed.

(** The state after an upload answered 200 under a key other than
    [__proto__]: the record, and the file its [url] names. *)
Lemma flat_upload_stores_blob (e : Flat.Env) (file : FilePart) (key : string)
    (w : Flat.World) :
  key <> "__proto__" ->
  status (http_response
            (fst (Flat.post_upload e {| req_file := Some file; req_imageKey := Some key |} w)))
  = 200%Z ->
  exists r,
    Js.own key (Flat.imageData
                  (snd (Flat.post_upload e
                          {| req_file := Some file; req_imageKey := Some key |} w))) = Some r
    /\ Image.url r = "/uploads/" +:+ Flat.storage_filename e file
    /\ Image.originalName r = originalname file
    /\ Image.mimetype r = mimetype file
    /\ Image.size r = byte_length (content file)
    /\ Image.uploadedAt r = Flat.clock e
    /\ Path.join (Flat.dirname e) ["uploads"; Path.basename (Image.url r)]
       = Flat.dirname e ++ ["uploads"; Flat.storage_filename e file]
    /\ Flat.fs (snd (Flat.post_upload e
                       {| req_file := Some file; req_imageKey := Some key |} w))
         !! Path.join (Flat.dirname e) ["uploads"; Path.basename (Image.url r)]
       = Some (Flat.File (Flat.Bytes (content file))).
Proof.
  intros Hproto H200.
  destruct (flat_upload_200 _ _ _ H200) as (file' & key' & f & w1 & disk & Hreq & Hkey & Hmw & Hsave & Hres).
  inversion Hreq; subst file' key'. rewrite Hres. simpl.
  destruct (flat_multer_effect _ _ _ _ _ Hmw) as (_ & _ & Hblob).
  destruct (Hblob file f eq_refl eq_refl) as [Hname Hfile].
  destruct (flat_multer_fields _ _ _ _ _ _ Hmw) as (Horig & Hmime & Hsize).
  exists (Flat.record_of e f). split; [now apply assign_own|].
  unfold Flat.record_of.
  cbn [Image.url Image.originalName Image.mimetype Image.size Image.uploadedAt].
  rewrite Hname, Horig, Hmime, Hsize.
  rewrite basename_of_upload_url
    by (apply storage_filename_no_sep || apply storage_filename_nonempty).
  assert (Hpath : Path.join (Flat.dirname e) ["uploads"; Flat.storage_filename e file]
                  = Flat.dirname e ++ ["uploads"; Flat.storage_filename e file]).
  { rewrite join_uploads by apply storage_filename_no_sep.
    rewrite <- join_one by apply storage_filename_no_sep.
    rewrite storage_filename_child. now rewrite <- app_assoc. }
  rewrite Hpath. repeat (split; [reflexivity|]).
  apply write_result_ok in Hsave. subst disk.
  rewrite lookup_insert_ne; [now rewrite <- Hname|].
  rewrite json_path. intros Heq.
  change (Flat.dirname e ++ ["uploads"; Flat.storage_filename e file])
    with (Flat.dirname e ++ ["uploads"] ++ [Flat.storage_filename e file]) in Heq.
  apply app_inv_head in Heq. discriminate.
Qed.

(** X2.  After an upload answered 200 under a key other than
    [__proto__], the record stored under the key carries the fields of
    the uploaded file, and its [url] names the file that holds the
    uploaded bytes: the path that a later deletion derives from the
    record, [path.join(__dirname, "uploads", path.basename(url))], is
    the path the storage wrote. *)
Theorem uploaded_record_points_at_blob (e : Flat.Env) (file : FilePart) (key : string)
    (w : Flat.World) :
  key <> "__proto__" ->
  status (http_response
            (fst (Flat.post_upload e {| req_file := Some file; req_imageKey := Some key |} w)))
  = 200%Z ->
  exists r,
    Js.own key (Flat.imageData
                  (snd (Flat.post_upload e
                          {| req_file := Some file; req_imageKey := Some key |} w))) = Some r
    /\ Image.url r = "/uploads/" +:+ Flat.storage_filename e file
    /\ Image.originalName r = originalname file
    /\ Image.mimetype r = mimetype file
    /\ Image.size r = byte_length (content file)
    /\ Image.uploadedAt r = Flat.clock e
    /\ Path.join (Flat.dirname e) ["uploads"; Path.basename (Image.url r)]
       = Flat.dirname e ++ ["uploads"; Flat.storage_filename e file]
    /\ Flat.fs (snd (Flat.post_upload e
                       {| req_file := Some file; req_imageKey := Some key |} w))
         !! Path.join (Flat.dirname e) ["uploads"; Path.basename (Image.url r)]
       = Some (Flat.File (Flat.Bytes (content file))).
Proof. exact (flat_upload_stores_blob e file key w). Qed.

End flat_success.

(** ** What a restart of the flat-file variant reads back *)

Section restart.

Lemma sort_by_sorted_id {A : Type} (le : A -> A -> bool) (l : list A) :
  Sorted (fun u v => le u v = true) l -> sort_by le l = l.
Proof.
  induction 1 as [|x l Hsorted IH Hhd]; simpl; [reflexivity|].
  rewrite IH. destruct Hhd as [|y l' Hxy]; simpl; [reflexivity | now rewrite Hxy].
Qed.

Lemma index_le_total (p q : string * Image.t) :
  Js.index_le p q = true \/ Js.index_le q p = true.
Proof.
  unfold Js.index_le.
  destruct (Js.array_index (fst p)), (Js.array_index (fst q)); auto.
  rewrite !N.leb_le. lia.
Qed.

Lemma filter_filter_same (f : string * Image.t -> bool) (ps : list (string * Image.t)) :
  List.filter f (List.filter f ps) = List.filter f ps.
Proof.
  induction ps as [|p ps IH]; simpl; [reflexivity|].
  destruct (f p) eqn:Hp; simpl; [now rewrite Hp, IH | exact IH].
Qed.

Lemma filter_filter_neg (f : string * Image.t -> bool) (ps : list (string * Image.t)) :
  List.filter f (List.filter (fun p => negb (f p)) ps) = [].
Proof.
  induction ps as [|p ps IH]; simpl; [reflexivity|].
  destruct (f p) eqn:Hp; simpl; [exact IH | now rewrite Hp].
Qed.

Lemma filter_Forall (f : string * Image.t -> bool) (ps : list (string * Image.t)) :
  Forall (fun p => f p = true) (List.filter f ps).
Proof.
  induction ps as [|p ps IH]; simpl; [constructor|].
  destruct (f p) eqn:Hp; [now constructor | exact IH].
Qed.

(** Enumerating the enumeration changes nothing. *)
Lemma ordered_idempotent (ps : list (string * Image.t)) :
  Js.ordered (Js.ordered ps) = Js.ordered ps.
Proof.
  unfold Js.ordered at 1.
  set (idx := sort_by Js.index_le (List.filter Js.is_index ps)).
  set (rest := List.filter (fun p => negb (Js.is_index p)) ps).
  assert (Hidx : Forall (fun p => Js.is_index p = true) idx).
  { subst idx. eapply Permutation_Forall; [symmetry; apply sort_by_perm|].
    apply filter_Forall. }
  unfold Js.ordered. fold idx. fold rest.
  rewrite !List.filter_app.
  rewrite (filter_all Js.is_index idx Hidx).
  assert (Hrest : List.filter Js.is_index rest = []).
  { subst rest. apply filter_filter_neg. }
  rewrite Hrest, app_nil_r.
  assert (Hnidx : List.filter (fun p => negb (Js.is_index p)) idx = []).
  { apply filter_none. eapply Forall_impl; [exact Hidx|]. intros p Hp. simpl in *.
    now rewrite Hp. }
  rewrite Hnidx. simpl.
  assert (Hrest' : List.filter (fun p => negb (Js.is_index p)) rest = rest).
  { subst rest. apply filter_filter_same. }
  rewrite Hrest'. f_equal.
  apply sort_by_sorted_id. subst idx. apply sort_by_sorted. apply index_le_total.
Qed.

(** The file on disk holds the listing of the object in memory. *)
Lemma saved_listing (e : Flat.Env) (o : Js.object) (disk : gmap (list string) Flat.Node) :
  disk !! Path.join (Flat.dirname e) ["imageData.json"]
  = Some (Flat.File (Flat.JsonText (Js.entries o))) ->
  Js.entries (Flat.loaded e disk) = Js.entries o
  /\ (Js.unique_keys (Js.own_props o) ->
      forall k, Js.own k (Flat.loaded e disk) = Js.own k o).
Proof.
  intros H. unfold Flat.loaded. rewrite H. unfold Js.entries, Js.own. simpl.
  split; [apply ordered_idempotent|].
  intros Hu k. unfold Js.entries. now apply lookup_ordered.
Qed.

End restart.

(** ** Persistence of the flat-file variant *)

Section persistence.

(** A deletion answered 200 found a record, unlinked its file if it
    was there, deleted the property and saved the object. *)
Lemma flat_delete_200 (e : Flat.Env) (key : string) (w : Flat.World) :
  status (http_response (fst (Flat.delete_image e key w))) = 200%Z ->
  exists r base disk,
    Js.get key (Flat.imageData w) = Js.VRecord r
    /\ ((base = Flat.fs w
         /\ Flat.fs w !! Path.join (Flat.dirname e) ["uploads"; Path.basename (Image.url r)]
            = None)
        \/ (base = delete (Path.join (Flat.dirname e) ["uploads"; Path.basename (Image.url r)])
                     (Flat.fs w)
            /\ exists c,
                 Flat.fs w !! Path.join (Flat.dirname e) ["uploads"; Path.basename (Image.url r)]
                 = Some (Flat.File c)))
    /\ Flat.write_result (Flat.save_ok e) (Path.join (Flat.dirname e) ["imageData.json"])
         (Flat.JsonText (Js.entries (Js.delete key (Flat.imageData w)))) base = Ok disk
    /\ Flat.imageData (snd (Flat.delete_image e key w)) = Js.delete key (Flat.imageData w)
    /\ Flat.fs (snd (Flat.delete_image e key w)) = disk.
Proof.
  run_flat.
  destruct (Js.get key (Flat.imageData w)) as [|s|n|t|r|name]; simpl;
    try discriminate.
  - destruct (negb (String.eqb s "")); discriminate.
  - destruct (negb (n =? 0)%Z); discriminate.
  - set (filePath := Path.join (Flat.dirname e) ["uploads"; Path.basename (Image.url r)]).
    destruct (bool_decide (is_Some (Flat.fs w !! filePath))) eqn:Hpresent; simpl.
    + destruct (Flat.unlink_result (Flat.unlink_ok e) filePath (Flat.fs w))
        as [f1|err] eqn:Hunlink; simpl; [|discriminate].
      apply unlink_result_ok in Hunlink. destruct Hunlink as [-> Hfile].
      destruct (Flat.write_result _ _ _ _) as [disk|err] eqn:Hsave; simpl; [|discriminate].
      intros _. exists r, (delete filePath (Flat.fs w)), disk. auto 10.
    + apply bool_decide_eq_false in Hpresent.
      assert (Hnone : Flat.fs w !! filePath = None).
      { destruct (Flat.fs w !! filePath) eqn:Hl; [exfalso; apply Hpresent; eauto | reflexivity]. }
      destruct (Flat.write_result _ _ _ _) as [disk|err] eqn:Hsave; simpl; [|discriminate].
      intros _. exists r, (Flat.fs w), disk. auto 10.
Qed.

(** X3.  Every upload and every deletion of the flat-file variant that
    is answered 200 leaves [imageData.json] holding exactly the listing
    of the object in memory, so that a restart of the server changes
    nothing in the answer of [GET /api/images]. *)
Theorem successful_mutation_is_persisted :
  (forall (e : Flat.Env) (req : UploadRequest) (w : Flat.World),
     status (http_response (fst (Flat.post_upload e req w))) = 200%Z ->
     Flat.fs (snd (Flat.post_upload e req w)) !! Path.join (Flat.dirname e) ["imageData.json"]
     = Some (Flat.File (Flat.JsonText
                          (Js.entries (Flat.imageData (snd (Flat.post_upload e req w))))))
     /\ fst (Flat.get_images (Flat.restart e (snd (Flat.post_upload e req w))))
        = fst (Flat.get_images (snd (Flat.post_upload e req w))))
  /\ (forall (e : Flat.Env) (key : string) (w : Flat.World),
        status (http_response (fst (Flat.delete_image e key w))) = 200%Z ->
        Flat.fs (snd (Flat.delete_image e key w)) !! Path.join (Flat.dirname e) ["imageData.json"]
        = Some (Flat.File (Flat.JsonText
                             (Js.entries (Flat.imageData (snd (Flat.delete_image e key w))))))
        /\ fst (Flat.get_images (Flat.restart e (snd (Flat.delete_image e key w))))
           = fst (Flat.get_images (snd (Flat.delete_image e key w)))).
Proof.
  assert (Hlist : forall e w,
             Flat.fs w !! Path.join (Flat.dirname e) ["imageData.json"]
             = Some (Flat.File (Flat.JsonText (Js.entries (Flat.imageData w)))) ->
             fst (Flat.get_images (Flat.restart e w)) = fst (Flat.get_images w)).
  { intros e w H. unfold Flat.get_images, Flat.route, Flat.restart. run.
    now rewrite (proj1 (saved_listing e _ _ H)). }
  split.
  - intros e req w H200.
    destruct (flat_upload_200 _ _ _ H200)
      as (file & key & f & w1 & disk & _ & _ & _ & Hsave & Hres).
    assert (Hjson : Flat.fs (snd (Flat.post_upload e req w))
                      !! Path.join (Flat.dirname e) ["imageData.json"]
                    = Some (Flat.File (Flat.JsonText
                              (Js.entries (Flat.imageData (snd (Flat.post_upload e req w))))))).
    { rewrite Hres. simpl. apply write_result_ok in Hsave. subst disk.
      apply lookup_insert_eq. }
    split; [exact Hjson | now apply Hlist].
  - intros e key w H200.
    destruct (flat_delete_200 _ _ _ H200) as (r & base & disk & _ & _ & Hsave & Hdata & Hfs).
    assert (Hjson : Flat.fs (snd (Flat.delete_image e key w))
                      !! Path.join (Flat.dirname e) ["imageData.json"]
                    = Some (Flat.File (Flat.JsonText
                              (Js.entries (Flat.imageData (snd (Flat.delete_image e key w))))))).
    { rewrite Hfs, Hdata. apply write_result_ok in Hsave. subst disk.
      apply lookup_insert_eq. }
    split; [exact Hjson | now apply Hlist].
Qed.

(** What a restart reads after a save that failed, by the place of the
    failure. *)
Lemma loaded_after_failed_save (e : Flat.Env) (o : Js.object)
    (f : gmap (list string) Flat.Node) :
  match Flat.open_result (Path.join (Flat.dirname e) ["imageData.json"]) f,
        Flat.save_fault e with
  | Thrown _, _ | Ok _, Flat.AtOpen =>
      Flat.failed_write (Flat.save_fault e) (Path.join (Flat.dirname e) ["imageData.json"])
        (Flat.JsonText (Js.entries o)) f = f
  | Ok _, Flat.Midway =>
      Flat.loaded e
        (Flat.failed_write (Flat.save_fault e) (Path.join (Flat.dirname e) ["imageData.json"])
           (Flat.JsonText (Js.entries o)) f) = Js.empty
  | Ok _, Flat.AtClose =>
      Flat.loaded e
        (Flat.failed_write (Flat.save_fault e) (Path.join (Flat.dirname e) ["imageData.json"])
           (Flat.JsonText (Js.entries o)) f)
      = {| Js.own_props := Js.entries o; Js.proto := None |}
  end.
Proof.
  unfold Flat.failed_write, Flat.loaded.
  destruct (Flat.open_result _ f), (Flat.save_fault e); try reflexivity;
    now rewrite lookup_insert_eq.
Qed.

(** X4.  When the save of [imageData.json] fails during an upload, the
    request is answered 500 [File upload failed], yet the record is in
    the object in memory and is served by [GET /api/images/:key].  What
    the next restart reads depends on where the write failed: when the
    file could not be opened, what it would have read before the
    request, so that the record is lost; when the write failed after
    the open, which truncates the file, nothing at all, so that every
    record is lost; when it failed on closing the file, the object
    with the record. *)
Theorem upload_with_failed_save (e : Flat.Env) (file : FilePart) (key : string)
    (w w1 : Flat.World) (f : StoredFile) (err : JsError) :
  key <> "" -> key <> "__proto__" ->
  Flat.multer e {| req_file := Some file; req_imageKey := Some key |} w = (Ok (Some f), w1) ->
  Flat.write_result (Flat.save_ok e) (Path.join (Flat.dirname e) ["imageData.json"])
    (Flat.JsonText (Js.entries (Js.assign key (Flat.record_of e f) (Flat.imageData w))))
    (Flat.fs w1) = Thrown err ->
  fst (Flat.post_upload e {| req_file := Some file; req_imageKey := Some key |} w)
  = Responded (json 500 (BError "File upload failed"))
  /\ fst (Flat.get_image key
            (snd (Flat.post_upload e {| req_file := Some file; req_imageKey := Some key |} w)))
     = Responded (json 200 (BJson (Js.VRecord (Flat.record_of e f))))
  /\ Flat.loaded e
       (Flat.fs (snd (Flat.post_upload e
                        {| req_file := Some file; req_imageKey := Some key |} w)))
     = match Flat.open_result (Path.join (Flat.dirname e) ["imageData.json"]) (Flat.fs w1),
             Flat.save_fault e with
       | Thrown _, _ | Ok _, Flat.AtOpen => Flat.loaded e (Flat.fs w)
       | Ok _, Flat.Midway => Js.empty
       | Ok _, Flat.AtClose =>
           {| Js.own_props :=
                Js.entries (Js.assign key (Flat.record_of e f) (Flat.imageData w));
              Js.proto := None |}
       end.
Proof.
  intros Hkey Hproto Hmw Hsave.
  rewrite (flat_upload_with_key e file key w w1 f Hkey Hmw), Hsave. simpl.
  destruct (flat_multer_effect _ _ _ _ _ Hmw) as (_ & Hjson & _).
  rewrite <- json_path in Hjson.
  split; [reflexivity|]. split.
  - rewrite (flat_get_image_found key _ (Flat.record_of e f)); [reflexivity|].
    simpl. now apply assign_own.
  - pose proof (loaded_after_failed_save e
                  (Js.assign key (Flat.record_of e f) (Flat.imageData w)) (Flat.fs w1)) as H.
    destruct (Flat.open_result _ (Flat.fs w1)), (Flat.save_fault e);
      try exact H; rewrite H; unfold Flat.loaded; now rewrite Hjson.
Qed.

End persistence.

(** ** Deletion in the flat-file variant *)

Section flat_deletion.

Lemma json_is_not_delete_path (e : Flat.Env) (r : Image.t) :
  Path.join (Flat.dirname e) ["uploads"; Path.basename (Image.url r)]
  <> Path.join (Flat.dirname e) ["imageData.json"].
Proof.
  rewrite delete_path, json_path.
  destruct (_ || _); [|destruct (String.eqb _ "..")]; intros H.
  - apply app_inv_head in H. discriminate.
  - apply (f_equal (@length _)) in H. rewrite length_app in H. simpl in H. lia.
  - apply app_inv_head in H. discriminate.
Qed.

(** X5.  When the save of [imageData.json] fails during the deletion of
    a stored record whose file has been unlinked, the request ends in
    an error (500), the file is gone and the record is gone from
    memory.  What the next restart reads depends on where the write
    failed: when the file could not be opened, what it would have read
    before the request, so that the record comes back without its
    blob; when the write failed after the open, which truncates the
    file, nothing at all, so that every record is lost; when it failed
    on closing the file, the object without the record. *)
Theorem delete_with_failed_save (e : Flat.Env) (w : Flat.World) (key : string)
    (r : Image.t) (c : Flat.Content) (err : JsError) :
  Js.own key (Flat.imageData w) = Some r ->
  Flat.fs w !! Path.join (Flat.dirname e) ["uploads"; Path.basename (Image.url r)]
  = Some (Flat.File c) ->
  Flat.unlink_ok e = true ->
  Flat.write_result (Flat.save_ok e) (Path.join (Flat.dirname e) ["imageData.json"])
    (Flat.JsonText (Js.entries (Js.delete key (Flat.imageData w))))
    (delete (Path.join (Flat.dirname e) ["uploads"; Path.basename (Image.url r)]) (Flat.fs w))
  = Thrown err ->
  fst (Flat.delete_image e key w) = Failed err
  /\ status (http_response (fst (Flat.delete_image e key w))) = 500%Z
  /\ Flat.fs (snd (Flat.delete_image e key w))
       !! Path.join (Flat.dirname e) ["uploads"; Path.basename (Image.url r)] = None
  /\ Js.own key (Flat.imageData (snd (Flat.delete_image e key w))) = None
  /\ Flat.loaded e (Flat.fs (snd (Flat.delete_image e key w)))
     = match Flat.open_result (Path.join (Flat.dirname e) ["imageData.json"])
               (delete (Path.join (Flat.dirname e) ["uploads"; Path.basename (Image.url r)])
                  (Flat.fs w)),
             Flat.save_fault e with
       | Thrown _, _ | Ok _, Flat.AtOpen => Flat.loaded e (Flat.fs w)
       | Ok _, Flat.Midway => Js.empty
       | Ok _, Flat.AtClose =>
           {| Js.own_props := Js.entries (Js.delete key (Flat.imageData w));
              Js.proto := None |}
       end.
Proof.
  intros Hown Hfile Hok Hsave.
  set (filePath := Path.join (Flat.dirname e) ["uploads"; Path.basename (Image.url r)]) in *.
  set (jsonPath := Path.join (Flat.dirname e) ["imageData.json"]) in *.
  assert (Hne : filePath <> jsonPath) by apply json_is_not_delete_path.
  assert (Hres : Flat.delete_image e key w
                 = (Failed err,
                    {| Flat.imageData := Js.delete key (Flat.imageData w);
                       Flat.fs := Flat.failed_write (Flat.save_fault e) jsonPath
                                    (Flat.JsonText
                                       (Js.entries (Js.delete key (Flat.imageData w))))
                                    (delete filePath (Flat.fs w));
                       Flat.calls :=
                         ((Flat.calls w ++ [Flat.FsExists filePath])
                          ++ [Flat.FsUnlink filePath])
                         ++ [Flat.FsWrite jsonPath] |})).
  { subst filePath jsonPath. run_flat. rewrite (get_own _ _ _ Hown). simpl.
    rewrite bool_decide_eq_true_2 by eauto. simpl.
    unfold Flat.unlink_result. rewrite Hfile, Hok. simpl. now rewrite Hsave. }
  rewrite Hres. simpl.
  split; [reflexivity|]. split; [reflexivity|]. split.
  { rewrite failed_write_ne by (intros H; apply Hne; now symmetry). apply lookup_delete_eq. }
  split; [apply delete_own|].
  pose proof (loaded_after_failed_save e (Js.delete key (Flat.imageData w))
                (delete filePath (Flat.fs w))) as H.
  fold jsonPath in H.
  destruct (Flat.open_result jsonPath (delete filePath (Flat.fs w))), (Flat.save_fault e);
    try exact H; rewrite H; unfold Flat.loaded; fold jsonPath;
    now rewrite lookup_delete_ne by exact Hne.
Qed.

(** X6.  The deletion of a stored record whose file is no longer on the
    disk succeeds all the same, when the disk accepts the save: no
    unlink is attempted, the record is removed from memory and the
    object is saved. *)
Theorem delete_tolerates_missing_file (e : Flat.Env) (w : Flat.World) (key : string)
    (r : Image.t) :
  Js.own key (Flat.imageData w) = Some r ->
  Flat.fs w !! Path.join (Flat.dirname e) ["uploads"; Path.basename (Image.url r)] = None ->
  Flat.save_ok e = true ->
  Flat.fs w !! Flat.dirname e = Some Flat.Dir ->
  Flat.fs w !! Path.join (Flat.dirname e) ["imageData.json"] <> Some Flat.Dir ->
  Flat.delete_image e key w
  = (Responded (json 200 (BSuccess "Image deleted successfully")),
     {| Flat.imageData := Js.delete key (Flat.imageData w);
        Flat.fs := <[Path.join (Flat.dirname e) ["imageData.json"]
                     := Flat.File (Flat.JsonText
                                     (Js.entries (Js.delete key (Flat.imageData w))))]>
                     (Flat.fs w);
        Flat.calls :=
          (Flat.calls w
           ++ [Flat.FsExists (Path.join (Flat.dirname e)
                                ["uploads"; Path.basename (Image.url r)])])
          ++ [Flat.FsWrite (Path.join (Flat.dirname e) ["imageData.json"])] |})
  /\ Js.own key (Js.delete key (Flat.imageData w)) = None.
Proof.
  intros Hown Hnone Hok Hparent Hjson. split; [|apply delete_own].
  assert (Hsave : Flat.write_result (Flat.save_ok e)
                    (Path.join (Flat.dirname e) ["imageData.json"])
                    (Flat.JsonText (Js.entries (Js.delete key (Flat.imageData w))))
                    (Flat.fs w)
                  = Ok (<[Path.join (Flat.dirname e) ["imageData.json"]
                          := Flat.File (Flat.JsonText
                                          (Js.entries (Js.delete key (Flat.imageData w))))]>
                          (Flat.fs w))).
  { unfold Flat.write_result, Flat.open_result.
    replace (removelast (Path.join (Flat.dirname e) ["imageData.json"]))
      with (Flat.dirname e) by (rewrite json_path; now rewrite removelast_last).
    rewrite Hparent.
    destruct (Flat.fs w !! Path.join (Flat.dirname e) ["imageData.json"]) as [[|c]|];
      [congruence | now rewrite Hok | now rewrite Hok]. }
  run_flat. rewrite (get_own _ _ _ Hown). simpl.
  rewrite bool_decide_eq_false_2.
  2:{ rewrite Hnone. intros [x Hx]. discriminate. }
  simpl. now rewrite Hsave.
Qed.

End flat_deletion.

(** ** A deleted key is not found *)

Section deleted_key.

Lemma unique_keys_remove (k : string) (ps : list (string * Image.t)) :
  Js.unique_keys ps -> Js.unique_keys (Js.remove k ps).
Proof.
  intros Hu k0. specialize (Hu k0). unfold Js.count_key, Js.remove in *.
  induction ps as [|[k' v'] ps IH]; simpl in *; [lia|].
  destruct (String.eqb k k'); simpl.
  - destruct (String.eqb k0 k'); simpl in Hu; apply IH; lia.
  - destruct (String.eqb k0 k'); simpl in *; [|now apply IH].
    assert (length (List.filter (fun p => String.eqb k0 (fst p))
                      (List.filter (fun p => negb (String.eqb k (fst p))) ps)) = 0)%nat; [|lia].
    assert (Hz : (length (List.filter (fun p => String.eqb k0 (fst p)) ps) = 0)%nat) by lia.
    clear -Hz. induction ps as [|[k1 v1] ps IH]; simpl in *; [reflexivity|].
    destruct (String.eqb k0 k1) eqn:Hk; simpl in Hz; [discriminate|].
    destruct (negb (String.eqb k k1)); simpl; [rewrite Hk|]; now apply IH.
Qed.

(** A deletion of the database variant answered 200 has removed the
    document of the key. *)
Lemma durable_delete_200 (e : Durable.Env) (key : string) (w : Durable.World) :
  status (http_response (fst (Durable.delete_image e key w))) = 200%Z ->
  Durable.db (snd (Durable.delete_image e key w)) = Durable.remove_first key (Durable.db w)
  /\ exists r, Durable.find_key key (Durable.db w) = Some r.
Proof.
  run_durable.
  destruct (Durable.db_read_ok e); simpl; [|discriminate].
  destruct (Durable.find_key key (Durable.db w)) as [r|]; simpl; [|discriminate].
  destruct (Durable.has_publicId r) as [p|]; simpl.
  - destruct (Durable.destroy_ok e); simpl; [|discriminate].
    destruct (Durable.db_write_ok e); simpl; [|discriminate]. eauto.
  - destruct (Durable.db_write_ok e); simpl; [|discriminate]. eauto.
Qed.

(** X7.  After a deletion answered 200, a get of the same key answers
    404 "Image not found": in the flat-file variant for every key that
    is not a name of [Object.prototype] (on an object whose prototype
    was never replaced), in the database variant for every key of a
    collection with one document per key, while the database answers. *)
Theorem deleted_key_is_not_found :
  (forall (e : Flat.Env) (key : string) (w : Flat.World),
     Js.proto (Flat.imageData w) = None ->
     existsb (String.eqb key) Js.object_prototype_names = false ->
     status (http_response (fst (Flat.delete_image e key w))) = 200%Z ->
     fst (Flat.get_image key (snd (Flat.delete_image e key w)))
     = Responded (json 404 (BError "Image not found")))
  /\ (forall (e e' : Durable.Env) (key : string) (w : Durable.World),
        Js.unique_keys (Durable.db w) ->
        Durable.db_read_ok e' = true ->
        status (http_response (fst (Durable.delete_image e key w))) = 200%Z ->
        fst (Durable.get_image e' key (snd (Durable.delete_image e key w)))
        = Responded (json 404 (BError "Image not found"))).
Proof.
  split.
  - intros e key w Hproto Hnames H200.
    destruct (flat_delete_200 _ _ _ H200) as (r & base & disk & _ & _ & _ & Hdata & _).
    rewrite flat_get_image_missing; [reflexivity|].
    rewrite Hdata. apply get_undefined; [apply delete_own | exact Hproto | exact Hnames].
  - intros e e' key w Hu Hread H200.
    destruct (durable_delete_200 _ _ _ H200) as [Hdb _].
    rewrite (proj1 (durable_get_image e' key _ Hread)), Hdb.
    now rewrite remove_first_find.
Qed.

End deleted_key.

(** ** Upload, then deletion *)

Section upload_then_delete.

Lemma write_result_ok_parent (ok : bool) (p : list string) (c : Flat.Content)
    (f f' : gmap (list string) Flat.Node) :
  Flat.write_result ok p c f = Ok f' -> f !! removelast p = Some Flat.Dir.
Proof.
  unfold Flat.write_result, Flat.open_result. intros H.
  destruct (f !! p) as [[|c0]|]; try discriminate;
    destruct (f !! removelast p) as [[|c1]|]; try discriminate; reflexivity.
Qed.

Lemma write_result_over_file (p : list string) (c c0 : Flat.Content)
    (f : gmap (list string) Flat.Node) :
  f !! p = Some (Flat.File c0) -> f !! removelast p = Some Flat.Dir ->
  Flat.write_result true p c f = Ok (<[p := Flat.File c]> f).
Proof.
  intros Hp Hparent. unfold Flat.write_result, Flat.open_result. now rewrite Hp, Hparent.
Qed.

(** X8.  A deletion that follows an upload answered 200 (under a key
    other than [__proto__], the disk permitting the unlink and the
    save) is answered 200 and removes both what the upload created:
    the file that the storage wrote is gone, and so is the record. *)
Theorem upload_then_delete_removes_blob (e e2 : Flat.Env) (file : FilePart) (key : string)
    (w : Flat.World) :
  key <> "__proto__" ->
  Flat.dirname e2 = Flat.dirname e ->
  Flat.unlink_ok e2 = true -> Flat.save_ok e2 = true ->
  status (http_response
            (fst (Flat.post_upload e {| req_file := Some file; req_imageKey := Some key |} w)))
  = 200%Z ->
  fst (Flat.delete_image e2 key
         (snd (Flat.post_upload e {| req_file := Some file; req_imageKey := Some key |} w)))
  = Responded (json 200 (BSuccess "Image deleted successfully"))
  /\ Flat.fs (snd (Flat.delete_image e2 key
                     (snd (Flat.post_upload e
                             {| req_file := Some file; req_imageKey := Some key |} w))))
       !! (Flat.dirname e ++ ["uploads"; Flat.storage_filename e file]) = None
  /\ Js.own key
       (Flat.imageData
          (snd (Flat.delete_image e2 key
                  (snd (Flat.post_upload e
                          {| req_file := Some file; req_imageKey := Some key |} w))))) = None.
Proof.
  intros Hproto Hdir Hunlink Hsaveok H200.
  destruct (flat_upload_stores_blob e file key w Hproto H200)
    as (r & Hown & Hurl & _ & _ & _ & _ & Hpath & Hblob).
  destruct (flat_upload_200 _ _ _ H200)
    as (file' & key' & f & wm & disk & Hreq & Hkey & Hmw & Hsave & Hres).
  set (w1 := snd (Flat.post_upload e {| req_file := Some file; req_imageKey := Some key |} w))
    in *.
  pose proof (json_is_not_delete_path e r) as Hne.
  set (filePath := Path.join (Flat.dirname e) ["uploads"; Path.basename (Image.url r)]) in *.
  change (Path.join (Flat.dirname e) ["imageData.json"])
    with (Flat.dirname e ++ ["imageData.json"]) in *.
  set (jsonPath := Flat.dirname e ++ ["imageData.json"]) in *.
  assert (Hfs : Flat.fs w1 = disk) by (subst w1; now rewrite Hres).
  assert (Hparent : Flat.fs wm !! Flat.dirname e = Some Flat.Dir).
  { apply write_result_ok_parent in Hsave. subst jsonPath.
    now rewrite removelast_last in Hsave. }
  apply write_result_ok in Hsave.
  assert (Hne_dir : filePath <> Flat.dirname e).
  { rewrite Hpath. intros H. apply (f_equal (@length _)) in H.
    rewrite length_app in H. simpl in H. lia. }
  assert (Hne_json : jsonPath <> Flat.dirname e).
  { subst jsonPath. intros H. apply (f_equal (@length _)) in H.
    rewrite length_app in H. simpl in H. lia. }
  assert (Hwrite : Flat.write_result (Flat.save_ok e2)
                     (Path.join (Flat.dirname e2) ["imageData.json"])
                     (Flat.JsonText (Js.entries (Js.delete key (Flat.imageData w1))))
                     (delete (Path.join (Flat.dirname e2)
                                ["uploads"; Path.basename (Image.url r)]) (Flat.fs w1))
                   = Ok (<[jsonPath := Flat.File (Flat.JsonText
                                         (Js.entries (Js.delete key (Flat.imageData w1))))]>
                           (delete filePath (Flat.fs w1)))).
  { rewrite Hsaveok, Hdir. fold filePath.
    change (Path.join (Flat.dirname e) ["imageData.json"]) with jsonPath.
    eapply write_result_over_file.
    - rewrite lookup_delete_ne by exact Hne. rewrite Hfs, Hsave. apply lookup_insert_eq.
    - subst jsonPath. rewrite removelast_last.
      rewrite lookup_delete_ne by exact Hne_dir.
      rewrite Hfs, Hsave. rewrite lookup_insert_ne; [exact Hparent|exact Hne_json]. }
  rewrite (flat_delete_found_ok e2 w1 key r (Flat.Bytes (content file)) _
             (get_own _ _ _ Hown) (eq_ind_r (fun d => Flat.fs w1 !! Path.join d _ = _) Hblob Hdir)
             Hunlink Hwrite).
  simpl. split; [reflexivity|]. split; [|apply delete_own].
  rewrite <- Hpath.
  rewrite lookup_insert_ne by (intros H; apply Hne; now symmetry).
  apply lookup_delete_eq.
Qed.

End upload_then_delete.

(** ** What an upload leaves in place *)

Section upload_keeps.









End upload_keeps.

(** ** The database variant when a remote call fails *)

Section durable_failures.

(** What an upload of the database variant answered 200 has done. *)
Lemma durable_upload_200 (e : Durable.Env) (req : UploadRequest) (w : Durable.World) :
  status (http_response (fst (Durable.post_upload e req w))) = 200%Z ->
  exists file key secure_url public_id,
    req = {| req_file := Some file; req_imageKey := Some key |}
    /\ key <> ""
    /\ Durable.uploaded e = Some (secure_url, public_id)
    /\ let r := {| Image.url := secure_url;
                   Image.publicId := Some public_id;
                   Image.originalName := originalname file;
                   Image.size := byte_length (content file);
                   Image.mimetype := mimetype file;
                   Image.uploadedAt := Durable.clock e |} in
       fst (Durable.post_upload e req w)
       = Responded (json 200 (BUploaded secure_url key (Some public_id) (Some (key, r))))
       /\ Durable.db (snd (Durable.post_upload e req w)) = Durable.upsert key r (Durable.db w)
       /\ Durable.cloud (snd (Durable.post_upload e req w))
          = <[public_id := content file]> (Durable.cloud w).
Proof.
  destruct req as [[file|] [key|]]; run_durable; try discriminate;
    destruct (fileFilter file); simpl; try discriminate;
    destruct (Durable.fileSize <=? byte_length (content file))%Z; simpl; try discriminate;
    destruct (Durable.uploaded e) as [[secure_url public_id]|]; simpl; try discriminate.
  destruct (String.eqb_spec key "") as [->|Hkey]; simpl; [discriminate|].
  destruct (Durable.db_write_ok e); simpl; [|discriminate].
  intros _. exists file, key, secure_url, public_id. repeat split; auto.
Qed.

(** X10.  An upload of the database variant whose file Cloudinary has
    stored, but whose document the database refuses to write, is
    answered 500 [File upload failed]: the collection is as before and
    the asset stays in Cloudinary, with no document that refers to it
    written by this request. *)
Theorem upload_with_failed_database_write (e : Durable.Env) (file : FilePart) (key : string)
    (w w1 : Durable.World) (f : StoredFile) :
  key <> "" ->
  Durable.db_write_ok e = false ->
  Durable.multer e {| req_file := Some file; req_imageKey := Some key |} w = (Ok (Some f), w1) ->
  fst (Durable.post_upload e {| req_file := Some file; req_imageKey := Some key |} w)
  = Responded (json 500 (BError "File upload failed"))
  /\ Durable.db (snd (Durable.post_upload e
                        {| req_file := Some file; req_imageKey := Some key |} w))
     = Durable.db w
  /\ Durable.cloud (snd (Durable.post_upload e
                           {| req_file := Some file; req_imageKey := Some key |} w))
       !! filename f = Some (content file).
Proof.
  intros Hkey Hwrite Hmw.
  destruct (durable_multer_effect _ _ _ _ _ Hmw) as (Hdb & Hcloud).
  specialize (Hcloud file f eq_refl eq_refl).
  unfold Durable.post_upload, Durable.route, bind. rewrite Hmw.
  unfold Durable.upload_handler, try_catch, bind, Durable.findOneAndUpdate, bind,
    Durable.log, modify. simpl.
  destruct (String.eqb_spec key "") as [->|_]; [congruence|].
  rewrite Hwrite. simpl. auto.
Qed.

(** X11.  A deletion of the database variant whose asset Cloudinary has
    destroyed, but whose document the database refuses to delete, is
    answered 500 [Failed to delete image]: the document stays in the
    collection while the asset it names is gone. *)
Theorem delete_with_failed_database_write (e : Durable.Env) (key : string)
    (w : Durable.World) (r : Image.t) (p : string) :
  Durable.db_read_ok e = true ->
  Durable.destroy_ok e = true ->
  Durable.db_write_ok e = false ->
  Durable.find_key key (Durable.db w) = Some r ->
  Durable.has_publicId r = Some p ->
  fst (Durable.delete_image e key w) = Responded (json 500 (BError "Failed to delete image"))
  /\ Durable.db (snd (Durable.delete_image e key w)) = Durable.db w
  /\ Durable.find_key key (Durable.db (snd (Durable.delete_image e key w))) = Some r
  /\ Durable.cloud (snd (Durable.delete_image e key w)) !! p = None.
Proof.
  intros Hread Hdestroy Hwrite Hfind Hpid.
  run_durable. rewrite Hread. simpl. rewrite Hfind. simpl. rewrite Hpid. simpl.
  rewrite Hdestroy. simpl. rewrite Hwrite. simpl.
  repeat split; auto. apply lookup_delete_eq.
Qed.

(** X12.  While the database does not answer reads, the three routes
    that start with a query are answered 500 with their own message,
    and neither the collection nor Cloudinary is changed: in
    particular a deletion destroys no asset. *)
Theorem database_read_failure (e : Durable.Env) (key : string) (w : Durable.World) :
  Durable.db_read_ok e = false ->
  (fst (Durable.get_images e w) = Responded (json 500 (BError "Failed to fetch images"))
   /\ Durable.db (snd (Durable.get_images e w)) = Durable.db w
   /\ Durable.cloud (snd (Durable.get_images e w)) = Durable.cloud w)
  /\ (fst (Durable.get_image e key w) = Responded (json 500 (BError "Failed to fetch image"))
      /\ Durable.db (snd (Durable.get_image e key w)) = Durable.db w
      /\ Durable.cloud (snd (Durable.get_image e key w)) = Durable.cloud w)
  /\ (fst (Durable.delete_image e key w)
      = Responded (json 500 (BError "Failed to delete image"))
      /\ Durable.db (snd (Durable.delete_image e key w)) = Durable.db w
      /\ Durable.cloud (snd (Durable.delete_image e key w)) = Durable.cloud w).
Proof.
  intros Hread. run_durable. rewrite Hread. simpl. repeat split.
Qed.

End durable_failures.

(** ** The size limit *)

Section size_limit.

(** X13.  An image over the size limit of the variant (5 MiB on disk,
    10 MiB in Cloudinary) is refused by multer with
    [LIMIT_FILE_SIZE], whatever the key: the handler does not run, the
    request is answered 500 by Express, and the metadata is as before
    (the object in memory and [imageData.json], or the collection). *)
Theorem oversized_upload_is_rejected :
  (forall (e : Flat.Env) (file : FilePart) (key : option string) (w : Flat.World),
     startsWith (mimetype file) "image/" = true ->
     (Flat.fileSize < byte_length (content file))%Z ->
     fst (Flat.post_upload e {| req_file := Some file; req_imageKey := key |} w)
     = Failed (MulterError "LIMIT_FILE_SIZE")
     /\ status (http_response
                  (fst (Flat.post_upload e {| req_file := Some file; req_imageKey := key |} w)))
        = 500%Z
     /\ Flat.imageData (snd (Flat.post_upload e
                               {| req_file := Some file; req_imageKey := key |} w))
        = Flat.imageData w
     /\ Flat.fs (snd (Flat.post_upload e {| req_file := Some file; req_imageKey := key |} w))
          !! (Flat.dirname e ++ ["imageData.json"])
        = Flat.fs w !! (Flat.dirname e ++ ["imageData.json"]))
  /\ (forall (e : Durable.Env) (file : FilePart) (key : option string) (w : Durable.World),
        startsWith (mimetype file) "image/" = true ->
        (Durable.fileSize < byte_length (content file))%Z ->
        fst (Durable.post_upload e {| req_file := Some file; req_imageKey := key |} w)
        = Failed (MulterError "LIMIT_FILE_SIZE")
        /\ status (http_response
                     (fst (Durable.post_upload e
                             {| req_file := Some file; req_imageKey := key |} w)))
           = 500%Z
        /\ Durable.db (snd (Durable.post_upload e
                              {| req_file := Some file; req_imageKey := key |} w))
           = Durable.db w).
Proof.
  split.
  - intros e file key w Hmime Hsize.
    assert (Hle : forall a b : Z, (a < b)%Z -> (a <=? b)%Z = true)
      by (intros a b Hab; apply Z.leb_le; lia).
    apply Hle in Hsize.
    assert (Hmw : exists w1,
               Flat.multer e {| req_file := Some file; req_imageKey := key |} w
               = (Thrown (MulterError "LIMIT_FILE_SIZE"), w1)).
    { run_flat. unfold fileFilter. rewrite Hmime. simpl.
      destruct (bool_decide (is_Some (Flat.fs w !! Path.join (Flat.dirname e) ["uploads"])));
        simpl; rewrite Hsize; simpl; eauto. }
    destruct Hmw as (w1 & Hmw).
    destruct (flat_multer_effect _ _ _ _ _ Hmw) as (Hdata & Hjson & _).
    unfold Flat.post_upload, Flat.route, bind. rewrite Hmw. simpl. auto.
  - intros e file key w Hmime Hsize.
    assert (Hle : forall a b : Z, (a < b)%Z -> (a <=? b)%Z = true)
      by (intros a b Hab; apply Z.leb_le; lia).
    apply Hle in Hsize.
    run_durable. unfold fileFilter. rewrite Hmime. simpl. rewrite Hsize. simpl. auto.
Qed.

Lemma oversized_upload_is_rejected_witness :
  fst (Flat.post_upload Sample.flat_env (Sample.upload Sample.oversized (Some "hero-1"))
         Sample.flat_hero)
  = Failed (MulterError "LIMIT_FILE_SIZE")
  /\ Durable.db (snd (Durable.post_upload Sample.durable_env
                        (Sample.upload Sample.oversized (Some "hero-1")) Sample.durable_hero))
     = Durable.db Sample.durable_hero.
Proof.
  split.
  - refine (proj1 (proj1 oversized_upload_is_rejected Sample.flat_env Sample.oversized
                     (Some "hero-1") Sample.flat_hero _ _)).
    + vm_compute. reflexivity.
    + vm_compute. reflexivity.
  - refine (proj2 (proj2 (proj2 oversized_upload_is_rejected Sample.durable_env
                            Sample.oversized (Some "hero-1") Sample.durable_hero _ _))).
    + vm_compute. reflexivity.
    + vm_compute. reflexivity.
Defined.

End size_limit.

(** ** One record per key *)

Section one_record_per_key.

Lemma remove_first_remove (k : string) (d : list (string * Image.t)) :
  Js.unique_keys d -> Durable.remove_first k d = Js.remove k d.
Proof.
  induction d as [|[k' v'] d IH]; intros Hu; simpl; [reflexivity|].
  assert (Hu' : Js.unique_keys d).
  { intros k0. specialize (Hu k0). unfold Js.count_key in *. simpl in Hu.
    destruct (String.eqb k0 k'); simpl in Hu; lia. }
  unfold Durable.key_is. simpl. destruct (String.eqb k k') eqn:Hk; simpl.
  - apply String.eqb_eq in Hk. subst k'.
    specialize (Hu k). unfold Js.count_key in Hu. simpl in Hu.
    rewrite String.eqb_refl in Hu. simpl in Hu.
    symmetry. apply filter_all.
    assert (Hz : length (List.filter (fun p => String.eqb k (fst p)) d) = 0%nat) by lia.
    clear -Hz. induction d as [|[k1 v1] d IH]; constructor; simpl in *.
    + destruct (String.eqb k k1); [discriminate | reflexivity].
    + apply IH. destruct (String.eqb k k1); [discriminate | exact Hz].
  - now rewrite IH.
Qed.

(** X14.  Both variants keep at most one record per key: when the
    object in memory (the collection) holds no key twice, it holds no
    key twice after an upload or a deletion, whatever the request and
    however it ends. *)
Theorem one_record_per_key_is_kept :
  (forall (e : Flat.Env) (req : UploadRequest) (key : string) (w : Flat.World),
     Js.unique_keys (Js.own_props (Flat.imageData w)) ->
     Js.unique_keys (Js.own_props (Flat.imageData (snd (Flat.post_upload e req w))))
     /\ Js.unique_keys (Js.own_props (Flat.imageData (snd (Flat.delete_image e key w)))))
  /\ (forall (e : Durable.Env) (req : UploadRequest) (key : string) (w : Durable.World),
        Js.unique_keys (Durable.db w) ->
        Js.unique_keys (Durable.db (snd (Durable.post_upload e req w)))
        /\ Js.unique_keys (Durable.db (snd (Durable.delete_image e key w)))).
Proof.
  split.
  - intros e req key w Hu. split.
    + unfold Flat.post_upload, Flat.route, bind.
      destruct (Flat.multer e req w) as [[o|err] w1] eqn:Hmw;
        destruct (flat_multer_effect _ _ _ _ _ Hmw) as (Hdata & _); clear Hmw.
      2:{ simpl. now rewrite Hdata. }
      run_flat.
      destruct o as [f|]; simpl; [|now rewrite Hdata].
      destruct (req_imageKey req) as [k|]; simpl; [|now rewrite Hdata].
      destruct (String.eqb k ""); simpl; [now rewrite Hdata|].
      match goal with
      | |- context [match Flat.write_result ?ok ?p ?c ?d with _ => _ end] =>
          destruct (Flat.write_result ok p c d); simpl
      end; rewrite Hdata; now apply assign_unique.
    + run_flat.
      destruct (Js.truthy (Js.get key (Flat.imageData w))); simpl; [|exact Hu].
      destruct (Js.member_url (Js.get key (Flat.imageData w))) as [url|]; simpl; [|exact Hu].
      match goal with
      | |- context [bool_decide ?P] => destruct (bool_decide P); simpl
      end.
      * match goal with
        | |- context [match Flat.unlink_result ?ok ?p ?d with _ => _ end] =>
            destruct (Flat.unlink_result ok p d); simpl; [|exact Hu]
        end.
        match goal with
        | |- context [match Flat.write_result ?ok ?p ?c ?d with _ => _ end] =>
            destruct (Flat.write_result ok p c d); simpl
        end; now apply unique_keys_remove.
      * match goal with
        | |- context [match Flat.write_result ?ok ?p ?c ?d with _ => _ end] =>
            destruct (Flat.write_result ok p c d); simpl
        end; now apply unique_keys_remove.
  - intros e req key w Hu. split.
    + run_durable.
      destruct (req_file req) as [file|]; simpl; [|exact Hu].
      destruct (fileFilter file); simpl; [|exact Hu].
      destruct (Durable.fileSize <=? byte_length (content file))%Z; simpl; [exact Hu|].
      destruct (Durable.uploaded e) as [[secure_url public_id]|]; simpl; [|exact Hu].
      destruct (req_imageKey req) as [k|]; simpl; [|exact Hu].
      destruct (String.eqb k ""); simpl; [exact Hu|].
      destruct (Durable.db_write_ok e); simpl; [|exact Hu].
      now apply upsert_unique.
    + run_durable.
      destruct (Durable.db_read_ok e); simpl; [|exact Hu].
      destruct (Durable.find_key key (Durable.db w)) as [r|]; simpl; [|exact Hu].
      destruct (Durable.has_publicId r) as [p|]; simpl;
        [destruct (Durable.destroy_ok e); simpl; [|exact Hu]|];
        (destruct (Durable.db_write_ok e); simpl; [|exact Hu]);
        rewrite remove_first_remove by exact Hu; now apply unique_keys_remove.
Qed.

End one_record_per_key.

(** ** Reads of the stored records *)

Section reads.

(** X15.  Get-by-key of the flat-file variant, for every key that is
    not a name of [Object.prototype] and while no upload under
    [__proto__] has replaced the prototype: 200 with the record of the
    key when there is one, 404 [Image not found] when there is none,
    and nothing is changed. *)
Theorem get_image_of_ordinary_key (key : string) (w : Flat.World) :
  Js.proto (Flat.imageData w) = None ->
  existsb (String.eqb key) Js.object_prototype_names = false ->
  Flat.get_image key w
  = (match Js.own key (Flat.imageData w) with
     | Some r => Responded (json 200 (BJson (Js.VRecord r)))
     | None => Responded (json 404 (BError "Image not found"))
     end, w).
Proof.
  intros Hproto Hnames.
  destruct (Js.own key (Flat.imageData w)) as [r|] eqn:Hown.
  - now apply flat_get_image_found.
  - apply flat_get_image_missing. now apply get_undefined.
Qed.

(** X16.  The listing of the flat-file variant shows exactly the
    stored records: when no key is held twice, the members of the
    response are a permutation of the own properties of the object,
    and each key reads in the response as it reads in the object. *)
Theorem flat_listing_shows_the_records (w : Flat.World) :
  Js.unique_keys (Js.own_props (Flat.imageData w)) ->
  exists images,
    Flat.get_images w = (Responded (json 200 (BImages images)), w)
    /\ Permutation images (Js.own_props (Flat.imageData w))
    /\ (forall k, Js.lookup_own k images = Js.own k (Flat.imageData w)).
Proof.
  intros Hu. exists (Js.entries (Flat.imageData w)). split; [reflexivity|].
  split; [apply ordered_perm|].
  intros k. unfold Js.entries, Js.own. now apply lookup_ordered.
Qed.

(** X17.  The listing of the database variant, while the database
    answers, the collection holds no key twice and no document has the
    key [__proto__]: every document is listed once under its key, and
    when no key is an array index the members come in the order of the
    query, newest first. *)
Theorem durable_listing_is_newest_first (e : Durable.Env) (w : Durable.World) :
  Durable.db_read_ok e = true ->
  Js.unique_keys (Durable.db w) ->
  Durable.find_key "__proto__" (Durable.db w) = None ->
  Forall (fun doc => Js.is_index doc = false) (Durable.db w) ->
  fst (Durable.get_images e w)
  = Responded (json 200 (BImages (sort_by Durable.newer_first (Durable.db w))))
  /\ Sorted (fun a b => (Image.uploadedAt (snd b) <= Image.uploadedAt (snd a))%Z)
       (sort_by Durable.newer_first (Durable.db w))
  /\ Permutation (sort_by Durable.newer_first (Durable.db w)) (Durable.db w).
Proof.
  intros Hread Hu Hproto Hplain.
  destruct (durable_listing e w Hread Hu Hproto) as (images & Hres & Hperm & _ & Hsorted).
  destruct (Hsorted Hplain) as (-> & Hs).
  split; [exact Hres|]. split; [|exact Hperm].
  clear -Hs. induction Hs as [|a l _ IH Hhd]; constructor; [exact IH|].
  destruct Hhd as [|b l Hab]; constructor.
  unfold Durable.newer_first in Hab. now apply Z.leb_le.
Qed.

(** X18.  A read after a write sees the write.  Flat file, for a key
    other than [__proto__]: after an upload answered 200, get-by-key
    answers 200 with a record that carries the name, type and size of
    the uploaded file and the instant of the upload.  Database, for
    every key and while the database answers: get-by-key answers 200
    with the document that the upload returned. *)
Theorem get_after_upload :
  (forall (e : Flat.Env) (file : FilePart) (key : string) (w : Flat.World),
     key <> "__proto__" ->
     status (http_response
               (fst (Flat.post_upload e {| req_file := Some file; req_imageKey := Some key |} w)))
     = 200%Z ->
     exists r,
       fst (Flat.get_image key
              (snd (Flat.post_upload e {| req_file := Some file; req_imageKey := Some key |} w)))
       = Responded (json 200 (BJson (Js.VRecord r)))
       /\ Image.url r = "/uploads/" +:+ Flat.storage_filename e file
       /\ Image.originalName r = originalname file
       /\ Image.mimetype r = mimetype file
       /\ Image.size r = byte_length (content file)
       /\ Image.uploadedAt r = Flat.clock e)
  /\ (forall (e e' : Durable.Env) (req : UploadRequest) (w : Durable.World)
             (doc : string * Image.t),
        returned_doc (fst (Durable.post_upload e req w)) = Some doc ->
        Durable.db_read_ok e' = true ->
        fst (Durable.get_image e' (fst doc) (snd (Durable.post_upload e req w)))
        = Responded (json 200 (BJson (Js.VRecord (snd doc))))).
Proof.
  split.
  - intros e file key w Hproto H200.
    destruct (flat_upload_stores_blob e file key w Hproto H200)
      as (r & Hown & Hurl & Hname & Hmime & Hsize & Hat & _).
    exists r. rewrite (flat_get_image_found _ _ _ Hown). simpl. repeat split; assumption.
  - intros e e' req w [k r] Hdoc Hread.
    destruct (durable_get_image e' k (snd (Durable.post_upload e req w)) Hread) as (Hget & _).
    simpl. rewrite Hget, (durable_upload_returns _ _ _ _ Hdoc). simpl.
    now rewrite upsert_find.
Qed.

(** X19.  Replacing the image of a key leaks the replaced asset.  In
    the database variant, when the document of the key names an asset
    that no other document names, an upload answered 200 under the
    same key, stored by Cloudinary under another public id, leaves the
    old asset in Cloudinary while no document names it any more. *)
Theorem replaced_asset_is_orphaned (e : Durable.Env) (req : UploadRequest)
    (w : Durable.World) (key p new_id url bytes : string) (r : Image.t) :
  req_imageKey req = Some key ->
  Durable.uploaded e = Some (url, new_id) ->
  new_id <> p ->
  Durable.find_key key (Durable.db w) = Some r ->
  Image.publicId r = Some p ->
  Durable.cloud w !! p = Some bytes ->
  (forall k r', Durable.find_key k (Durable.db w) = Some r' ->
                Image.publicId r' = Some p -> k = key) ->
  status (http_response (fst (Durable.post_upload e req w))) = 200%Z ->
  Durable.cloud (snd (Durable.post_upload e req w)) !! p = Some bytes
  /\ (forall k r', Durable.find_key k (Durable.db (snd (Durable.post_upload e req w)))
                   = Some r' ->
                   Image.publicId r' <> Some p).
Proof.
  intros Hkey Hup Hne Hfind Hpid Hasset Honly H200.
  destruct (durable_upload_200 _ _ _ H200)
    as (file & key' & secure_url & public_id & Hreq & _ & Hup' & _ & Hdb & Hcloud).
  rewrite Hup in Hup'. inversion Hup'; subst secure_url public_id. clear Hup'.
  rewrite Hreq in Hkey. simpl in Hkey. inversion Hkey; subst key'. clear Hkey.
  split.
  - rewrite Hcloud. now rewrite lookup_insert_ne.
  - intros k r'. rewrite Hdb. destruct (String.eqb_spec key k) as [<-|Hk].
    + rewrite upsert_find. intros H. inversion H; subst r'. simpl. congruence.
    + rewrite upsert_find_ne by exact Hk. intros Hr' Hp. apply Hk. symmetry.
      now apply (Honly k r').
Qed.

End reads.

(** ** The contact endpoint *)

Section contact.

(** X20.  An inquiry whose name, email or message is missing or falsy
    (empty string, [null], [false], [0]) is answered 400 and no mail
    is sent: [sendMail] is not called. *)
Theorem send_email_requires_name_email_message (env : Contact.ProcessEnv) (e : Contact.Env)
    (b : Contact.Inquiry) (w : Contact.World) :
  Contact.truthy (Contact.name b) && Contact.truthy (Contact.email b)
    && Contact.truthy (Contact.message b) = false ->
  Contact.post_send_email env e b w
  = (Ok (Contact.reply 400
           (Contact.RError "Name, email, and message are required fields" None)), w).
Proof.
  intros H. unfold Contact.post_send_email, Contact.send_email_handler, try_catch.
  destruct (Contact.truthy (Contact.name b)), (Contact.truthy (Contact.email b)),
    (Contact.truthy (Contact.message b)); try discriminate; reflexivity.
Qed.

Lemma send_email_requires_name_email_message_witness :
  Contact.post_send_email Sample.mail_env Sample.smtp_ok Sample.inquiry_without_message
    Sample.outbox_empty
  = (Ok (Contact.reply 400
           (Contact.RError "Name, email, and message are required fields" None)),
     Sample.outbox_empty).
Proof.
  apply (send_email_requires_name_email_message Sample.mail_env Sample.smtp_ok
           Sample.inquiry_without_message Sample.outbox_empty).
  reflexivity.
Defined.

(** The options built for an inquiry whose interpolated members all
    convert: the record with the members in their places. *)
Lemma mail_options_built (env : Contact.ProcessEnv) (b : Contact.Inquiry) (w : Contact.World) :
  Contact.renders b = true ->
  exists inquiry confirmation,
    Contact.adminMailOptions env b w = (Ok inquiry, w)
    /\ Contact.clientMailOptions env b w = (Ok confirmation, w)
    /\ Contact.from inquiry = Contact.sender env
    /\ Contact.from confirmation = Contact.sender env
    /\ Contact.to inquiry = Contact.env_value (Contact.TO_EMAIL env)
    /\ Contact.replyTo inquiry = Contact.email b
    /\ Contact.to confirmation = Contact.email b
    /\ Contact.replyTo confirmation = None.
Proof.
  unfold Contact.renders. intros H.
  destruct (Contact.converts (Contact.name b)) eqn:Hname; [|discriminate].
  destruct (Contact.converts (Contact.email b)) eqn:Hemail; [|discriminate].
  destruct (Contact.converts (Contact.message b)) eqn:Hmessage; [|discriminate].
  simpl in H.
  unfold Contact.adminMailOptions, Contact.clientMailOptions, Contact.interpolate, bind, ret.
  rewrite Hname, Hemail, Hmessage.
  destruct (Contact.truthy (Contact.phone b)), (Contact.truthy (Contact.sessionType b));
    simpl in *;
    try (destruct (Contact.converts (Contact.phone b)); [|discriminate]);
    try (destruct (Contact.converts (Contact.sessionType b)); [|discriminate]);
    do 2 eexists; repeat split.
Qed.

(** An inquiry with an interpolated member that does not convert: the
    first template, which interpolates them all, throws. *)
Lemma mail_options_throw (env : Contact.ProcessEnv) (b : Contact.Inquiry) (w : Contact.World) :
  Contact.renders b = false ->
  Contact.adminMailOptions env b w
  = (Thrown (TypeError "Cannot convert object to primitive value"), w).
Proof.
  unfold Contact.renders. intros H.
  unfold Contact.adminMailOptions, Contact.interpolate, bind, ret, throw.
  destruct (Contact.converts (Contact.name b)); [|reflexivity].
  destruct (Contact.converts (Contact.email b)); [|reflexivity].
  destruct (Contact.truthy (Contact.phone b));
    [destruct (Contact.converts (Contact.phone b)); [|reflexivity]|];
    (destruct (Contact.truthy (Contact.sessionType b));
     [destruct (Contact.converts (Contact.sessionType b)); [|reflexivity]|]);
    (destruct (Contact.converts (Contact.message b)); [discriminate | reflexivity]).
Qed.

(** X21.  The calls of [sendMail] for an inquiry with name, email and
    message.  When every member that the templates interpolate
    converts to a string, exactly two calls are made, whatever the
    SMTP server answers: first the inquiry, addressed to [TO_EMAIL]
    with the email of the body as reply address, then the
    confirmation, addressed to the email of the body; no other
    address is written to.  When a member does not convert (an object
    without usable [toString] and [valueOf]), building the mails
    throws: the answer is 500 [Failed to send email] and [sendMail] is
    not called. *)
Theorem send_email_calls (env : Contact.ProcessEnv) (e : Contact.Env)
    (b : Contact.Inquiry) (w : Contact.World) :
  Contact.truthy (Contact.name b) = true ->
  Contact.truthy (Contact.email b) = true ->
  Contact.truthy (Contact.message b) = true ->
  (Contact.renders b = true ->
   exists inquiry confirmation,
     Contact.adminMailOptions env b w = (Ok inquiry, w)
     /\ Contact.clientMailOptions env b w = (Ok confirmation, w)
     /\ Contact.calls (snd (Contact.post_send_email env e b w))
        = Contact.calls w ++ [inquiry; confirmation]
     /\ map Contact.to [inquiry; confirmation]
        = [Contact.env_value (Contact.TO_EMAIL env); Contact.email b]
     /\ map Contact.replyTo [inquiry; confirmation] = [Contact.email b; None])
  /\ (Contact.renders b = false ->
      Contact.post_send_email env e b w
      = (Ok (Contact.reply 500
               (Contact.RError "Failed to send email"
                  (Some "Cannot convert object to primitive value"))), w)).
Proof.
  intros Hname Hemail Hmessage. split; intros Hrenders.
  - destruct (mail_options_built env b w Hrenders)
      as (inquiry & confirmation & Hadmin & Hclient & _ & _ & Hto & Hreply & Hto' & Hreply').
    exists inquiry, confirmation.
    split; [exact Hadmin|]. split; [exact Hclient|].
    unfold Contact.post_send_email, Contact.send_email_handler, try_catch, bind.
    rewrite Hname, Hemail, Hmessage. simpl. rewrite Hadmin, Hclient.
    unfold Contact.promise_all, Contact.sendMail, bind, modify, throw, ret. simpl.
    rewrite Hto, Hreply, Hto', Hreply'.
    destruct (Contact.admin_rejection e), (Contact.client_rejection e); simpl;
      rewrite <- app_assoc; simpl; auto.
  - unfold Contact.post_send_email, Contact.send_email_handler, try_catch, bind.
    rewrite Hname, Hemail, Hmessage. simpl.
    rewrite (mail_options_throw env b w Hrenders). reflexivity.
Qed.

Lemma send_email_calls_witness :
  Contact.calls (snd (Contact.post_send_email Sample.mail_env Sample.smtp_rejects_admin
                        Sample.inquiry Sample.outbox_empty))
  = [Sample.inquiry_mail; Sample.confirmation_mail]
  /\ Contact.post_send_email Sample.mail_env Sample.smtp_ok Sample.inquiry_unprintable
       Sample.outbox_empty
     = (Ok (Contact.reply 500
              (Contact.RError "Failed to send email"
                 (Some "Cannot convert object to primitive value"))),
        Sample.outbox_empty).
Proof.
  split.
  - destruct (proj1 (send_email_calls Sample.mail_env Sample.smtp_rejects_admin
                       Sample.inquiry Sample.outbox_empty eq_refl eq_refl eq_refl) eq_refl)
      as (inquiry & confirmation & Hadmin & Hclient & Hcalls & _).
    rewrite Hcalls. inversion Hadmin. inversion Hclient. reflexivity.
  - exact (proj2 (send_email_calls Sample.mail_env Sample.smtp_ok Sample.inquiry_unprintable
                    Sample.outbox_empty eq_refl eq_refl eq_refl) eq_refl).
Defined.

(** X22.  The answer to an inquiry with name, email and message whose
    interpolated members all convert to a string, and what was
    delivered.  The answer is 200 exactly when the SMTP server accepts
    both mails, and 500 [Failed to send email] otherwise, with the
    message of a rejection as details (of the one rejection when there
    is one, of the first to settle when there are two).  Each mail is
    delivered exactly when the server accepts it, independently of the
    other: the confirmation reaches the client although the inquiry
    was rejected and the answer is 500. *)
Theorem send_email_outcome (env : Contact.ProcessEnv) (e : Contact.Env)
    (b : Contact.Inquiry) (w : Contact.World) :
  Contact.truthy (Contact.name b) = true ->
  Contact.truthy (Contact.email b) = true ->
  Contact.truthy (Contact.message b) = true ->
  Contact.renders b = true ->
  exists inquiry confirmation,
    Contact.adminMailOptions env b w = (Ok inquiry, w)
    /\ Contact.clientMailOptions env b w = (Ok confirmation, w)
    /\ fst (Contact.post_send_email env e b w)
       = Ok (match Contact.admin_rejection e, Contact.client_rejection e with
             | None, None => Contact.reply 200 (Contact.RSuccess "Emails sent successfully!")
             | Some a, None =>
                 Contact.reply 500 (Contact.RError "Failed to send email" (Some a))
             | None, Some c =>
                 Contact.reply 500 (Contact.RError "Failed to send email" (Some c))
             | Some a, Some c =>
                 Contact.reply 500
                   (Contact.RError "Failed to send email"
                      (Some (if Contact.client_settles_first e then c else a)))
             end)
    /\ Contact.delivered (snd (Contact.post_send_email env e b w))
       = Contact.delivered w
         ++ match Contact.admin_rejection e with
            | None => [inquiry]
            | Some _ => []
            end
         ++ match Contact.client_rejection e with
            | None => [confirmation]
            | Some _ => []
            end.
Proof.
  intros Hname Hemail Hmessage Hrenders.
  destruct (mail_options_built env b w Hrenders)
    as (inquiry & confirmation & Hadmin & Hclient & _).
  exists inquiry, confirmation.
  split; [exact Hadmin|]. split; [exact Hclient|].
  unfold Contact.post_send_email, Contact.send_email_handler, try_catch, bind.
  rewrite Hname, Hemail, Hmessage. simpl. rewrite Hadmin, Hclient.
  unfold Contact.promise_all, Contact.sendMail, bind, modify, throw, ret. simpl.
  destruct (Contact.admin_rejection e), (Contact.client_rejection e); simpl;
    try destruct (Contact.client_settles_first e); simpl;
    rewrite ?app_nil_r, <- ?app_assoc; auto.
Qed.

Lemma send_email_outcome_witness :
  fst (Contact.post_send_email Sample.mail_env Sample.smtp_rejects_admin Sample.inquiry
         Sample.outbox_empty)
  = Ok (Contact.reply 500
          (Contact.RError "Failed to send email" (Some "550 mailbox unavailable")))
  /\ Contact.delivered (snd (Contact.post_send_email Sample.mail_env Sample.smtp_rejects_admin
                               Sample.inquiry Sample.outbox_empty))
     = [Sample.confirmation_mail].
Proof.
  destruct (send_email_outcome Sample.mail_env Sample.smtp_rejects_admin Sample.inquiry
              Sample.outbox_empty eq_refl eq_refl eq_refl eq_refl)
    as (inquiry & confirmation & Hadmin & Hclient & Hres & Hdelivered).
  split; [exact Hres|]. rewrite Hdelivered. inversion Hclient. reflexivity.
Defined.

End contact.

(** ** The debug log of the Cloudinary configuration *)

Section cloudinary_config.

(** X23.  The debug log of the configuration shows the cloud name and,
    of the API key and the API secret, only whether each is set: two
    environments with the same cloud name, in which the same ones of
    the two credentials are set, print the same log, whatever the
    credentials are. *)
Theorem debug_log_hides_credentials (env env' : CloudinaryConfig.ProcessEnv) :
  CloudinaryConfig.CLOUDINARY_CLOUD_NAME env = CloudinaryConfig.CLOUDINARY_CLOUD_NAME env' ->
  CloudinaryConfig.is_set (CloudinaryConfig.CLOUDINARY_API_KEY env)
  = CloudinaryConfig.is_set (CloudinaryConfig.CLOUDINARY_API_KEY env') ->
  CloudinaryConfig.is_set (CloudinaryConfig.CLOUDINARY_API_SECRET env)
  = CloudinaryConfig.is_set (CloudinaryConfig.CLOUDINARY_API_SECRET env') ->
  CloudinaryConfig.debug_log env = CloudinaryConfig.debug_log env'.
Proof.
  intros Hname Hkey Hsecret.
  unfold CloudinaryConfig.debug_log, CloudinaryConfig.set_or_not.
  now rewrite Hname, Hkey, Hsecret.
Qed.

Lemma debug_log_hides_credentials_witness :
  CloudinaryConfig.debug_log Sample.cloudinary_env
  = CloudinaryConfig.debug_log Sample.cloudinary_env_rotated.
Proof.
  apply (debug_log_hides_credentials Sample.cloudinary_env Sample.cloudinary_env_rotated);
    reflexivity.
Defined.

End cloudinary_config.

(** ** Instances of the further properties *)

Lemma uploaded_record_points_at_blob_witness :
  exists r,
    Js.own "hero-1"
      (Flat.imageData (snd (Flat.post_upload Sample.flat_env
                              {| req_file := Some Sample.png; req_imageKey := Some "hero-1" |}
                              Sample.flat_empty))) = Some r
    /\ Image.url r = "/uploads/" +:+ Flat.storage_filename Sample.flat_env Sample.png.
Proof.
  destruct (uploaded_record_points_at_blob Sample.flat_env Sample.png "hero-1"
              Sample.flat_empty) as (r & Hown & Hurl & _).
  - discriminate.
  - vm_compute. reflexivity.
  - exists r. split; [exact Hown | exact Hurl].
Defined.

Lemma successful_mutation_is_persisted_witness :
  fst (Flat.get_images
         (Flat.restart Sample.flat_env
            (snd (Flat.post_upload Sample.flat_env (Sample.upload Sample.png (Some "hero-1"))
                    Sample.flat_empty))))
  = fst (Flat.get_images
           (snd (Flat.post_upload Sample.flat_env (Sample.upload Sample.png (Some "hero-1"))
                   Sample.flat_empty)))
  /\ fst (Flat.get_images
            (Flat.restart Sample.flat_env
               (snd (Flat.delete_image Sample.flat_env "hero-1" Sample.flat_hero))))
     = fst (Flat.get_images (snd (Flat.delete_image Sample.flat_env "hero-1" Sample.flat_hero))).
Proof.
  split.
  - refine (proj2 (proj1 successful_mutation_is_persisted Sample.flat_env
                     (Sample.upload Sample.png (Some "hero-1")) Sample.flat_empty _)).
    vm_compute. reflexivity.
  - refine (proj2 (proj2 successful_mutation_is_persisted Sample.flat_env "hero-1"
                     Sample.flat_hero _)).
    vm_compute. reflexivity.
Defined.

Lemma upload_with_failed_save_witness :
  fst (Flat.post_upload Sample.flat_env_unsaved
         {| req_file := Some Sample.jpeg; req_imageKey := Some "about-2" |} Sample.flat_hero)
  = Responded (json 500 (BError "File upload failed"))
  /\ fst (Flat.get_image "about-2"
            (snd (Flat.post_upload Sample.flat_env_unsaved
                    {| req_file := Some Sample.jpeg; req_imageKey := Some "about-2" |}
                    Sample.flat_hero)))
     = Responded (json 200 (BJson (Js.VRecord
                                     (Flat.record_of Sample.flat_env_unsaved
                                        Sample.stored_jpeg))))
  /\ Flat.loaded Sample.flat_env_unsaved
       (Flat.fs (snd (Flat.post_upload Sample.flat_env_unsaved
                        {| req_file := Some Sample.jpeg; req_imageKey := Some "about-2" |}
                        Sample.flat_hero)))
     = Js.empty.
Proof.
  destruct (upload_with_failed_save Sample.flat_env_unsaved Sample.jpeg "about-2"
              Sample.flat_hero
              (snd (Flat.multer Sample.flat_env_unsaved
                      {| req_file := Some Sample.jpeg; req_imageKey := Some "about-2" |}
                      Sample.flat_hero))
              Sample.stored_jpeg
              (SystemError "EIO" ["srv"; "app"; "imageData.json"]))
    as (H500 & Hget & Hloaded).
  - discriminate.
  - discriminate.
  - vm_compute. reflexivity.
  - vm_compute. reflexivity.
  - split; [exact H500|]. split; [exact Hget|].
    refine (eq_trans Hloaded _). vm_compute. reflexivity.
Defined.

Lemma delete_with_failed_save_witness :
  fst (Flat.delete_image Sample.flat_env_unsaved "hero-1" Sample.flat_hero)
  = Failed (SystemError "EIO" ["srv"; "app"; "imageData.json"])
  /\ Flat.loaded Sample.flat_env_unsaved (Flat.fs Sample.flat_hero)
     = {| Js.own_props := [("hero-1", Sample.hero_record)]; Js.proto := None |}
  /\ Flat.loaded Sample.flat_env_unsaved
       (Flat.fs (snd (Flat.delete_image Sample.flat_env_unsaved "hero-1" Sample.flat_hero)))
     = Js.empty.
Proof.
  destruct (delete_with_failed_save Sample.flat_env_unsaved Sample.flat_hero "hero-1"
              Sample.hero_record (Flat.Bytes "PNG-BYTES")
              (SystemError "EIO" ["srv"; "app"; "imageData.json"]))
    as (Hfailed & _ & _ & _ & Hloaded).
  - vm_compute. reflexivity.
  - vm_compute. reflexivity.
  - reflexivity.
  - vm_compute. reflexivity.
  - split; [exact Hfailed|]. split; [vm_compute; reflexivity|].
    refine (eq_trans Hloaded _). vm_compute. reflexivity.
Defined.

Lemma delete_tolerates_missing_file_witness :
  fst (Flat.delete_image Sample.flat_env "hero-1" Sample.flat_hero_unlinked)
  = Responded (json 200 (BSuccess "Image deleted successfully")).
Proof.
  destruct (delete_tolerates_missing_file Sample.flat_env Sample.flat_hero_unlinked "hero-1"
              Sample.hero_record) as (Hres & _).
  - vm_compute. reflexivity.
  - vm_compute. reflexivity.
  - reflexivity.
  - vm_compute. reflexivity.
  - intros H. vm_compute in H. discriminate.
  - exact (f_equal fst Hres).
Defined.

Lemma deleted_key_is_not_found_witness :
  fst (Flat.get_image "hero-1"
         (snd (Flat.delete_image Sample.flat_env "hero-1" Sample.flat_hero)))
  = Responded (json 404 (BError "Image not found"))
  /\ fst (Durable.get_image Sample.durable_env "hero-1"
            (snd (Durable.delete_image Sample.durable_env "hero-1" Sample.durable_hero)))
     = Responded (json 404 (BError "Image not found")).
Proof.
  split.
  - refine (proj1 deleted_key_is_not_found Sample.flat_env "hero-1" Sample.flat_hero _ _ _).
    + vm_compute. reflexivity.
    + reflexivity.
    + vm_compute. reflexivity.
  - refine (proj2 deleted_key_is_not_found Sample.durable_env Sample.durable_env "hero-1"
              Sample.durable_hero _ _ _).
    + apply NoDup_unique_keys. vm_compute. repeat constructor. simpl. tauto.
    + reflexivity.
    + vm_compute. reflexivity.
Defined.

Lemma upload_then_delete_removes_blob_witness :
  fst (Flat.delete_image Sample.flat_env_later "hero-1"
         (snd (Flat.post_upload Sample.flat_env
                 {| req_file := Some Sample.png; req_imageKey := Some "hero-1" |}
                 Sample.flat_empty)))
  = Responded (json 200 (BSuccess "Image deleted successfully"))
  /\ Flat.fs (snd (Flat.delete_image Sample.flat_env_later "hero-1"
                     (snd (Flat.post_upload Sample.flat_env
                             {| req_file := Some Sample.png; req_imageKey := Some "hero-1" |}
                             Sample.flat_empty))))
       !! (Flat.dirname Sample.flat_env
           ++ ["uploads"; Flat.storage_filename Sample.flat_env Sample.png]) = None.
Proof.
  destruct (upload_then_delete_removes_blob Sample.flat_env Sample.flat_env_later Sample.png
              "hero-1" Sample.flat_empty) as (Hres & Hgone & _).
  - discriminate.
  - reflexivity.
  - reflexivity.
  - reflexivity.
  - vm_compute. reflexivity.
  - split; [exact Hres | exact Hgone].
Defined.

Lemma upload_with_failed_database_write_witness :
  fst (Durable.post_upload Sample.durable_env_readonly
         {| req_file := Some Sample.jpeg; req_imageKey := Some "about-2" |} Sample.durable_hero)
  = Responded (json 500 (BError "File upload failed"))
  /\ Durable.cloud (snd (Durable.post_upload Sample.durable_env_readonly
                           {| req_file := Some Sample.jpeg; req_imageKey := Some "about-2" |}
                           Sample.durable_hero))
       !! filename Sample.stored_jpeg_cloud = Some (content Sample.jpeg).
Proof.
  destruct (upload_with_failed_database_write Sample.durable_env_readonly Sample.jpeg
              "about-2" Sample.durable_hero
              (snd (Durable.multer Sample.durable_env_readonly
                      {| req_file := Some Sample.jpeg; req_imageKey := Some "about-2" |}
                      Sample.durable_hero))
              Sample.stored_jpeg_cloud) as (H500 & _ & Hasset).
  - discriminate.
  - reflexivity.
  - vm_compute. reflexivity.
  - split; [exact H500 | exact Hasset].
Defined.

Lemma delete_with_failed_database_write_witness :
  fst (Durable.delete_image Sample.durable_env_readonly "hero-1" Sample.durable_hero)
  = Responded (json 500 (BError "Failed to delete image"))
  /\ Durable.find_key "hero-1"
       (Durable.db (snd (Durable.delete_image Sample.durable_env_readonly "hero-1"
                           Sample.durable_hero))) = Some Sample.cloud_record
  /\ Durable.cloud (snd (Durable.delete_image Sample.durable_env_readonly "hero-1"
                           Sample.durable_hero))
       !! "adriana-photography/abc123" = None.
Proof.
  destruct (delete_with_failed_database_write Sample.durable_env_readonly "hero-1"
              Sample.durable_hero Sample.cloud_record "adriana-photography/abc123")
    as (H500 & _ & Hdoc & Hasset).
  - reflexivity.
  - reflexivity.
  - reflexivity.
  - vm_compute. reflexivity.
  - reflexivity.
  - split; [exact H500 | split; [exact Hdoc | exact Hasset]].
Defined.

Lemma database_read_failure_witness :
  fst (Durable.delete_image Sample.durable_env_down "hero-1" Sample.durable_hero)
  = Responded (json 500 (BError "Failed to delete image"))
  /\ Durable.cloud (snd (Durable.delete_image Sample.durable_env_down "hero-1"
                           Sample.durable_hero))
     = Durable.cloud Sample.durable_hero.
Proof.
  destruct (database_read_failure Sample.durable_env_down "hero-1" Sample.durable_hero)
    as (_ & _ & Hres & _ & Hcloud).
  - reflexivity.
  - split; [exact Hres | exact Hcloud].
Defined.

Lemma one_record_per_key_is_kept_witness :
  Js.unique_keys
    (Js.own_props
       (Flat.imageData (snd (Flat.post_upload Sample.flat_env_later
                               (Sample.upload Sample.jpeg (Some "hero-1")) Sample.flat_hero))))
  /\ Js.unique_keys
       (Durable.db (snd (Durable.post_upload Sample.durable_env_later
                           (Sample.upload Sample.jpeg (Some "hero-1")) Sample.durable_hero))).
Proof.
  split.
  - refine (proj1 (proj1 one_record_per_key_is_kept Sample.flat_env_later
                     (Sample.upload Sample.jpeg (Some "hero-1")) "hero-1" Sample.flat_hero _)).
    apply NoDup_unique_keys. vm_compute. repeat constructor. simpl. tauto.
  - refine (proj1 (proj2 one_record_per_key_is_kept Sample.durable_env_later
                     (Sample.upload Sample.jpeg (Some "hero-1")) "hero-1"
                     Sample.durable_hero _)).
    apply NoDup_unique_keys. vm_compute. repeat constructor. simpl. tauto.
Defined.

Lemma get_image_of_ordinary_key_witness :
  Flat.get_image "about-2" Sample.flat_hero
  = (match Js.own "about-2" (Flat.imageData Sample.flat_hero) with
     | Some r => Responded (json 200 (BJson (Js.VRecord r)))
     | None => Responded (json 404 (BError "Image not found"))
     end, Sample.flat_hero).
Proof.
  apply (get_image_of_ordinary_key "about-2" Sample.flat_hero).
  - vm_compute. reflexivity.
  - reflexivity.
Defined.

Lemma flat_listing_shows_the_records_witness :
  exists images,
    Flat.get_images (snd (Flat.uploads Sample.flat_requests Sample.flat_empty))
    = (Responded (json 200 (BImages images)),
       snd (Flat.uploads Sample.flat_requests Sample.flat_empty))
    /\ Permutation images
         (Js.own_props
            (Flat.imageData (snd (Flat.uploads Sample.flat_requests Sample.flat_empty)))).
Proof.
  destruct (flat_listing_shows_the_records
              (snd (Flat.uploads Sample.flat_requests Sample.flat_empty)))
    as (images & Hres & Hperm & _).
  - apply NoDup_unique_keys. vm_compute. repeat constructor; simpl; intuition discriminate.
  - exists images. split; [exact Hres | exact Hperm].
Defined.

Lemma durable_listing_is_newest_first_witness :
  fst (Durable.get_images Sample.durable_env
         (snd (Durable.uploads Sample.durable_requests Sample.durable_empty)))
  = Responded
      (json 200
         (BImages (sort_by Durable.newer_first
                     (Durable.db (snd (Durable.uploads Sample.durable_requests
                                         Sample.durable_empty)))))).
Proof.
  refine (proj1 (durable_listing_is_newest_first Sample.durable_env
                   (snd (Durable.uploads Sample.durable_requests Sample.durable_empty))
                   _ _ _ _)).
  - reflexivity.
  - apply NoDup_unique_keys. vm_compute. repeat constructor; simpl; intuition discriminate.
  - vm_compute. reflexivity.
  - replace (Durable.db (snd (Durable.uploads Sample.durable_requests Sample.durable_empty)))
      with [("hero-1", Sample.cloud_record); ("about-2", Sample.about_record_cloud)]
      by (vm_compute; reflexivity).
    repeat (constructor; [vm_compute; reflexivity|]). constructor.
Defined.

Lemma get_after_upload_witness :
  (exists r,
     fst (Flat.get_image "hero-1"
            (snd (Flat.post_upload Sample.flat_env
                    {| req_file := Some Sample.png; req_imageKey := Some "hero-1" |}
                    Sample.flat_empty)))
     = Responded (json 200 (BJson (Js.VRecord r)))
     /\ Image.originalName r = originalname Sample.png)
  /\ fst (Durable.get_image Sample.durable_env_later "hero-1"
            (snd (Durable.post_upload Sample.durable_env
                    (Sample.upload Sample.png (Some "hero-1")) Sample.durable_empty)))
     = Responded (json 200 (BJson (Js.VRecord Sample.cloud_record))).
Proof.
  split.
  - destruct (proj1 get_after_upload Sample.flat_env Sample.png "hero-1" Sample.flat_empty)
      as (r & Hget & _ & Hname & _).
    + discriminate.
    + vm_compute. reflexivity.
    + exists r. split; [exact Hget | exact Hname].
  - refine (proj2 get_after_upload Sample.durable_env Sample.durable_env_later
              (Sample.upload Sample.png (Some "hero-1")) Sample.durable_empty
              ("hero-1", Sample.cloud_record) _ _).
    + vm_compute. reflexivity.
    + reflexivity.
Defined.

Lemma replaced_asset_is_orphaned_witness :
  Durable.cloud (snd (Durable.post_upload Sample.durable_env_later
                        (Sample.upload Sample.jpeg (Some "hero-1")) Sample.durable_hero))
    !! "adriana-photography/abc123" = Some "PNG-BYTES"
  /\ Durable.find_key "hero-1"
       (Durable.db (snd (Durable.post_upload Sample.durable_env_later
                           (Sample.upload Sample.jpeg (Some "hero-1")) Sample.durable_hero)))
     <> Some Sample.cloud_record.
Proof.
  destruct (replaced_asset_is_orphaned Sample.durable_env_later
              (Sample.upload Sample.jpeg (Some "hero-1")) Sample.durable_hero
              "hero-1" "adriana-photography/abc123" "adriana-photography/def456"
              "https://res.cloudinary.com/demo/image/upload/adriana-photography/def456.jpg"
              "PNG-BYTES" Sample.cloud_record) as (Hasset & Hnone).
  - reflexivity.
  - reflexivity.
  - discriminate.
  - vm_compute. reflexivity.
  - reflexivity.
  - vm_compute. reflexivity.
  - intros k r' Hfind _.
    change (Durable.db Sample.durable_hero) with [("hero-1", Sample.cloud_record)] in Hfind.
    unfold Durable.find_key, Durable.key_is in Hfind. simpl in Hfind.
    destruct (String.eqb_spec k "hero-1") as [->|Hne]; [reflexivity | discriminate].
  - vm_compute. reflexivity.
  - split; [exact Hasset|]. intros Hfind. apply (Hnone "hero-1" Sample.cloud_record Hfind).
    reflexivity.
Defined.
